(** * Reflectance models and material parametrization

    A shallow embedding of [code/parametrizations/brdf.py] and
    [code/parametrizations/materials.py].

    - [F32]: IEEE 754 binary32 arithmetic, the element type of every tensor the
      program handles (the data layer builds them with [dtype=torch.float32]
      and [torch.ones] defaults to it).  Built on the Standard Library's
      [SpecFloat], so signed zeros, infinities, NaN and rounding are the
      real ones.
    - [Torch]: the tensor operations the two files use, on nested lists.
    - [Py]: the fragment of the Python object model the two files rely on:
      exceptions, name resolution, attribute lookup, positional calls,
      dictionaries, tensor objects sharing storage.
    - the reflectance kernels and the classes, under their source names. *)

From Stdlib Require Import ZArith Floats.SpecFloat.
From stdpp Require Import base option list strings.

Open Scope Z_scope.

(** ** Binary32 *)

Abbreviation float := spec_float.

#[global] Instance float_inhabited : Inhabited float := populate (S754_zero false).

Module F32.

Definition prec : Z := 24.
Definition emax : Z := 128.

Definition add : float -> float -> float := SFadd prec emax.
Definition sub : float -> float -> float := SFsub prec emax.
Definition mul : float -> float -> float := SFmul prec emax.
Definition div : float -> float -> float := SFdiv prec emax.
Definition sqrt : float -> float := SFsqrt prec emax.

Definition eqb : float -> float -> bool := SFeqb.
Definition ltb : float -> float -> bool := SFltb.
Definition leb : float -> float -> bool := SFleb.
(** Python's [a >= b] and [a != b]; the latter is true on unordered operands. *)
Definition geb (a b : float) : bool := SFleb b a.
Definition neb (a b : float) : bool := negb (SFeqb a b).

Definition zero : float := S754_zero false.
Definition one : float := S754_finite false 8388608 (-23).
Definition two : float := S754_finite false 8388608 (-22).
Definition nan : float := S754_nan.
Definition pinf : float := S754_infinity false.

Definition is_nan (x : float) : bool :=
  match x with S754_nan => true | _ => false end.

Definition is_zero (x : float) : bool :=
  match x with S754_zero _ => true | _ => false end.

(** Neither NaN nor an infinity. *)
Definition is_finite (x : float) : bool :=
  match x with S754_zero _ | S754_finite _ _ _ => true | _ => false end.

(** A value of the format: the mantissa and exponent of a finite number are
    the canonical ones of binary32. *)
Definition valid (x : float) : bool := valid_binary prec emax x.

Definition of_Z (z : Z) : float := binary_normalize prec emax z 0 false.

(** A Python [float] is a binary64; torch converts a Python scalar operand
    to the tensor's element type before the element-wise kernel runs. *)
Abbreviation double := spec_float.

Definition of_double (x : double) : float :=
  match x with
  | S754_finite s m e => binary_round prec emax s m e
  | _ => x
  end.

Definition dadd : double -> double -> double := SFadd 53 1024.
Definition dsub : double -> double -> double := SFsub 53 1024.
Definition dmul : double -> double -> double := SFmul 53 1024.
Definition ddiv : double -> double -> double := SFdiv 53 1024.
Definition double_of_Z (z : Z) : double := binary_normalize 53 1024 z 0 false.

(** The decimal literal [m]e-[k], as the Python parser rounds it. *)
Definition dlit (m : Z) (k : nat) : double :=
  ddiv (double_of_Z m) (double_of_Z (10 ^ Z.of_nat k)).

(** [np.pi], 0x400921FB54442D18. *)
Definition np_pi : double := S754_finite false 7074237752028440 (-51).

(** torch.clamp: NaN is propagated, otherwise [min(max(x, lo), hi)]. *)
Definition clamp (lo hi : option float) (x : float) : float :=
  if is_nan x then x
  else
    let y := match lo with Some l => if ltb x l then l else x | None => x end in
    match hi with Some h => if ltb h y then h else y | None => y end.

(** Sum of a row, accumulated left to right from [+0]. *)
Definition sum (v : list float) : float := foldl add zero v.

End F32.

(** ** Tensors *)

Module Torch.

Abbreviation T1 := (list float).
Abbreviation T2 := (list (list float)).
Abbreviation T3 := (list (list (list float))).

(** Element-wise kernels outside the four IEEE operations; they are
    supplied by the numeric backend. *)
Record kernels := Kernels {
  k_log : float -> float;
  k_exp : float -> float;
  k_pow : float -> float -> float
}.

Definition map2d {A B} (f : A -> B) : list (list A) -> list (list B) := map (map f).
Definition map3d {A B} (f : A -> B) : list (list (list A)) -> list (list (list B)) :=
  map (map (map f)).

(** One axis of a broadcasting binary operation: an axis of size 1 is
    stretched over the other operand's axis.  Operands are expected to be
    broadcast-compatible, as torch requires; torch rejects other shapes. *)
Definition bzip {A B C} (f : A -> B -> C) (xs : list A) (ys : list B) : list C :=
  match xs, ys with
  | [x], _ => map (f x) ys
  | _, [y] => map (fun x => f x y) xs
  | _, _ => zip_with f xs ys
  end.

Definition bop2 {A B C} (f : A -> B -> C) : list (list A) -> list (list B) -> list (list C) :=
  bzip (bzip f).
Definition bop3 {A B C} (f : A -> B -> C) :
  list (list (list A)) -> list (list (list B)) -> list (list (list C)) :=
  bzip (bzip (bzip f)).

(** [t.view(-1, 1, 3)] *)
Fixpoint chunk3 (l : T1) : T2 :=
  match l with
  | a :: b :: c :: r => [a; b; c] :: chunk3 r
  | _ => []
  end.
Definition view_m1_1_3 (t : T2) : T3 := map (fun r => [r]) (chunk3 (concat t)).

(** [t.view(-1, 1, 1)] *)
Definition view_m1_1_1 (t : T2) : T3 := map (fun x => [[x]]) (concat t).

(** [t.sum(dim=-1, keepdim=True)] *)
Definition sum_keepdim2 (t : T2) : T2 := map (fun v => [F32.sum v]) t.
Definition sum_keepdim3 (t : T3) : T3 := map sum_keepdim2 t.

(** [t ** 2] *)
Definition sq (x : float) : float := F32.mul x x.

(** [a @ b] for matrices: entry (i, j) accumulates [a[i][k] * b[k][j]] over
    [k], from [+0]. *)
Definition dot (u v : T1) : float := F32.sum (zip_with F32.mul u v).
Definition column (b : T2) (j : nat) : T1 := map (fun r => r !!! j) b.
Definition width (b : T2) : nat := match b with r :: _ => length r | [] => O end.
Definition matmul (a b : T2) : T2 :=
  map (fun u => map (fun j => dot u (column b j)) (seq 0 (width b))) a.

(** [t[mask] = v] *)
Definition mask_set (t : T3) (mask : list (list (list bool))) (v : float) : T3 :=
  zip_with (zip_with (zip_with (fun x (m : bool) => if m then v else x))) t mask.

Definition ones (n m : nat) : T2 := replicate n (replicate m F32.one).

End Torch.

Import Torch.

(** ** The Python object model *)

Module Py.

Inductive exn :=
| NameError (name : string)
| AttributeError (attr : string)
| KeyError (key : string)
| IndexError
| TypeError (msg : string)
| Fatal (msg : string).

Inductive result (A : Type) :=
| Ok (a : A)
| Raise (e : exn).
Arguments Ok {A} a.
Arguments Raise {A} e.

(** A tensor object: a handle on a storage cell.  [detach], [.data] and
    [torch.nn.Parameter] build new handles on the same storage; [clone]
    copies the storage. *)
Record tensor := Tensor { storage : nat; requires_grad : bool }.

Inductive brdf_class := ClsDiffuse | ClsCookTorrance | ClsCookTorranceF1.

#[warnings="-register-all"]
Inductive value :=
| VTensor (t : tensor)
| VDict (items : list (string * value))
| VArr2 (a : T2)
| VArr3 (a : T3)
| VObj (c : brdf_class)
| VOther.

(** A [BaseSpecularMaterials] object.  [__init__] sets
    [brdf_parametrization]; the other two attributes exist once
    [initialize] or [deserialize] has run. *)
Record instance := Instance {
  brdf_parametrization : brdf_class;
  brdf_parameters : option value;
  base_weights : option tensor
}.

(** Storage cells, the material objects (an object is its index), and the
    single slot of the [lru_cache(maxsize=1)] that wraps
    [get_brdf_parameters]: the argument it was last called with and the
    dictionary it returned. *)
Record world := World {
  heap : list T2;
  objects : list instance;
  lru : option (nat * value)
}.

Definition M (A : Type) : Type := world -> result A * world.

Definition ret {A} (a : A) : M A := fun w => (Ok a, w).
Definition raise {A} (e : exn) : M A := fun w => (Raise e, w).
Definition bind {A B} (m : M A) (k : A -> M B) : M B :=
  fun w => match m w with
           | (Ok a, w') => k a w'
           | (Raise e, w') => (Raise e, w')
           end.

#[global] Instance M_ret : MRet M := @ret.
#[global] Instance M_bind : MBind M := fun A B k m => bind m k.

Fixpoint mapM {A B} (f : A -> M B) (l : list A) : M (list B) :=
  match l with
  | [] => ret []
  | a :: r => b ← f a; bs ← mapM f r; ret (b :: bs)
  end.

Definition get_world : M world := fun w => (Ok w, w).

(** *** Storage *)

Definition alloc (d : T2) : M nat :=
  fun w => (Ok (length (heap w)), World (heap w ++ [d]) (objects w) (lru w)).
Definition load (t : tensor) : M T2 :=
  fun w => (Ok (heap w !!! storage t), w).
Definition store (l : nat) (d : T2) : M unit :=
  fun w => (Ok tt, World (<[l := d]> (heap w)) (objects w) (lru w)).

(** *** Tensor objects *)

Definition detach (t : tensor) : tensor := Tensor (storage t) false.
Definition data (t : tensor) : tensor := Tensor (storage t) false.
(** [torch.nn.Parameter(t)] *)
Definition nn_Parameter (t : tensor) : tensor := Tensor (storage t) true.
Definition clone (t : tensor) : M tensor :=
  d ← load t; l ← alloc d; ret (Tensor l (requires_grad t)).
Definition new_tensor (d : T2) : M tensor :=
  l ← alloc d; ret (Tensor l false).

(** [t.clamp_(min=lo, max=hi)] *)
Definition clamp_ (t : tensor) (lo hi : option float) : M unit :=
  d ← load t; store (storage t) (map2d (F32.clamp lo hi) d).
(** [t.div_(other)] *)
Definition div_ (t other : tensor) : M unit :=
  d ← load t; o ← load other; store (storage t) (bop2 F32.div d o).
(** [t.sum(dim=-1, keepdim=True)] *)
Definition sum_keepdim (t : tensor) : M tensor :=
  d ← load t; l ← alloc (sum_keepdim2 d); ret (Tensor l (requires_grad t)).
(** [a @ b] *)
Definition matmul_ (a b : tensor) : M tensor :=
  x ← load a; y ← load b; l ← alloc (matmul x y);
  ret (Tensor l (requires_grad a || requires_grad b)).

(** *** Dictionaries *)

Fixpoint dict_get (items : list (string * value)) (key : string) : option value :=
  match items with
  | [] => None
  | (k, v) :: r => if String.eqb k key then Some v else dict_get r key
  end.

(** [d[key]] *)
Definition getitem (d : value) (key : string) : M value :=
  match d with
  | VDict items =>
      match dict_get items key with
      | Some v => ret v
      | None => raise (KeyError key)
      end
  | _ => raise (TypeError "subscript")
  end.

(** [key in d] *)
Definition contains (d : value) (key : string) : M bool :=
  match d with
  | VDict items => ret (bool_decide (is_Some (dict_get items key)))
  | _ => raise (TypeError "membership")
  end.

(** Use of a value where the code needs a tensor with storage. *)
Definition as_tensor (v : value) (attr : string) : M tensor :=
  match v with
  | VTensor t => ret t
  | _ => raise (AttributeError attr)
  end.

(** *** Names *)

(** The names bound at the top level of brdf.py. *)
Definition brdf_globals : list string :=
  ["np"; "torch"; "abstractmethod"; "abstractstaticmethod"; "inner_product";
   "normalize"; "Parametrization"; "BrdfParametrization"; "Diffuse"; "Fresnel";
   "Beckmann"; "GTR"; "SmithG1"; "CookTorrance"; "CookTorranceF1";
   "BrdfParametrizationFactory"].

(** The names of the [builtins] module. *)
Definition builtins : list string :=
  ["abs"; "aiter"; "all"; "anext"; "any"; "ascii"; "bin"; "bool"; "breakpoint";
   "bytearray"; "bytes"; "callable"; "chr"; "classmethod"; "compile"; "complex";
   "copyright"; "credits"; "delattr"; "dict"; "dir"; "divmod"; "enumerate";
   "eval"; "exec"; "exit"; "filter"; "float"; "format"; "frozenset"; "getattr";
   "globals"; "hasattr"; "hash"; "help"; "hex"; "id"; "input"; "int";
   "isinstance"; "issubclass"; "iter"; "len"; "license"; "list"; "locals";
   "map"; "max"; "memoryview"; "min"; "next"; "object"; "oct"; "open"; "ord";
   "pow"; "print"; "property"; "quit"; "range"; "repr"; "reversed"; "round";
   "set"; "setattr"; "slice"; "sorted"; "staticmethod"; "str"; "sum"; "super";
   "tuple"; "type"; "vars"; "zip"; "True"; "False"; "None"; "Ellipsis";
   "NotImplemented"; "Exception"; "BaseException"; "ValueError"; "TypeError";
   "NameError"; "KeyError"; "IndexError"; "AttributeError"; "RuntimeError"].

(** Evaluation of a name inside a function body of brdf.py: the function's
    locals, then the module's globals, then the builtins. *)
Definition load_name (locals : list (string * value)) (name : string) : M value :=
  match dict_get locals name with
  | Some v => ret v
  | None =>
      if bool_decide (name ∈ brdf_globals) then ret VOther
      else if bool_decide (name ∈ builtins) then ret VOther
      else raise (NameError name)
  end.

(** *** Calls *)

(** A function defined with [def]: its positional parameters (none has a
    default) and its body, run on the bound parameters. *)
Record function (A : Type) := Function {
  parameters : list string;
  body : list (string * value) -> M A
}.
Arguments Function {A} parameters body.
Arguments parameters {A} f.
Arguments body {A} f.

(** [f(args)] with positional arguments only. *)
Definition call {A} (f : function A) (args : list value) : M A :=
  if bool_decide (length args = length (parameters f))
  then body f (zip (parameters f) args)
  else raise (TypeError "positional arguments").

End Py.

Import Py.

(** ** brdf.py *)

(** Broadcasting tensor arithmetic, and arithmetic between a tensor and a
    Python scalar (converted to binary32 first). *)
Declare Scope tensor_scope.
Delimit Scope tensor_scope with T.
Infix "+" := (bop3 F32.add) : tensor_scope.
Infix "-" := (bop3 F32.sub) : tensor_scope.
Infix "*" := (bop3 F32.mul) : tensor_scope.
Infix "/" := (bop3 F32.div) : tensor_scope.

(** [c * t], [c + t], [c - t], [t - c], [t / c] for a scalar [c]. *)
Definition smul (c : float) (t : T3) : T3 := map3d (F32.mul c) t.
Definition sadd (c : float) (t : T3) : T3 := map3d (F32.add c) t.
Definition rsub (c : float) (t : T3) : T3 := map3d (F32.sub c) t.
Definition subs (t : T3) (c : float) : T3 := map3d (fun x => F32.sub x c) t.
Definition divs (t : T3) (c : float) : T3 := map3d (fun x => F32.div x c) t.
(** [t ** 2], [t.sqrt()] *)
Definition pow2 (t : T3) : T3 := map3d sq t.
Definition sqrt3 (t : T3) : T3 := map3d F32.sqrt t.

(** The decimal literal [m]e-[k] as a tensor operand. *)
Definition lit (m : Z) (k : nat) : float := F32.of_double (F32.dlit m k).

(** Modelled from the spec: utils/vectors.py is not among the sources; the
    spec names its two functions "vector inner product" and "normalization"
    and the docstrings of brdf.py give the inner products a trailing axis of
    size 1.  [inner_product] multiplies element-wise (with broadcasting) and
    sums the last axis, keeping it. *)
Definition inner_product (vector1 vector2 : T3) : T3 :=
  sum_keepdim3 (vector1 * vector2)%T.

(** Modelled from the spec: [normalize] divides every vector of the last axis
    by its Euclidean norm. *)
Definition normalize (vector : T3) : T3 :=
  (vector / sqrt3 (sum_keepdim3 (pow2 vector)))%T.

Definition Fresnel (NdotLs : T3) (p_eta_mat : T2) : T3 :=
  let p_eta_mat := view_m1_1_1 p_eta_mat in
  let cos_thetas_env := NdotLs in
  let cos_thetas_mat :=
    (sqrt3 (subs (pow2 cos_thetas_env + pow2 p_eta_mat) F32.one) / p_eta_mat)%T in
  let r_p :=
    ((p_eta_mat * cos_thetas_env - cos_thetas_mat)
     / (p_eta_mat * cos_thetas_env + cos_thetas_mat))%T in
  let r_s :=
    ((cos_thetas_env - p_eta_mat * cos_thetas_mat)
     / (cos_thetas_env + p_eta_mat * cos_thetas_mat))%T in
  divs (pow2 r_p + pow2 r_s)%T F32.two.

(** [(NdotHs ** 2).clamp_(min=0., max=1.)]: the clamp is in place on the
    temporary holding the squares. *)
Definition cosNH2_of (NdotHs : T3) : T3 :=
  map3d (F32.clamp (Some F32.zero) (Some F32.one)) (pow2 NdotHs).

Section Kernels.

Variable K : kernels.

Definition Beckmann (NdotHs : T3) (p_roughness : T2) : T3 :=
  let p_roughness := view_m1_1_1 p_roughness in
  let cosNH2 := cosNH2_of NdotHs in
  let cosNH4 := pow2 cosNH2 in
  let tanNH2 := (rsub F32.one cosNH2 / cosNH2)%T in
  let p_roughness2 := pow2 p_roughness in
  let Ds :=
    (map3d (k_exp K) (map3d (SFopp) tanNH2 / p_roughness2) / (p_roughness2 * cosNH4))%T in
  Ds.

(** [gamma] is a Python float. *)
Definition GTR (NdotHs : T3) (p_roughness : T2) (gamma : F32.double) : T3 :=
  let p_roughness := view_m1_1_1 p_roughness in
  let cosNH2 := cosNH2_of NdotHs in
  let p_roughness2 := pow2 p_roughness in
  if SFeqb gamma (F32.double_of_Z 1) then
    let cs := (subs p_roughness2 F32.one / map3d (k_log K) p_roughness2)%T in
    let Ds := (cs / sadd F32.one (subs p_roughness2 F32.one * cosNH2))%T in
    Ds
  else
    let g1 := F32.of_double (F32.dsub gamma (F32.double_of_Z 1)) in
    let e1 := F32.of_double (F32.dsub (F32.double_of_Z 1) gamma) in
    let cs :=
      (smul g1 (subs p_roughness2 F32.one)
       / rsub F32.one (map3d (fun x => k_pow K x e1) p_roughness2))%T in
    let Ds :=
      (cs / map3d (fun x => k_pow K x (F32.of_double gamma))
                  (sadd F32.one (subs p_roughness2 F32.one * cosNH2)))%T in
    Ds.

End Kernels.

(** [SmithG1] returns [Gs]; its first statement clamps the argument tensor
    in place, so the caller's tensor is changed too: the second component is
    the argument tensor as the call leaves it. *)
Definition SmithG1 (NdotWs : T3) (p_roughness : T2) : T3 * T3 :=
  let NdotWs := map3d (F32.clamp (Some F32.zero) (Some F32.one)) NdotWs in
  let cos_thetas := NdotWs in
  let sin_thetas := sqrt3 (rsub F32.one (pow2 cos_thetas)) in
  let cot_thetas := (cos_thetas / sin_thetas)%T in
  let prelims := (cot_thetas / view_m1_1_1 p_roughness)%T in
  let prelims2 := pow2 prelims in
  let Gs :=
    ((smul (lit 3535 3) prelims + smul (lit 2181 3) prelims2)
     / (sadd F32.one (smul (lit 2276 3) prelims) + smul (lit 2577 3) prelims2))%T in
  let Gs := mask_set Gs (map3d (fun s => F32.eqb s F32.zero) sin_thetas) F32.one in
  let Gs := mask_set Gs (map3d (fun x => F32.geb x (lit 16 1)) prelims) F32.one in
  (Gs, NdotWs).

(** *** Classes *)

(** What a class attribute of the reflectance models is, by the type of
    function behind it. *)
Inductive attribute :=
| ARhos (f : function (T3 * T3))
| ACount (f : function (Z * list (string * Z)))
| AProc (f : function unit)
| AVariadic
| AOpaque.

(** Typed reading of bound parameters. *)
Definition local3 (locals : list (string * value)) (name : string) : M T3 :=
  v ← load_name locals name;
  match v with VArr3 a => mret a | _ => raise (TypeError "tensor rank") end.
Definition local2 (locals : list (string * value)) (name : string) : M T2 :=
  v ← load_name locals name;
  match v with VArr2 a => mret a | _ => raise (TypeError "tensor rank") end.

(** [d[key]] as a tensor, read. *)
Definition tensor_item (d : value) (key : string) : M T2 :=
  v ← getitem d key; t ← as_tensor v "view"; load t.

Module BrdfParametrization.

Definition _calculate_NdotHs (Ls : T3) (Vs normals : T2) : T3 * T3 :=
  let Vs := view_m1_1_3 Vs in
  let Hs := (Ls + Vs)%T in
  let Hs := normalize Hs in
  let NdotHs := inner_product (view_m1_1_3 normals) Hs in
  (Hs, NdotHs).

End BrdfParametrization.

Module Diffuse.

Definition calculate_rhos : function (T3 * T3) :=
  Function ["self"; "Ls"; "Vs"; "normals"; "parameters"] (fun locals =>
    Ls ← local3 locals "Ls";
    Vs ← local2 locals "Vs";
    normals ← local2 locals "normals";
    let '(Hs, NdotHs) := BrdfParametrization._calculate_NdotHs Ls Vs normals in
    parameters ← load_name locals "parameters";
    diffuse ← tensor_item parameters "diffuse";
    let rhos := divs (view_m1_1_3 diffuse) (F32.of_double F32.np_pi) in
    mret (rhos, NdotHs)).

Definition get_parameter_count : function (Z * list (string * Z)) :=
  Function ["self"] (fun _ => mret (3, [])).

Definition enforce_parameter_bounds : function unit :=
  Function ["self"; "parameters"] (fun locals =>
    parameters ← load_name locals "parameters";
    d ← getitem parameters "diffuse"; d ← as_tensor d "data";
    clamp_ (data d) (Some F32.zero) None).

Definition serialize : function unit := Function ["self"] (fun _ => mret tt).

End Diffuse.

(** The Fresnel factor of [CookTorrance.calculate_rhos]: the Python float
    [1.] or a tensor. *)
Inductive factor :=
| FScalar (x : F32.double)
| FTensor (t : T3).

Definition factor_mul (Fs : factor) (t : T3) : T3 :=
  match Fs with
  | FScalar x => smul (F32.of_double x) t
  | FTensor f => (f * t)%T
  end.

(** [CTs[CTs != CTs] = 0] *)
Definition guard_bad_denominators (CTs : T3) : T3 :=
  mask_set CTs (map3d (fun x => F32.neb x x) CTs) F32.zero.

Module CookTorrance.

Definition calculate_rhos (K : kernels) : function (T3 * T3) :=
  Function ["self"; "Ls"; "Vs"; "normals"; "parameters"] (fun locals =>
    Ls ← local3 locals "Ls";
    Vs ← local2 locals "Vs";
    normals ← local2 locals "normals";
    let '(Hs, NdotHs) := BrdfParametrization._calculate_NdotHs Ls Vs normals in
    let Vs := view_m1_1_3 Vs in
    let normals := view_m1_1_3 normals in
    let NdotLs := inner_product normals Ls in
    let NdotVs := inner_product normals Vs in
    let VdotHs := inner_product Vs Hs in

    parameters ← load_name locals "parameters";
    p_diffuse ← getitem parameters "diffuse";
    specular ← getitem parameters "specular";
    p_specular ← getitem specular "albedo";
    roughness ← tensor_item specular "roughness";
    let p_roughness := map2d sq roughness in

    has_eta ← contains specular "eta";
    Fs ← (if has_eta : bool
          then p_eta ← tensor_item specular "eta"; mret (FTensor (Fresnel VdotHs p_eta))
          else mret (FScalar (F32.double_of_Z 1)));

    let Ds := GTR K NdotHs p_roughness (F32.double_of_Z 1) in
    let '(G_Ls, NdotLs) := SmithG1 NdotLs p_roughness in
    let '(G_Vs, NdotVs) := SmithG1 NdotVs p_roughness in
    let Gs := (G_Ls * G_Vs)%T in

    p_specular ← as_tensor p_specular "view"; p_specular ← load p_specular;
    let four_pi := F32.of_double (F32.dmul (F32.double_of_Z 4) F32.np_pi) in
    let CTs :=
      (view_m1_1_3 p_specular * (factor_mul Fs Ds * Gs)
       / (smul four_pi NdotLs * NdotVs))%T in
    let CTs := guard_bad_denominators CTs in

    p_diffuse ← as_tensor p_diffuse "view"; p_diffuse ← load p_diffuse;
    let rhos := (divs (view_m1_1_3 p_diffuse) (F32.of_double F32.np_pi) + CTs)%T in
    mret (rhos, NdotHs)).

Definition get_parameter_count : function (Z * list (string * Z)) :=
  Function ["self"] (fun _ => mret (3, [("albedo", 3); ("roughness", 1); ("eta", 1)])).

Definition enforce_parameter_bounds : function unit :=
  Function ["self"; "parameters"] (fun locals =>
    params ← load_name locals "params";
    d ← getitem params "diffuse"; d ← as_tensor d "data";
    clamp_ (data d) (Some F32.zero) None;;
    params ← load_name locals "params";
    s ← getitem params "specular"; a ← getitem s "albedo"; a ← as_tensor a "data";
    clamp_ (data a) (Some F32.zero) None;;
    params ← load_name locals "params";
    s ← getitem params "specular"; r ← getitem s "roughness"; r ← as_tensor r "data";
    clamp_ (data r) (Some (lit 1 6))
      (Some (F32.of_double (F32.dsub (F32.double_of_Z 1) (F32.dlit 1 6))));;
    params ← load_name locals "params";
    s ← getitem params "specular";
    has_eta ← contains s "eta";
    if has_eta : bool then
      params ← load_name locals "params";
      s ← getitem params "specular"; e ← getitem s "eta"; e ← as_tensor e "data";
      clamp_ (data e) (Some (lit 10001 4)) (Some (lit 2999 3))
    else mret tt).

Definition serialize : function unit := Function ["self"] (fun _ => mret tt).

End CookTorrance.

Module CookTorranceF1.

Definition calculate_rhos (K : kernels) : function (T3 * T3) :=
  Function ["self"; "Ls"; "Vs"; "normals"; "parameters"] (fun locals =>
    Ls ← load_name locals "Ls";
    Vs ← load_name locals "Vs";
    normals ← load_name locals "normals";
    call (CookTorrance.calculate_rhos K) [Ls; Vs; normals]).

Definition get_parameter_count : function (Z * list (string * Z)) :=
  Function ["self"] (fun _ => mret (3, [("albedo", 3); ("roughness", 1)])).

Definition enforce_parameter_bounds : function unit :=
  Function ["self"; "parameters"] (fun locals =>
    parameters ← load_name locals "parameters";
    call CookTorrance.enforce_parameter_bounds [parameters]).

Definition serialize : function unit := Function ["self"] (fun _ => mret tt).

End CookTorranceF1.

(** *** The factory *)

(** A dictionary literal keyed by strings. *)
Fixpoint assoc {A} (d : list (string * A)) (key : string) : option A :=
  match d with
  | [] => None
  | (k, a) :: r => if String.eqb k key then Some a else assoc r key
  end.

(** A call of an object that is none of the functions above. *)
Definition call_object (f : value) (args : list value) : M unit :=
  raise (Fatal "not among the sources").

(** [BrdfParametrizationFactory(name)]: the class, or what the [else]
    branch leaves, [None].  The branch evaluates the name [error] before
    the message it would pass to it. *)
Definition BrdfParametrizationFactory (name : string) : M (option brdf_class) :=
  let valid_dict :=
    [("diffuse", ClsDiffuse); ("cook torrance", ClsCookTorrance);
     ("cook torrance F1", ClsCookTorranceF1)] in
  match assoc valid_dict name with
  | Some c => mret (Some c)
  | None =>
      f ← load_name [("name", VOther); ("valid_dict", VOther)] "error";
      call_object f [VOther];;
      mret None
  end.

(** The namespace of each class, in definition order.  [deserialize] takes
    [*args]. *)
Definition class_dict (K : kernels) (c : brdf_class) : list (string * attribute) :=
  match c with
  | ClsDiffuse =>
      [("calculate_rhos", ARhos Diffuse.calculate_rhos);
       ("get_parameter_count", ACount Diffuse.get_parameter_count);
       ("enforce_parameter_bounds", AProc Diffuse.enforce_parameter_bounds);
       ("serialize", AProc Diffuse.serialize);
       ("deserialize", AVariadic)]
  | ClsCookTorrance =>
      [("calculate_rhos", ARhos (CookTorrance.calculate_rhos K));
       ("get_parameter_count", ACount CookTorrance.get_parameter_count);
       ("enforce_parameter_bounds", AProc CookTorrance.enforce_parameter_bounds);
       ("serialize", AProc CookTorrance.serialize);
       ("deserialize", AVariadic)]
  | ClsCookTorranceF1 =>
      [("calculate_rhos", ARhos (CookTorranceF1.calculate_rhos K));
       ("get_parameter_count", ACount CookTorranceF1.get_parameter_count);
       ("enforce_parameter_bounds", AProc CookTorranceF1.enforce_parameter_bounds);
       ("serialize", AProc CookTorranceF1.serialize);
       ("deserialize", AVariadic)]
  end.

(** What [BrdfParametrization] adds to the three namespaces (its abstract
    methods are overridden by each of them). *)
Definition BrdfParametrization_dict : list (string * attribute) :=
  [("_calculate_NdotHs", AOpaque)].

(** Modelled from the spec: parametrizations/parametrization.py, the common
    base class [Parametrization], is not among the sources.  The spec gives
    the capability set shared by reflectance models and material
    parametrizations as evaluation or materialization, parameter
    cardinality, bounds projection, initialization, the descriptor of
    optimizable groups and (de)serialization; its attributes are these, all
    overridden or unused by the reflectance models. *)
Definition Parametrization_dict : list (string * attribute) :=
  [("initialize", AOpaque); ("parameter_info", AOpaque);
   ("enforce_parameter_bounds", AOpaque);
   ("serialize", AOpaque); ("deserialize", AOpaque)].

Fixpoint attr_get (d : list (string * attribute)) (name : string) : option attribute :=
  match d with
  | [] => None
  | (k, a) :: r => if String.eqb k name then Some a else attr_get r name
  end.

(** [obj.name] on an instance of a reflectance model: the class, then its
    bases in method resolution order; names of [object] are the dunder
    ones. *)
Definition getattr (K : kernels) (c : brdf_class) (name : string) : M attribute :=
  match attr_get (class_dict K c ++ BrdfParametrization_dict ++ Parametrization_dict) name with
  | Some a => mret a
  | None =>
      if String.prefix "__" name then mret AOpaque
      else raise (AttributeError name)
  end.

(** ** materials.py *)

(** Modelled from the spec: utils/logging.py is not among the sources; the
    spec makes every use of its [error] a fatal condition that aborts the
    current computation. *)
Definition error {A} (msg : string) : M A := raise (Fatal msg).

Fixpoint detach_and_clone_dict_recursive (dictionary : value) : M value :=
  match dictionary with
  | VDict items =>
      new_dictionary ←
        (fix over (items : list (string * value)) : M (list (string * value)) :=
           match items with
           | [] => mret []
           | (key, value) :: rest =>
               v ← match value with
                   | VTensor t => c ← clone (detach t); mret (VTensor c)
                   | VArr2 a => mret (VArr2 a)
                   | VArr3 a => mret (VArr3 a)
                   | _ => detach_and_clone_dict_recursive value
                   end;
               r ← over rest;
               mret ((key, v) :: r)
           end) items;
      mret (VDict new_dictionary)
  | _ => error "detach_and_clone_dict_recursive acting on neither a Tensor nor a dict."
  end.

Fixpoint attach_dict_recursive (dictionary : value) : M value :=
  match dictionary with
  | VDict items =>
      new_dictionary ←
        (fix over (items : list (string * value)) : M (list (string * value)) :=
           match items with
           | [] => mret []
           | (key, value) :: rest =>
               v ← match value with
                   | VTensor t => mret (VTensor (nn_Parameter t))
                   | VArr2 a => mret (VArr2 a)
                   | VArr3 a => mret (VArr3 a)
                   | _ => attach_dict_recursive value
                   end;
               r ← over rest;
               mret ((key, v) :: r)
           end) items;
      mret (VDict new_dictionary)
  | _ => error "attach_dict_recursive acting on neither a Tensor nor a dict."
  end.

(** A call made for its effect, whatever the attribute turns out to be. *)
Definition call_attribute (a : attribute) (args : list value) : M unit :=
  match a with
  | ARhos f => _ ← call f args; mret tt
  | ACount f => _ ← call f args; mret tt
  | AProc f => call f args
  | AVariadic => mret tt
  | AOpaque => error "not among the sources"
  end.

Module BaseSpecularMaterials.

(** *** Attributes of [self] *)

Definition get_object (self : nat) : M instance :=
  fun w => match objects w !! self with
           | Some o => (Ok o, w)
           | None => (Raise (Fatal "no such object"), w)
           end.

Definition set_object (self : nat) (o : instance) : M unit :=
  fun w => (Ok tt, World (heap w) (<[self := o]> (objects w)) (lru w)).

Definition self_brdf_parametrization (self : nat) : M brdf_class :=
  o ← get_object self; mret (brdf_parametrization o).

Definition self_brdf_parameters (self : nat) : M value :=
  o ← get_object self;
  match brdf_parameters o with
  | Some p => mret p
  | None => raise (AttributeError "brdf_parameters")
  end.

Definition self_base_weights (self : nat) : M tensor :=
  o ← get_object self;
  match base_weights o with
  | Some t => mret t
  | None => raise (AttributeError "base_weights")
  end.

Definition set_brdf_parameters (self : nat) (p : value) : M unit :=
  o ← get_object self;
  set_object self (Instance (brdf_parametrization o) (Some p) (base_weights o)).

Definition set_base_weights (self : nat) (t : tensor) : M unit :=
  o ← get_object self;
  set_object self (Instance (brdf_parametrization o) (brdf_parameters o) (Some t)).

(** *** Methods *)

(** Every tensor lives on one device, so [.to(device)] returns its
    argument. *)
Definition initialize (K : kernels) (self : nat) (nr_points : nat)
    (diffuse_materials : tensor) (nr_bases : nat) : M unit :=
  bp ← self_brdf_parametrization self;
  a ← getattr K bp "get_parameter_count";
  '(B_d, B_s_dict) ← match a with
                     | ACount f => call f [VObj bp]
                     | _ => raise (TypeError "cannot unpack")
                     end;
  let diffuse := nn_Parameter (detach diffuse_materials) in
  specular ← mapM (fun '(name, B_s) =>
                     t ← new_tensor (ones nr_bases (Z.to_nat B_s));
                     mret (name, VTensor (nn_Parameter t))) B_s_dict;
  set_brdf_parameters self
    (VDict [("diffuse", VTensor diffuse); ("specular", VDict specular)]);;
  w ← new_tensor (map2d (fun x => F32.div x (F32.of_Z (Z.of_nat nr_bases)))
                        (ones nr_points nr_bases));
  set_base_weights self (nn_Parameter w).

(** [d.items()] *)
Definition dict_items (d : value) : M (list (string * value)) :=
  match d with
  | VDict items => mret items
  | _ => raise (AttributeError "items")
  end.

(** One element of the comprehension over the specular items:
    [[name, self.base_weights @ base_parameters]]. *)
Definition mix_bases (self : nat) (item : string * value) : M (string * value) :=
  let '(name, base_parameters) := item in
  bw ← self_base_weights self;
  b ← match base_parameters with
      | VTensor b => mret b
      | _ => raise (TypeError "matmul")
      end;
  t ← matmul_ bw b;
  mret (name, VTensor t).

(** The undecorated function. *)
Definition get_brdf_parameters_uncached (self : nat) : M value :=
  p ← self_brdf_parameters self;
  diffuse ← getitem p "diffuse";
  p ← self_brdf_parameters self;
  s ← getitem p "specular";
  items ← dict_items s;
  specular ← mapM (mix_bases self) items;
  mret (VDict [("diffuse", diffuse); ("specular", VDict specular)]).

Definition set_lru (entry : option (nat * value)) : M unit :=
  fun w => (Ok tt, World (heap w) (objects w) entry).

(** [functools.lru_cache(maxsize=1)] around a one-argument function whose
    argument is hashed and compared by identity: a call with the argument
    of the stored entry returns the stored result without running the
    function; any other call runs it and replaces the entry.  A call that
    raises stores nothing. *)
Definition lru_cache_1 (f : nat -> M value) (self : nat) : M value :=
  w ← get_world;
  match lru w with
  | Some (key, cached) =>
      if bool_decide (key = self) then mret cached
      else (v ← f self; set_lru (Some (self, v));; mret v)
  | None => v ← f self; set_lru (Some (self, v));; mret v
  end.

Definition get_brdf_parameters : nat -> M value :=
  lru_cache_1 get_brdf_parameters_uncached.

Definition enforce_parameter_bounds (K : kernels) (self : nat) : M unit :=
  w ← self_base_weights self;
  clamp_ (data w) (Some F32.zero) (Some F32.one);;
  w ← self_base_weights self;
  w' ← self_base_weights self;
  s ← sum_keepdim w';
  div_ (data w) s;;
  bp ← self_brdf_parametrization self;
  m ← getattr K bp "enforce_brdf_parameter_bounds";
  p ← self_brdf_parameters self;
  call_attribute m [VObj bp; p].

Definition serialize (self : nat) : M (tensor * value) :=
  w ← self_base_weights self;
  c ← clone (detach w);
  p ← self_brdf_parameters self;
  d ← detach_and_clone_dict_recursive p;
  mret (c, d).

(** [deserialize(self, *args)] *)
Definition deserialize (self : nat) (args : list value) : M unit :=
  a0 ← match args !! 0%nat with Some a => mret a | None => raise IndexError end;
  t ← match a0 with VTensor t => mret t | _ => raise (TypeError "Parameter") end;
  set_base_weights self (nn_Parameter t);;
  a1 ← match args !! 1%nat with Some a => mret a | None => raise IndexError end;
  p ← attach_dict_recursive a1;
  set_brdf_parameters self p.

End BaseSpecularMaterials.

(** * Vocabulary of the statements *)

(** The clamp of the cosines and of the mixture weights. *)
Definition clamp01 : float -> float := F32.clamp (Some F32.zero) (Some F32.one).

(** Dividing every row by its own sum: the broadcast of an N×K tensor
    against the N×1 tensor of its row sums. *)
Definition renormalize (d : T2) : T2 :=
  map (fun row => map (fun x => F32.div x (F32.sum row)) row) d.

(** A tensor of per-point rows combined with one scalar per point. *)
Definition per_point {A B} (f : A -> float -> B) (t : list (list (list A))) (alphas : T1) :
    list (list (list B)) :=
  zip_with (fun rows alpha => map2d (fun c => f c alpha) rows) t alphas.

(** The rational approximation, in [x = cot(theta) / alpha]. *)
Definition G1_rational (x : float) : float :=
  F32.div
    (F32.add (F32.mul (lit 3535 3) x) (F32.mul (lit 2181 3) (sq x)))
    (F32.add (F32.add F32.one (F32.mul (lit 2276 3) x)) (F32.mul (lit 2577 3) (sq x))).

(** One entry of the shadowing term as the specification words it: clamp
    the cosine, form [x], return 1 where [sin(theta) = 0] or [x >= 1.6] and
    the rational approximation elsewhere. *)
Definition SmithG1_entry (cosine alpha : float) : float :=
  let c := clamp01 cosine in
  let s := F32.sqrt (F32.sub F32.one (sq c)) in
  let x := F32.div (F32.div c s) alpha in
  if F32.geb x (lit 16 1) then F32.one
  else if F32.eqb s F32.zero then F32.one
  else G1_rational x.

(** 0.5 *)
Definition half : float := S754_finite false 8388608 (-24).

(** Numerically equal and of the same class: the same value, or two zeros. *)
Definition same_value (x y : float) : Prop :=
  x = y \/ (F32.is_zero x = true /\ F32.is_zero y = true).

(** The weight rows [1, 0] and [0, 1]. *)
Definition one_hot_2 : T2 := [[F32.one; F32.zero]; [F32.zero; F32.one]].

(** The parameter dictionary [initialize] builds and [deserialize] restores:
    a diffuse tensor and one tensor per specular field. *)
Definition spec_items (specs : list (string * tensor)) : list (string * value) :=
  map (fun nt => (nt.1, VTensor nt.2)) specs.

Definition param_dict (d : tensor) (specs : list (string * tensor)) : value :=
  VDict [("diffuse", VTensor d); ("specular", VDict (spec_items specs))].

(** The specular items of the derived dictionary: one new tensor per
    field, in consecutive storage cells from [base] on. *)
Fixpoint mixed_items (base : nat) (g : bool) (specs : list (string * tensor)) :
    list (string * value) :=
  match specs with
  | [] => []
  | (name, t) :: rest =>
      (name, VTensor (Tensor base (g || requires_grad t))) :: mixed_items (S base) g rest
  end.

(** The loop of [detach_and_clone_dict_recursive] over the items of one
    dictionary. *)
Definition clone_items : list (string * value) -> M (list (string * value)) :=
  fix over (items : list (string * value)) : M (list (string * value)) :=
    match items with
    | [] => mret []
    | (key, value) :: rest =>
        v ← match value with
            | VTensor t => c ← clone (detach t); mret (VTensor c)
            | VArr2 a => mret (VArr2 a)
            | VArr3 a => mret (VArr3 a)
            | _ => detach_and_clone_dict_recursive value
            end;
        r ← over rest;
        mret ((key, v) :: r)
    end.

(** The loop of [attach_dict_recursive] over the items of one dictionary. *)
Definition attach_items : list (string * value) -> M (list (string * value)) :=
  fix over (items : list (string * value)) : M (list (string * value)) :=
    match items with
    | [] => mret []
    | (key, value) :: rest =>
        v ← match value with
            | VTensor t => mret (VTensor (nn_Parameter t))
            | VArr2 a => mret (VArr2 a)
            | VArr3 a => mret (VArr3 a)
            | _ => attach_dict_recursive value
            end;
        r ← over rest;
        mret ((key, v) :: r)
    end.

(** The copies of the specular tensors: detached, in consecutive new cells. *)
Fixpoint cloned_specs (base : nat) (specs : list (string * tensor)) : list (string * tensor) :=
  match specs with
  | [] => []
  | (name, _) :: rest => (name, Tensor base false) :: cloned_specs (S base) rest
  end.

(** The same tensors wrapped by [torch.nn.Parameter]. *)
Definition attached_specs (specs : list (string * tensor)) : list (string * tensor) :=
  map (fun nt => (nt.1, nn_Parameter nt.2)) specs.

(** What the guard does to one entry. *)
Definition nan_to_zero (x : float) : float := if F32.is_nan x then F32.zero else x.

(** All the entries of a tensor. *)
Definition entries (t : T3) : list float := concat (concat t).

(** Zero of either sign, or NaN: what a product with a vanishing factor
    can be. *)
Definition zero_or_nan (x : float) : bool := F32.is_zero x || F32.is_nan x.

(** NaN, or not below zero. *)
Definition nan_or_nonneg (x : float) : bool := F32.is_nan x || F32.leb F32.zero x.

(** [4 * np.pi], as the tensor operand it becomes. *)
Definition four_pi : float := F32.of_double (F32.dmul (F32.double_of_Z 4) F32.np_pi).

(** The specular term of [CookTorrance.calculate_rhos] before the guard,
    from the inner products and the parameters. *)
Definition specular_term (K : kernels) (Fs : factor) (NdotHs NdotLs NdotVs : T3)
    (albedo roughness : T2) : T3 :=
  let p_roughness := map2d sq roughness in
  let Ds := GTR K NdotHs p_roughness (F32.double_of_Z 1) in
  let '(G_Ls, NdotLs) := SmithG1 NdotLs p_roughness in
  let '(G_Vs, NdotVs) := SmithG1 NdotVs p_roughness in
  (view_m1_1_3 albedo * (factor_mul Fs Ds * (G_Ls * G_Vs))
   / (smul four_pi NdotLs * NdotVs))%T.

(** The tensors of a nested dictionary, in the order of its items. *)
Fixpoint tensor_leaves (v : value) : list tensor :=
  match v with
  | VTensor t => [t]
  | VDict items =>
      (fix over (items : list (string * value)) : list tensor :=
         match items with
         | [] => []
         | (_, value) :: rest => tensor_leaves value ++ over rest
         end) items
  | _ => []
  end.

(** A tensor, or a dictionary nested to any depth whose leaves are all
    tensors. *)
Fixpoint tensor_tree (v : value) : bool :=
  match v with
  | VTensor _ | VArr2 _ | VArr3 _ => true
  | VDict items =>
      (fix over (items : list (string * value)) : bool :=
         match items with
         | [] => true
         | (_, value) :: rest => tensor_tree value && over rest
         end) items
  | _ => false
  end.

Definition dict_of_tensors (v : value) : bool :=
  match v with VDict _ => tensor_tree v | _ => false end.

(** Two nested dictionaries with the same keys in the same order at every
    level, whose tensors are related by [R]. *)
#[warnings="-register-all"]
Inductive same_shape (R : tensor -> tensor -> Prop) : value -> value -> Prop :=
| same_shape_tensor t t' : R t t' -> same_shape R (VTensor t) (VTensor t')
| same_shape_arr2 a : same_shape R (VArr2 a) (VArr2 a)
| same_shape_arr3 a : same_shape R (VArr3 a) (VArr3 a)
| same_shape_dict items items' :
    Forall2 (fun kv kv' => kv.1 = kv'.1 /\ same_shape R kv.2 kv'.2) items items' ->
    same_shape R (VDict items) (VDict items').

Definition attach_message : string :=
  "attach_dict_recursive acting on neither a Tensor nor a dict.".
Definition detach_message : string :=
  "detach_and_clone_dict_recursive acting on neither a Tensor nor a dict.".

(** What the loops of [attach_dict_recursive] and
    [detach_and_clone_dict_recursive] do with one value of a dictionary. *)
Definition attach_value (v : value) : M value :=
  match v with
  | VTensor t => mret (VTensor (nn_Parameter t))
  | VArr2 a => mret (VArr2 a)
  | VArr3 a => mret (VArr3 a)
  | _ => attach_dict_recursive v
  end.

Definition clone_value (v : value) : M value :=
  match v with
  | VTensor t => c ← clone (detach t); mret (VTensor c)
  | VArr2 a => mret (VArr2 a)
  | VArr3 a => mret (VArr3 a)
  | _ => detach_and_clone_dict_recursive v
  end.

(** A tensor that takes no part in differentiation. *)
Definition detached (t t' : tensor) : Prop := requires_grad t' = false.

(** [n] detached tensors on the consecutive storage cells from [base] on. *)
Definition fresh_tensors (base n : nat) : list tensor :=
  (fun i => Tensor i false) <$> seq base n.

(** The specular fields of each reflectance model and their widths. *)
Definition specular_fields (c : brdf_class) : list (string * Z) :=
  match c with
  | ClsDiffuse => []
  | ClsCookTorrance => [("albedo", 3); ("roughness", 1); ("eta", 1)]
  | ClsCookTorranceF1 => [("albedo", 3); ("roughness", 1)]
  end.

(** [torch.ones(nr_points, nr_bases) / nr_bases] *)
Definition uniform_weights (nr_points nr_bases : nat) : T2 :=
  map2d (fun x => F32.div x (F32.of_Z (Z.of_nat nr_bases))) (ones nr_points nr_bases).

(** ** Batches *)

(** The data of one point of a batch apart from its lights: the view
    direction, the normal and its rows of the parameter tensors. *)
Record point := Point {
  p_view : T1;
  p_normal : T1;
  p_diffuse : T1;
  p_albedo : T1;
  p_roughness : T1;
  p_eta : T1
}.

(** The guarded specular term of [CookTorrance.calculate_rhos] and what the
    method returns, from the directions and the tensors of the parameter
    dictionary ([eta] when the dictionary has it). *)
Definition guarded_specular (K : kernels) (Ls : T3) (Vs normals albedo roughness : T2)
    (eta : option T2) : T3 :=
  let '(Hs, NdotHs) := BrdfParametrization._calculate_NdotHs Ls Vs normals in
  let NdotLs := inner_product (view_m1_1_3 normals) Ls in
  let NdotVs := inner_product (view_m1_1_3 normals) (view_m1_1_3 Vs) in
  let VdotHs := inner_product (view_m1_1_3 Vs) Hs in
  let Fs := match eta with
            | Some p_eta => FTensor (Fresnel VdotHs p_eta)
            | None => FScalar (F32.double_of_Z 1)
            end in
  guard_bad_denominators (specular_term K Fs NdotHs NdotLs NdotVs albedo roughness).

(** What [CookTorrance.calculate_rhos] returns: rhos and NdotHs. *)
Definition reflectance (K : kernels) (Ls : T3) (Vs normals diffuse albedo roughness : T2)
    (eta : option T2) : T3 * T3 :=
  ((divs (view_m1_1_3 diffuse) (F32.of_double F32.np_pi)
    + guarded_specular K Ls Vs normals albedo roughness eta)%T,
   snd (BrdfParametrization._calculate_NdotHs Ls Vs normals)).

(** A tensor of a batch read point by point: its rows depend on the point
    and one of its lights, or on the point alone (a light axis of size
    1). *)
Inductive rep (A : Type) :=
| PerLight (h : point -> T1 -> list A)
| PerPoint (c : point -> list A).
Arguments PerLight {A} h.
Arguments PerPoint {A} c.

(** The tensor a reading stands for, over the points of a batch. *)
Definition denote {A} (pts : list (T2 * point)) (r : rep A) : list (list (list A)) :=
  match r with
  | PerLight h => map (fun p => map (h p.2) p.1) pts
  | PerPoint c => map (fun p => [c p.2]) pts
  end.

(** The tensor operations of brdf.py on readings: entry-wise maps,
    broadcasting binary operations, sums over the last axis and masked
    assignment. *)
Definition rep_map {A B} (f : A -> B) (r : rep A) : rep B :=
  match r with
  | PerLight h => PerLight (fun q l => map f (h q l))
  | PerPoint c => PerPoint (fun q => map f (c q))
  end.

Definition rep_bop {A B C} (f : A -> B -> C) (r1 : rep A) (r2 : rep B) : rep C :=
  match r1, r2 with
  | PerLight h1, PerLight h2 => PerLight (fun q l => bzip f (h1 q l) (h2 q l))
  | PerLight h1, PerPoint c2 => PerLight (fun q l => bzip f (h1 q l) (c2 q))
  | PerPoint c1, PerLight h2 => PerLight (fun q l => bzip f (c1 q) (h2 q l))
  | PerPoint c1, PerPoint c2 => PerPoint (fun q => bzip f (c1 q) (c2 q))
  end.

Definition rep_sum (r : rep float) : rep float :=
  match r with
  | PerLight h => PerLight (fun q l => [F32.sum (h q l)])
  | PerPoint c => PerPoint (fun q => [F32.sum (c q)])
  end.

Definition rep_mask (r : rep float) (m : rep bool) (v : float) : rep float :=
  match r, m with
  | PerLight h, PerLight hm =>
      PerLight (fun q l => zip_with (fun x (b : bool) => if b then v else x) (h q l) (hm q l))
  | PerPoint c, PerPoint cm =>
      PerPoint (fun q => zip_with (fun x (b : bool) => if b then v else x) (c q) (cm q))
  | _, _ => r
  end.

(** A mask has the shape of the tensor it indexes. *)
Definition same_kind {A B} (r : rep A) (m : rep B) : bool :=
  match r, m with
  | PerLight _, PerLight _ | PerPoint _, PerPoint _ => true
  | _, _ => false
  end.

(** The rows of a point have the widths of the docstrings: 3 for the
    directions and the albedos, 1 for the roughness and [eta]. *)
Definition well_shaped (q : point) : Prop :=
  length (p_view q) = 3%nat /\ length (p_normal q) = 3%nat
  /\ length (p_diffuse q) = 3%nat /\ length (p_albedo q) = 3%nat
  /\ length (p_roughness q) = 1%nat /\ length (p_eta q) = 1%nat.

(** Every row of the last axis has [k] entries. *)
Definition row_length {A} (k : nat) (t : list (list (list A))) : Prop :=
  Forall (Forall (fun row => length row = k)) t.

(** The width of a broadcast of two rows, and when torch accepts it. *)
Definition join (ka kb : nat) : nat := if (ka =? 1)%nat then kb else ka.
Definition compatible (ka kb : nat) : bool :=
  (ka =? kb)%nat || (ka =? 1)%nat || (kb =? 1)%nat.

(** The rows of [eta], or a placeholder per point when the dictionary has
    no such key. *)
Definition eta_rows (Ls : T3) (eta : option T2) : T2 :=
  match eta with
  | Some e => e
  | None => replicate (length Ls) [F32.zero]
  end.

(** The points of a batch, each with its lights. *)
Definition batch_points (Ls : T3) (Vs normals diffuse albedo roughness : T2)
    (eta : option T2) : list (T2 * point) :=
  imap (fun n lights =>
          (lights, Point (Vs !!! n) (normals !!! n) (diffuse !!! n) (albedo !!! n)
                         (roughness !!! n) (eta_rows Ls eta !!! n))) Ls.

(** The shapes of the docstring of [calculate_rhos]: [Ls] is N x L x 3,
    [Vs] and [normals] are N x 3, and the parameter tensors have a row per
    point, of the widths of [get_parameter_count]: 3 for the albedos and 1
    for roughness and [eta]. *)
Definition valid_batch (Ls : T3) (Vs normals diffuse albedo roughness : T2)
    (eta : option T2) : Prop :=
  Forall (Forall (fun light => length light = 3%nat)) Ls
  /\ length Vs = length Ls /\ length normals = length Ls /\ length diffuse = length Ls
  /\ length albedo = length Ls /\ length roughness = length Ls
  /\ Forall (fun row => length row = 3%nat) Vs
  /\ Forall (fun row => length row = 3%nat) normals
  /\ Forall (fun row => length row = 3%nat) diffuse
  /\ Forall (fun row => length row = 3%nat) albedo
  /\ Forall (fun row => length row = 1%nat) roughness
  /\ match eta with
     | Some e => length e = length Ls /\ Forall (fun row => length row = 1%nat) e
     | None => True
     end.

(** The dictionary [items] is a parameter dictionary of [CookTorrance]:
    in the world [w] its tensors hold these values, [eta] when it has the
    key. *)
Definition holds_parameters (w : world) (items : list (string * value))
    (diffuse albedo roughness : T2) (eta : option T2) : Prop :=
  exists sitems dt st rt,
    dict_get items "diffuse" = Some (VTensor dt)
    /\ dict_get items "specular" = Some (VDict sitems)
    /\ dict_get sitems "albedo" = Some (VTensor st)
    /\ dict_get sitems "roughness" = Some (VTensor rt)
    /\ heap w !!! storage dt = diffuse
    /\ heap w !!! storage st = albedo
    /\ heap w !!! storage rt = roughness
    /\ match dict_get sitems "eta", eta with
       | Some (VTensor et), Some e => heap w !!! storage et = e
       | None, None => True
       | _, _ => False
       end.

(** The specular term of [CookTorrance.calculate_rhos] as it is before the
    guard: [p_specular.view(-1,1,3) * (Fs * Ds * Gs) / (4 * np.pi * NdotLs *
    NdotVs)], from the directions and the parameter tensors. *)
Definition specular_before_guard (K : kernels) (Ls : T3) (Vs normals albedo roughness : T2)
    (eta : option T2) : T3 :=
  let '(Hs, NdotHs) := BrdfParametrization._calculate_NdotHs Ls Vs normals in
  let NdotLs := inner_product (view_m1_1_3 normals) Ls in
  let NdotVs := inner_product (view_m1_1_3 normals) (view_m1_1_3 Vs) in
  let VdotHs := inner_product (view_m1_1_3 Vs) Hs in
  let Fs := match eta with
            | Some p_eta => FTensor (Fresnel VdotHs p_eta)
            | None => FScalar (F32.double_of_Z 1)
            end in
  specular_term K Fs NdotHs NdotLs NdotVs albedo roughness.

(** The reflectance of a point without a specular part: each channel of
    its diffuse albedo over pi, plus 0. *)
Definition diffuse_only (albedo : T1) : T1 :=
  map (fun d => F32.add (F32.div d (F32.of_double F32.np_pi)) F32.zero) albedo.

(** The reflectance of a batch without a specular part: for every light
    of every point, the diffuse term of the point. *)
Definition diffuse_rhos (Ls : T3) (diffuse : T2) : T3 :=
  imap (fun n lights => map (fun _ => diffuse_only (diffuse !!! n)) lights) Ls.

(** Zero of either sign, a positive number of the format, or [+inf]. *)
Definition nonneg_value (x : float) : bool :=
  match x with
  | S754_zero _ | S754_infinity false => true
  | S754_finite false m e => bounded F32.prec F32.emax m e
  | _ => false
  end.

(** ** Example data *)

(** [2 ^ e] *)
Definition pow2_float (e : Z) : float := S754_finite false 8388608 (e - 23).

(** A backend known at the one point the examples need: the logarithm of
    0.0625 is -2.7725887, the binary32 nearest to [-4 ln 2]. *)
Definition table_log (x : float) : float :=
  if SFeqb x (pow2_float (-4)) then S754_finite true 11629080 (-22) else F32.nan.

Definition table_kernels : kernels :=
  Kernels table_log (fun _ => F32.nan) (fun _ _ => F32.nan).

(** One point seen at grazing angles: the light is 2^-75 and the camera
    2^-79 above the tangent plane of a surface facing up; diffuse albedo
    0.5, specular albedo 1, roughness 0.5, no [eta]. *)
Definition grazing_world : world :=
  World [ [[half; half; half]]; [[F32.one; F32.one; F32.one]]; [[half]] ] [] None.

Definition grazing_parameters : value :=
  VDict [("diffuse", VTensor (Tensor 0 true));
         ("specular", VDict [("albedo", VTensor (Tensor 1 true));
                             ("roughness", VTensor (Tensor 2 true))])].

Definition grazing_Ls : T3 := [[[F32.one; F32.zero; pow2_float (-75)]]].
Definition grazing_Vs : T2 := [[F32.zero; F32.one; pow2_float (-79)]].
Definition facing_up : T2 := [[F32.zero; F32.zero; F32.one]].

(** One point under two lights. *)
Definition two_lights : T3 :=
  [[[F32.zero; F32.zero; F32.one]; [F32.one; F32.zero; F32.zero]]].

(** A material of two points and two bases with one-hot weights. *)
Definition mix_parameters : value :=
  param_dict (Tensor 0 true) [("albedo", Tensor 1 true); ("roughness", Tensor 2 true)].

Definition mix_instance : instance :=
  Instance ClsCookTorranceF1 (Some mix_parameters) (Some (Tensor 3 true)).

Definition mix_world : world :=
  World [ [[half; half; half]; [F32.one; F32.one; F32.one]];
          [[F32.one; F32.one; F32.one]; [half; half; half]];
          [[half]; [F32.one]];
          one_hot_2 ]
        [mix_instance] None.

(** The same material with storage cell [l] overwritten in place. *)
Definition overwrite (l : nat) (d : T2) (w : world) : world :=
  World (<[l := d]> (heap w)) (objects w) (lru w).

(** [mix_world] after a first [get_brdf_parameters], then with the
    roughness bases exchanged in place. *)
Definition after_first_call : world :=
  snd (BaseSpecularMaterials.get_brdf_parameters 0 mix_world).
Definition after_mutation : world := overwrite 2 [[F32.one]; [half]] after_first_call.

(** Uniform weights at the first call, one-hot weights afterwards. *)
Definition uniform_world : world := overwrite 3 [[half; half]; [half; half]] mix_world.
Definition uniform_then_one_hot : world :=
  overwrite 3 one_hot_2 (snd (BaseSpecularMaterials.get_brdf_parameters 0 uniform_world)).

(** The second roughness basis is infinite. *)
Definition infinite_basis_world : world := overwrite 2 [[half]; [F32.pinf]] mix_world.

(** The first point's weights are all <= 0. *)
Definition degenerate_world : world := overwrite 3 [[SFopp half; F32.zero]; [half; half]] mix_world.

(** A light straight below the surface. *)
Definition light_below : T3 := [[[F32.zero; F32.zero; SFopp F32.one]]].

(** A backend known at 1 only, where its logarithm is 0. *)
Definition unit_log_kernels : kernels :=
  Kernels (fun x => if SFeqb x F32.one then F32.zero else F32.nan)
          (fun _ => F32.nan) (fun _ _ => F32.nan).

(** The grazing point with a roughness of 1, and with a diffuse albedo
    that holds a negative entry and a NaN. *)
Definition unit_roughness_world : world := overwrite 2 [[F32.one]] grazing_world.
Definition negative_albedo_world : world :=
  overwrite 0 [[SFopp half; half; F32.nan]] grazing_world.

(** Two materials over the same tensors, and a material before
    [initialize]. *)
Definition two_materials_world : world :=
  World (heap mix_world) [mix_instance; mix_instance] None.
Definition blank_world : world :=
  World [ [[half; half; half]] ] [Instance ClsCookTorrance None None] None.

(** Two points under the same two lights, seen from the same grazing
    direction. *)
Definition two_points_Ls : T3 := two_lights ++ two_lights.
Definition two_points_Vs : T2 := grazing_Vs ++ grazing_Vs.
Definition two_points_up : T2 := facing_up ++ facing_up.

(** Two points, each under a light straight below and a light on the
    horizon. *)
Definition horizon_lights : T3 :=
  [[[F32.zero; F32.zero; SFopp F32.one]; [F32.one; F32.zero; F32.zero]];
   [[F32.zero; F32.zero; SFopp F32.one]; [F32.one; F32.zero; F32.zero]]].

(** * Properties *)

(** ** Running the monad *)

Lemma bind_Ok {A B} (m : M A) (k : A -> M B) w a w' :
  m w = (Ok a, w') -> (m ≫= k) w = k a w'.
Proof. intros H. unfold mbind, M_bind, bind. by rewrite H. Qed.

Lemma bind_Raise {A B} (m : M A) (k : A -> M B) w e w' :
  m w = (Raise e, w') -> (m ≫= k) w = (Raise e, w').
Proof. intros H. unfold mbind, M_bind, bind. by rewrite H. Qed.

Lemma call_bound {A} (f : function A) (args : list value) :
  length args = length (parameters f) ->
  call f args = body f (zip (parameters f) args).
Proof. intros H. unfold call. by rewrite bool_decide_eq_true_2. Qed.

Ltac py_unfold :=
  unfold clamp_, div_, sum_keepdim, matmul_, clone, new_tensor, load, store, alloc,
    get_world, mbind, M_bind, bind, mret, M_ret, ret, raise; cbn.

(** ** Name, arity and attribute errors *)

(** The locals of a method [(self, parameters)] bind no [params], and
    neither do the module or the builtins. *)
Lemma params_is_not_bound (self parameters : value) :
  load_name [("self", self); ("parameters", parameters)] "params"
  = raise (NameError "params").
Proof.
  assert (Hglobal : bool_decide ("params" ∈ brdf_globals) = false)
    by (vm_compute; reflexivity).
  assert (Hbuiltin : bool_decide ("params" ∈ builtins) = false)
    by (vm_compute; reflexivity).
  unfold load_name. cbn [dict_get String.eqb Ascii.eqb Bool.eqb].
  by rewrite Hglobal, Hbuiltin.
Qed.

(** C1. [CookTorrance.enforce_parameter_bounds] reads the name [params],
    which is bound nowhere (the parameter is called [parameters]): whatever
    the parameter dictionary, the call stops at its first statement with a
    [NameError] and no tensor has been projected. *)
Theorem CookTorrance_enforce_parameter_bounds_NameError
    (self parameters : value) (w : world) :
  call CookTorrance.enforce_parameter_bounds [self; parameters] w
  = (Raise (NameError "params"), w).
Proof.
  rewrite call_bound by done.
  cbn [body Py.parameters CookTorrance.enforce_parameter_bounds zip zip_with].
  apply bind_Raise. by rewrite params_is_not_bound.
Qed.

(** X2.  [CookTorranceF1.enforce_parameter_bounds] forwards to
    [CookTorrance.enforce_parameter_bounds] through the class, with one
    positional argument for its two parameters: every call raises a
    [TypeError] before the body runs, and no tensor is projected. *)
Lemma CookTorranceF1_enforce_parameter_bounds_TypeError
    (self parameters : value) (w : world) :
  call CookTorranceF1.enforce_parameter_bounds [self; parameters] w
  = (Raise (TypeError "positional arguments"), w).
Proof.
  rewrite call_bound by done.
  cbn [body Py.parameters CookTorranceF1.enforce_parameter_bounds zip zip_with].
  erewrite bind_Ok; [|reflexivity].
  unfold call. by rewrite bool_decide_eq_false_2.
Qed.

(** The sibling [Diffuse.enforce_parameter_bounds] uses the parameter's own
    name and does project the diffuse albedo. *)
Lemma Diffuse_enforce_parameter_bounds_clamps
    (self : value) (items : list (string * value)) (t : tensor) (w : world) :
  dict_get items "diffuse" = Some (VTensor t) ->
  call Diffuse.enforce_parameter_bounds [self; VDict items] w
  = (Ok tt,
     World (<[storage t := map2d (F32.clamp (Some F32.zero) None) (heap w !!! storage t)]> (heap w))
           (objects w) (lru w)).
Proof.
  intros H. unfold call; cbn.
  unfold mbind, M_bind, bind; cbn. by rewrite H.
Qed.

(** C2. [CookTorranceF1.calculate_rhos] passes three positional arguments to
    [CookTorrance.calculate_rhos], a plain function of five parameters
    ([self] included): the call raises a [TypeError] before any reflectance
    is evaluated, for every input.  [get_parameter_count] does return the
    specular map without [eta]. *)
Theorem CookTorranceF1_calculate_rhos_TypeError
    (K : kernels) (self Ls Vs normals parameters : value) (w : world) :
  call (CookTorranceF1.calculate_rhos K) [self; Ls; Vs; normals; parameters] w
  = (Raise (TypeError "positional arguments"), w)
  /\ call CookTorranceF1.get_parameter_count [self] w
     = (Ok (3, [("albedo", 3); ("roughness", 1)]), w).
Proof.
  split.
  - rewrite call_bound by done.
    cbn [body Py.parameters CookTorranceF1.calculate_rhos zip zip_with].
    do 3 (erewrite bind_Ok; [|reflexivity]).
    unfold call. cbn [Py.parameters CookTorrance.calculate_rhos length].
    by rewrite bool_decide_eq_false_2.
  - by rewrite call_bound.
Qed.

(** C3. [BaseSpecularMaterials.enforce_parameter_bounds] clamps and
    renormalizes the mixture weights and then looks up
    [enforce_brdf_parameter_bounds] on the reflectance model, an attribute
    none of the three classes nor their bases has: the call raises an
    [AttributeError], and no storage other than the weights' has been
    touched, so the basis parameter dictionary is not projected. *)
Theorem BaseSpecularMaterials_enforce_parameter_bounds_AttributeError
    (K : kernels) (w : world) (self : nat) (o : instance) (wt : tensor) :
  objects w !! self = Some o ->
  base_weights o = Some wt ->
  exists w',
    BaseSpecularMaterials.enforce_parameter_bounds K self w
    = (Raise (AttributeError "enforce_brdf_parameter_bounds"), w')
    /\ objects w' = objects w
    /\ lru w' = lru w
    /\ forall l, l <> storage wt -> (l < length (heap w))%nat ->
                 heap w' !! l = heap w !! l.
Proof.
  intros Ho Hw.
  unfold BaseSpecularMaterials.enforce_parameter_bounds,
    BaseSpecularMaterials.self_base_weights,
    BaseSpecularMaterials.self_brdf_parametrization,
    BaseSpecularMaterials.get_object.
  py_unfold. repeat (first [rewrite Ho | rewrite Hw]; cbn).
  eexists. split.
  - destruct (brdf_parametrization o); reflexivity.
  - cbn. repeat split.
    intros l Hl Hlt.
    rewrite list_lookup_insert_ne by done.
    rewrite lookup_app_l by (by rewrite length_insert).
    by rewrite list_lookup_insert_ne.
Qed.

(** ** Clamping and renormalizing the mixture weights *)

Lemma clamp01_nonpositive x : F32.leb x F32.zero = true -> F32.is_zero (clamp01 x) = true.
Proof. destruct x as [[]|[]| |[] m e]; cbn; done. Qed.

Lemma clamp01_not_positive x :
  F32.ltb F32.zero (clamp01 x) = false ->
  F32.is_zero (clamp01 x) || F32.is_nan (clamp01 x) = true.
Proof.
  destruct x as [[]|[]| |[] m e]; try done.
  unfold clamp01, F32.clamp.
  change (F32.is_nan (S754_finite false m e)) with false.
  change (F32.ltb (S754_finite false m e) F32.zero) with false.
  cbv iota zeta.
  destruct (F32.ltb F32.one (S754_finite false m e)); done.
Qed.

Lemma sum_zero_or_nan_from acc v :
  F32.is_zero acc || F32.is_nan acc = true ->
  Forall (fun x => F32.is_zero x || F32.is_nan x = true) v ->
  F32.is_zero (foldl F32.add acc v) || F32.is_nan (foldl F32.add acc v) = true.
Proof.
  intros Hacc Hv. revert acc Hacc.
  induction Hv as [|x v Hx _ IH]; intros acc Hacc; cbn; [done|].
  apply IH. destruct acc as [[]|[]| |[] ? ?], x as [[]|[]| |[] ? ?]; done.
Qed.

Lemma sum_zero_or_nan v :
  Forall (fun x => F32.is_zero x || F32.is_nan x = true) v ->
  F32.is_zero (F32.sum v) || F32.is_nan (F32.sum v) = true.
Proof. by apply sum_zero_or_nan_from. Qed.

Lemma div_zero_or_nan x s :
  F32.is_zero x || F32.is_nan x = true ->
  F32.is_zero s || F32.is_nan s = true ->
  F32.div x s = F32.nan.
Proof. destruct x as [[]|[]| |[] ? ?], s as [[]|[]| |[] ? ?]; done. Qed.

Lemma bzip_singleton_r {A B C} (f : A -> B -> C) (xs : list A) (y : B) :
  bzip f xs [y] = map (fun x => f x y) xs.
Proof. by destruct xs as [|x [|x' xs]]. Qed.

Lemma bzip_same_length {A B C} (f : A -> B -> C) (xs : list A) (ys : list B) :
  length xs = length ys -> bzip f xs ys = zip_with f xs ys.
Proof.
  destruct xs as [|x [|x' xs]], ys as [|y [|y' ys]]; try done.
Qed.

Lemma zip_with_map_same {A B C D} (f : B -> C -> D) (g : A -> B) (h : A -> C) (l : list A) :
  zip_with f (map g l) (map h l) = map (fun x => f (g x) (h x)) l.
Proof. induction l; cbn; congruence. Qed.

Lemma div_by_row_sums (d : T2) : bop2 F32.div d (sum_keepdim2 d) = renormalize d.
Proof.
  unfold bop2, sum_keepdim2, renormalize.
  rewrite bzip_same_length by (by rewrite length_map).
  rewrite <- (map_id d) at 1. rewrite zip_with_map_same.
  apply map_ext. intros row. apply bzip_singleton_r.
Qed.

(** The weights as [enforce_parameter_bounds] leaves them. *)
Lemma BaseSpecularMaterials_enforce_parameter_bounds_weights
    (K : kernels) (w w' : world) (self : nat) (o : instance) (wt : tensor) r :
  objects w !! self = Some o ->
  base_weights o = Some wt ->
  (storage wt < length (heap w))%nat ->
  BaseSpecularMaterials.enforce_parameter_bounds K self w = (r, w') ->
  heap w' !!! storage wt = renormalize (map2d clamp01 (heap w !!! storage wt)).
Proof.
  intros Ho Hw Hlt.
  unfold BaseSpecularMaterials.enforce_parameter_bounds,
    BaseSpecularMaterials.self_base_weights,
    BaseSpecularMaterials.self_brdf_parametrization,
    BaseSpecularMaterials.self_brdf_parameters,
    BaseSpecularMaterials.get_object.
  py_unfold. repeat (first [rewrite Ho | rewrite Hw]; cbn).
  set (d := map2d _ _).
  assert (Hi : <[storage wt:=d]> (heap w) !!! storage wt = d).
  { apply list_lookup_total_correct. by apply list_lookup_insert_eq. }
  rewrite Hi.
  assert (Hd : (<[storage wt:=d]> (heap w) ++ [sum_keepdim2 d]) !!! storage wt = d).
  { apply list_lookup_total_correct.
    rewrite lookup_app_l by (by rewrite length_insert).
    by apply list_lookup_insert_eq. }
  assert (Hs : (<[storage wt:=d]> (heap w) ++ [sum_keepdim2 d])
               !!! length (<[storage wt:=d]> (heap w)) = sum_keepdim2 d).
  { apply list_lookup_total_correct.
    rewrite lookup_app_r by done. by rewrite Nat.sub_diag. }
  rewrite Hd, Hs, div_by_row_sums.
  intros Hrun.
  assert (Hheap : heap w' = <[storage wt := renormalize d]>
                              (<[storage wt:=d]> (heap w) ++ [sum_keepdim2 d])).
  { destruct (brdf_parametrization o); cbn in Hrun; by inversion Hrun. }
  rewrite Hheap. apply list_lookup_total_correct.
  apply list_lookup_insert_eq. rewrite length_app, length_insert. lia.
Qed.

Lemma renormalize_degenerate_row (c : T1) :
  Forall (fun x => F32.is_zero x || F32.is_nan x = true) c ->
  map (fun x => F32.div x (F32.sum c)) c = replicate (length c) F32.nan.
Proof.
  intros Hc. pose proof (sum_zero_or_nan c Hc) as Hs.
  generalize dependent (F32.sum c). intros s Hs.
  induction Hc as [|x c Hx _ IH]; cbn; [done|].
  f_equal; [by apply div_zero_or_nan | done].
Qed.

Lemma sum_of_nans_is_not_one n :
  F32.eqb (F32.sum (replicate n F32.nan)) F32.one = false.
Proof.
  assert (H : F32.is_zero (F32.sum (replicate n F32.nan))
              || F32.is_nan (F32.sum (replicate n F32.nan)) = true).
  { apply sum_zero_or_nan, Forall_replicate. done. }
  by destruct (F32.sum _) as [[]|[]| |[] ? ?].
Qed.

(** C10. The renormalization in [BaseSpecularMaterials.enforce_parameter_bounds]
    divides each weight row by its sum with no guard on the sum.  For a
    point whose row is entirely <= 0 before the call the clamped row is all
    zeros and every entry the call leaves for that point is NaN; and a row
    can sum to 1 after the call only if clamping left it a strictly
    positive entry. *)
Theorem BaseSpecularMaterials_zero_rows_become_NaN
    (K : kernels) (w w' : world) (self : nat) (o : instance) (wt : tensor) r
    (i : nat) (row : T1) :
  objects w !! self = Some o ->
  base_weights o = Some wt ->
  (storage wt < length (heap w))%nat ->
  BaseSpecularMaterials.enforce_parameter_bounds K self w = (r, w') ->
  (heap w !!! storage wt) !! i = Some row ->
  exists row',
    (heap w' !!! storage wt) !! i = Some row'
    /\ (Forall (fun x => F32.leb x F32.zero = true) row ->
        Forall (fun x => F32.is_zero x = true) (map clamp01 row)
        /\ row' = replicate (length row) F32.nan)
    /\ (F32.eqb (F32.sum row') F32.one = true ->
        Exists (fun x => F32.ltb F32.zero x = true) (map clamp01 row)).
Proof.
  intros Ho Hw Hlt Hrun Hrow.
  rewrite (BaseSpecularMaterials_enforce_parameter_bounds_weights
             K w w' self o wt r Ho Hw Hlt Hrun).
  set (c := map clamp01 row).
  exists (map (fun x => F32.div x (F32.sum c)) c). split; [|split].
  - unfold renormalize, map2d. rewrite !list_lookup_fmap, Hrow. done.
  - intros Hneg.
    assert (Hz : Forall (fun x => F32.is_zero x = true) c).
    { subst c. apply Forall_fmap. eapply Forall_impl; [exact Hneg|].
      intros x Hx. by apply clamp01_nonpositive. }
    split; [done|].
    rewrite renormalize_degenerate_row.
    + subst c. by rewrite length_map.
    + eapply Forall_impl; [exact Hz|]. intros x ->. done.
  - intros Hone.
    destruct (decide (Exists (fun x => F32.ltb F32.zero x = true) c)) as [|Hno]; [done|].
    exfalso. apply not_Exists_Forall in Hno; [|apply _].
    assert (Hc : Forall (fun x => F32.is_zero x || F32.is_nan x = true) c).
    { subst c. rewrite Forall_fmap in Hno |- *.
      eapply Forall_impl; [exact Hno|]. cbn. intros x Hx.
      apply clamp01_not_positive. by destruct (F32.ltb _ _). }
    rewrite renormalize_degenerate_row, sum_of_nans_is_not_one in Hone; done.
Qed.

(** ** Element-wise reading of the broadcasting operations *)

Lemma map3d_map3d {A B C} (f : B -> C) (g : A -> B) (t : list (list (list A))) :
  map3d f (map3d g t) = map3d (fun x => f (g x)) t.
Proof.
  unfold map3d. rewrite map_map. apply map_ext; intros m.
  rewrite map_map. apply map_ext; intros r. by rewrite map_map.
Qed.

Lemma bzip_map_same {A B C D} (f : B -> C -> D) (g : A -> B) (h : A -> C) (l : list A) :
  bzip f (map g l) (map h l) = map (fun x => f (g x) (h x)) l.
Proof.
  destruct l as [|x [|y l]]; try done.
  unfold bzip. cbn [map]. cbn [zip_with]. by rewrite zip_with_map_same.
Qed.

Lemma per_point_map3d {A B C} (f : B -> float -> C) (g : A -> B) t alphas :
  per_point f (map3d g t) alphas = per_point (fun c alpha => f (g c) alpha) t alphas.
Proof.
  unfold per_point, map3d, map2d.
  revert alphas; induction t as [|m t IH]; intros [|a alphas]; cbn; try done.
  f_equal; [|done]. rewrite map_map. apply map_ext; intros r. by rewrite map_map.
Qed.

Lemma map3d_per_point {A B C} (h : B -> C) (f : A -> float -> B) t alphas :
  map3d h (per_point f t alphas) = per_point (fun c alpha => h (f c alpha)) t alphas.
Proof.
  unfold per_point, map3d, map2d.
  revert alphas; induction t as [|m t IH]; intros [|a alphas]; cbn; try done.
  f_equal; [|done]. rewrite map_map. apply map_ext; intros r. by rewrite map_map.
Qed.

Lemma map3d_as_per_point {A B} (g : A -> B) (t : list (list (list A))) alphas :
  length t = length alphas -> map3d g t = per_point (fun c _ => g c) t alphas.
Proof.
  unfold per_point, map3d, map2d.
  revert alphas; induction t as [|m t IH]; intros [|a alphas]; cbn; try done.
  intros [= Hlen]. f_equal. by apply IH.
Qed.

Lemma bop3_per_point {A B C D} (F : B -> C -> D)
    (f : A -> float -> B) (g : A -> float -> C) t alphas :
  bop3 F (per_point f t alphas) (per_point g t alphas)
  = per_point (fun c alpha => F (f c alpha) (g c alpha)) t alphas.
Proof.
  unfold bop3. rewrite bzip_same_length by (unfold per_point; by rewrite !length_zip_with).
  unfold per_point, map2d.
  revert alphas; induction t as [|m t IH]; intros [|a alphas]; cbn; try done.
  f_equal; [|done]. rewrite bzip_map_same. apply map_ext; intros r.
  apply bzip_map_same.
Qed.

Lemma bop3_view_m1_1_1 {A B} (F : A -> float -> B) (t : list (list (list A))) (R : T2) :
  length t = length (concat R) ->
  bop3 F t (view_m1_1_1 R) = per_point F t (concat R).
Proof.
  unfold bop3, view_m1_1_1. generalize (concat R) as alphas. intros alphas Hlen.
  rewrite bzip_same_length by (by rewrite length_map).
  unfold per_point, map2d.
  revert alphas Hlen; induction t as [|m t IH]; intros [|a alphas]; cbn; try done.
  intros [= Hlen]. f_equal; [|by apply IH].
  rewrite bzip_singleton_r. apply map_ext; intros r. apply bzip_singleton_r.
Qed.

Lemma mask_set_per_point {A} (f : A -> float -> float) (m : A -> float -> bool) t alphas v :
  mask_set (per_point f t alphas) (per_point m t alphas) v
  = per_point (fun c alpha => if m c alpha then v else f c alpha) t alphas.
Proof.
  unfold mask_set, per_point, map2d.
  revert alphas; induction t as [|rows t IH]; intros [|a alphas]; cbn; try done.
  f_equal; [|done]. rewrite zip_with_map_same. apply map_ext; intros r.
  apply zip_with_map_same.
Qed.

(** ** Smith's shadowing function *)

Lemma SmithG1_per_point (NdotWs : T3) (p_roughness : T2) :
  length NdotWs = length (concat p_roughness) ->
  SmithG1 NdotWs p_roughness
  = (per_point SmithG1_entry NdotWs (concat p_roughness), map3d clamp01 NdotWs).
Proof.
  intros Hlen. unfold SmithG1. f_equal.
  unfold sqrt3, rsub, pow2, smul, sadd. fold clamp01.
  set (alphas := concat p_roughness) in *.
  rewrite !map3d_map3d.
  rewrite (map3d_as_per_point _ NdotWs alphas Hlen).
  rewrite (map3d_as_per_point (fun x => F32.sqrt _) NdotWs alphas Hlen).
  rewrite bop3_per_point.
  rewrite bop3_view_m1_1_1 by (unfold per_point; rewrite length_zip_with; fold alphas; lia).
  fold alphas.
  assert (Hpp : forall (f : float -> float -> float) (g : float -> float -> float),
            per_point (fun c alpha => f c alpha)
              (per_point (fun c alpha => g c alpha) NdotWs alphas) alphas
            = per_point (fun c alpha => f (g c alpha) alpha) NdotWs alphas).
  { intros f g. unfold per_point, map2d.
    clear Hlen. generalize alphas. clear alphas.
    induction NdotWs as [|m t IH]; intros [|a alphas]; cbn; try done.
    f_equal; [|done]. rewrite map_map. apply map_ext; intros r. by rewrite map_map. }
  rewrite Hpp.
  rewrite !map3d_per_point. rewrite !bop3_per_point.
  rewrite (map3d_as_per_point (fun x => F32.eqb _ _) NdotWs alphas Hlen).
  rewrite !mask_set_per_point.
  unfold per_point. apply zip_with_ext; [|done|done].
  intros rows alpha. unfold map2d. apply map_ext; intros row. apply map_ext; intros c.
  unfold SmithG1_entry, G1_rational. cbv zeta.
  destruct (F32.geb _ _); [done|]. by destruct (F32.eqb _ _).
Qed.

Lemma SmithG1_entry_negative_cosine (c alpha : float) :
  F32.ltb c F32.zero = true ->
  F32.is_zero alpha = false ->
  F32.is_nan alpha = false ->
  SmithG1_entry c alpha = F32.zero.
Proof.
  intros Hc Hz Hn.
  destruct c as [[]|[]| |[] m e]; try done;
    destruct alpha as [[]|[]| |[] m' e']; try done; vm_compute; reflexivity.
Qed.

(** C9 (as amended).  [SmithG1] clamps the cosines into [0, 1] in place and
    returns, entry by entry, 1 where [sin(theta) = 0] or [x >= 1.6] and the
    rational approximation in [x = cot(theta) / alpha] elsewhere; for a
    cosine that was negative the clamped cosine and the cot term are 0, and
    the returned value is 0 when the roughness entry is neither 0 nor
    NaN. *)
Theorem SmithG1_entrywise (NdotWs : T3) (p_roughness : T2) :
  length NdotWs = length (concat p_roughness) ->
  SmithG1 NdotWs p_roughness
  = (per_point SmithG1_entry NdotWs (concat p_roughness), map3d clamp01 NdotWs)
  /\ (forall c alpha,
        F32.ltb c F32.zero = true ->
        clamp01 c = F32.zero
        /\ F32.div (clamp01 c) (F32.sqrt (F32.sub F32.one (sq (clamp01 c)))) = F32.zero
        /\ (F32.is_zero alpha = false -> F32.is_nan alpha = false ->
            SmithG1_entry c alpha = F32.zero)).
Proof.
  intros Hlen. split; [by apply SmithG1_per_point|].
  intros c alpha Hc. split; [|split].
  - by destruct c as [[]|[]| |[] m e].
  - by destruct c as [[]|[]| |[] m e].
  - by apply SmithG1_entry_negative_cosine.
Qed.

Lemma SmithG1_entrywise_witness :
  SmithG1 [[[half]]] [[half]]
  = (per_point SmithG1_entry [[[half]]] (concat [[half]]), map3d clamp01 [[[half]]])
  /\ (forall c alpha,
        F32.ltb c F32.zero = true ->
        clamp01 c = F32.zero
        /\ F32.div (clamp01 c) (F32.sqrt (F32.sub F32.one (sq (clamp01 c)))) = F32.zero
        /\ (F32.is_zero alpha = false -> F32.is_nan alpha = false ->
            SmithG1_entry c alpha = F32.zero)).
Proof. apply (SmithG1_entrywise [[[half]]] [[half]]). reflexivity. Defined.

(** With a roughness entry of 0 a negative cosine gives [x = 0 / 0]: the
    returned value is NaN, not 0. *)
Lemma SmithG1_negative_cosine_zero_roughness :
  F32.ltb (SFopp half) F32.zero = true
  /\ fst (SmithG1 [[[SFopp half]]] [[F32.zero]]) = [[[F32.nan]]].
Proof. split; vm_compute; reflexivity. Qed.

(** ** The Lambertian model *)

Lemma chunk3_concat (t : T2) :
  Forall (fun row => length row = 3%nat) t -> chunk3 (concat t) = t.
Proof.
  induction 1 as [|row t Hrow _ IH]; [done|].
  destruct row as [|a [|b [|c [|d row]]]]; try done. cbn. by rewrite IH.
Qed.

(** C8 (as amended).  [Diffuse.calculate_rhos] returns, for an N×3 diffuse
    tensor, an N×1×3 tensor: one row per point, the albedo divided by pi,
    with a light axis of size 1 whatever the number of lights, the same
    for all light and view directions; and NdotHs, the inner product of
    the normal with the normalized half-vector. *)
Theorem Diffuse_calculate_rhos_lambertian
    (self : value) (Ls : T3) (Vs normals : T2)
    (items : list (string * value)) (dt : tensor) (w : world) :
  dict_get items "diffuse" = Some (VTensor dt) ->
  Forall (fun row => length row = 3%nat) (heap w !!! storage dt) ->
  call Diffuse.calculate_rhos [self; VArr3 Ls; VArr2 Vs; VArr2 normals; VDict items] w
  = (Ok (map (fun albedo => [map (fun x => F32.div x (F32.of_double F32.np_pi)) albedo])
             (heap w !!! storage dt),
         inner_product (view_m1_1_3 normals) (normalize (Ls + view_m1_1_3 Vs)%T)),
     w).
Proof.
  intros Hd Hshape. rewrite call_bound by done. cbn.
  unfold tensor_item, getitem. py_unfold. rewrite Hd; cbn.
  do 2 f_equal. f_equal.
  unfold divs, view_m1_1_3, map3d. rewrite (chunk3_concat _ Hshape).
  rewrite map_map. done.
Qed.

(** ** Exact products *)

Lemma mul_one_finite s m e :
  bounded F32.prec F32.emax m e = true ->
  F32.mul F32.one (S754_finite s m e) = S754_finite s m e.
Proof.
  intros Hb. unfold bounded, canonical_mantissa in Hb.
  apply andb_prop in Hb as [Hc He].
  apply Z.eqb_eq in Hc.
  unfold F32.mul, F32.one, SFmul. cbn [xorb].
  change (Pos.mul 8388608 m) with (Pos.iter xO m 23).
  unfold binary_round_aux.
  unfold shr_fexp at 1.
  assert (Hd : Zdigits2 (Z.pos (Pos.iter xO m 23)) = Z.pos (digits2_pos m) + 23).
  { cbn. lia. }
  rewrite Hd.
  replace (Z.pos (digits2_pos m) + 23 + (-23 + e)) with (Z.pos (digits2_pos m) + e) by lia.
  rewrite Hc.
  replace (e - (-23 + e)) with 23 by lia.
  cbn [shr shr_record_of_loc].
  change (SpecFloat.iter_pos shr_1 23
            {| shr_m := Z.pos (Pos.iter xO m 23); shr_r := false; shr_s := false |})
    with {| shr_m := Z.pos m; shr_r := false; shr_s := false |}.
  cbn [shr_m loc_of_shr_record round_nearest_even].
  replace (-23 + e + 23) with e by lia.
  unfold shr_fexp. cbn [Zdigits2]. rewrite Hc.
  rewrite Z.sub_diag. cbn [shr shr_record_of_loc shr_m].
  by rewrite He.
Qed.

Lemma mul_one_l x : F32.valid x = true -> F32.mul F32.one x = x.
Proof.
  destruct x as [[]|[]| |s m e]; try done. apply mul_one_finite.
Qed.

Lemma dot_one_hot_0 x y :
  F32.valid x = true -> F32.is_finite y = true ->
  same_value (dot [F32.one; F32.zero] [x; y]) x.
Proof.
  intros Hx Hy. unfold dot, F32.sum. cbn [zip_with foldl].
  rewrite (mul_one_l x Hx).
  destruct x as [[]|[]| |[] m e], y as [[]|[]| |[] m' e']; try done;
    first [by left | by right].
Qed.

Lemma dot_one_hot_1 x y :
  F32.is_finite x = true -> F32.valid y = true ->
  same_value (dot [F32.zero; F32.one] [x; y]) y.
Proof.
  intros Hx Hy. unfold dot, F32.sum. cbn [zip_with foldl].
  rewrite (mul_one_l y Hy).
  destruct x as [[]|[]| |[] m e], y as [[]|[]| |[] m' e']; try done;
    first [by left | by right].
Qed.

(** With the weight rows [1, 0] and [0, 1], the mixture of two bases whose
    entries are finite binary32 values gives each point the values of its
    own basis. *)
Lemma matmul_one_hot (b0 b1 : T1) :
  length b0 = length b1 ->
  Forall (fun x => F32.valid x = true /\ F32.is_finite x = true) b0 ->
  Forall (fun x => F32.valid x = true /\ F32.is_finite x = true) b1 ->
  exists r0 r1,
    matmul one_hot_2 [b0; b1] = [r0; r1]
    /\ Forall2 same_value r0 b0
    /\ Forall2 same_value r1 b1.
Proof.
  intros Hlen H0 H1. eexists _, _. split; [reflexivity|].
  cbn [width].
  assert (Hgen : forall (k : nat),
            Forall2 same_value
              (map (fun j => dot [F32.one; F32.zero] (column [drop k b0; drop k b1] j))
                   (seq 0 (length (drop k b0)))) (drop k b0)
            /\ Forall2 same_value
              (map (fun j => dot [F32.zero; F32.one] (column [drop k b0; drop k b1] j))
                   (seq 0 (length (drop k b0)))) (drop k b1)).
  { clear -Hlen H0 H1. revert b1 Hlen H1.
    induction H0 as [|x b0 [Hxv Hxf] _ IH]; intros [|y b1] Hlen H1 k; try done.
    - rewrite !drop_nil. by split.
    - apply Forall_cons in H1 as [[Hyv Hyf] H1].
      destruct k as [|k].
      + rewrite !drop_0. cbn [length seq map].
        specialize (IH b1 ltac:(by injection Hlen) H1 0%nat). rewrite !drop_0 in IH.
        destruct IH as [IH0 IH1].
        rewrite <- seq_shift, !map_map.
        split; (constructor; [first [by apply dot_one_hot_0 | by apply dot_one_hot_1]|]); done.
      + cbn [drop]. apply IH; [by injection Hlen | done]. }
  specialize (Hgen 0%nat). by rewrite !drop_0 in Hgen.
Qed.

(** ** The basis-mixture parametrization *)

Section Materials.

Variables (h : list T2) (objs : list instance) (self : nat) (o : instance).
Hypothesis Hself : objs !! self = Some o.

Lemma self_base_weights_run (wt : tensor) heap' l :
  base_weights o = Some wt ->
  BaseSpecularMaterials.self_base_weights self (World heap' objs l)
  = (Ok wt, World heap' objs l).
Proof.
  intros Hw. unfold BaseSpecularMaterials.self_base_weights,
    BaseSpecularMaterials.get_object.
  py_unfold. rewrite Hself; cbn. by rewrite Hw.
Qed.

Lemma self_brdf_parameters_run (p : value) heap' l :
  brdf_parameters o = Some p ->
  BaseSpecularMaterials.self_brdf_parameters self (World heap' objs l)
  = (Ok p, World heap' objs l).
Proof.
  intros Hp. unfold BaseSpecularMaterials.self_brdf_parameters,
    BaseSpecularMaterials.get_object.
  py_unfold. rewrite Hself; cbn. by rewrite Hp.
Qed.

Lemma lookup_total_extended (ext : list T2) (i : nat) :
  (i < length h)%nat -> (h ++ ext) !!! i = h !!! i.
Proof. intros Hi. by apply lookup_total_app_l. Qed.

Lemma mix_bases_run (wt t : tensor) (name : string) (ext : list T2) l :
  base_weights o = Some wt ->
  (storage wt < length h)%nat ->
  (storage t < length h)%nat ->
  BaseSpecularMaterials.mix_bases self (name, VTensor t) (World (h ++ ext) objs l)
  = (Ok (name, VTensor (Tensor (length h + length ext) (requires_grad wt || requires_grad t))),
     World (h ++ (ext ++ [matmul (h !!! storage wt) (h !!! storage t)])) objs l).
Proof.
  intros Hw Hwt Ht. unfold BaseSpecularMaterials.mix_bases.
  rewrite (bind_Ok _ _ _ _ _ (self_base_weights_run wt _ _ Hw)).
  py_unfold. rewrite !lookup_total_extended by done.
  by rewrite length_app, app_assoc.
Qed.

Lemma mapM_mix_bases (wt : tensor) (specs : list (string * tensor)) (ext : list T2) l :
  base_weights o = Some wt ->
  (storage wt < length h)%nat ->
  Forall (fun nt => (storage nt.2 < length h)%nat) specs ->
  mapM (BaseSpecularMaterials.mix_bases self) (spec_items specs) (World (h ++ ext) objs l)
  = (Ok (mixed_items (length h + length ext) (requires_grad wt) specs),
     World (h ++ (ext ++ map (fun nt => matmul (h !!! storage wt) (h !!! storage nt.2)) specs))
           objs l).
Proof.
  intros Hw Hwt Hspecs. revert ext.
  induction Hspecs as [|[name t] specs Ht _ IH]; intros ext.
  - cbn. by rewrite app_nil_r.
  - cbn [spec_items map mapM fst snd].
    rewrite (bind_Ok _ _ _ _ _ (mix_bases_run wt t name ext l Hw Hwt Ht)).
    fold (spec_items specs).
    rewrite (bind_Ok _ _ _ _ _ (IH _)).
    cbn [mixed_items]. rewrite length_app. cbn [length].
    replace (length h + (length ext + 1))%nat with (S (length h + length ext)) by lia.
    by rewrite <- app_assoc.
Qed.

(** The undecorated [get_brdf_parameters]: the diffuse entry is the owned
    tensor itself, each specular entry a new tensor holding
    [base_weights @ basis]. *)
Lemma get_brdf_parameters_uncached_run
    (d wt : tensor) (specs : list (string * tensor)) l :
  brdf_parameters o = Some (param_dict d specs) ->
  base_weights o = Some wt ->
  (storage wt < length h)%nat ->
  Forall (fun nt => (storage nt.2 < length h)%nat) specs ->
  BaseSpecularMaterials.get_brdf_parameters_uncached self (World h objs l)
  = (Ok (VDict [("diffuse", VTensor d);
                ("specular", VDict (mixed_items (length h) (requires_grad wt) specs))]),
     World (h ++ map (fun nt => matmul (h !!! storage wt) (h !!! storage nt.2)) specs)
           objs l).
Proof.
  intros Hp Hw Hwt Hspecs. unfold BaseSpecularMaterials.get_brdf_parameters_uncached.
  rewrite (bind_Ok _ _ _ _ _ (self_brdf_parameters_run _ _ _ Hp)).
  unfold param_dict at 1. cbn [getitem dict_get String.eqb Ascii.eqb Bool.eqb].
  rewrite (bind_Ok _ _ (World h objs l) (VTensor d) (World h objs l)) by done.
  rewrite (bind_Ok _ _ _ _ _ (self_brdf_parameters_run _ _ _ Hp)).
  unfold param_dict at 1. cbn [getitem dict_get String.eqb Ascii.eqb Bool.eqb].
  rewrite (bind_Ok _ _ (World h objs l) (VDict (spec_items specs)) (World h objs l)) by done.
  cbn [BaseSpecularMaterials.dict_items].
  rewrite (bind_Ok _ _ (World h objs l) (spec_items specs) (World h objs l)) by done.
  pose proof (mapM_mix_bases wt specs [] l Hw Hwt Hspecs) as Hmix.
  rewrite app_nil_r in Hmix. cbn [length app] in Hmix. rewrite Nat.add_0_r in Hmix.
  by rewrite (bind_Ok _ _ _ _ _ Hmix).
Qed.

End Materials.

Lemma lru_cache_1_miss (f : nat -> M value) (self : nat) (w w' : world) (v : value) :
  (forall c, lru w <> Some (self, c)) ->
  f self w = (Ok v, w') ->
  BaseSpecularMaterials.lru_cache_1 f self w
  = (Ok v, World (heap w') (objects w') (Some (self, v))).
Proof.
  intros Hmiss Hf. unfold BaseSpecularMaterials.lru_cache_1.
  rewrite (bind_Ok _ _ w w w) by done.
  destruct (lru w) as [[key cached]|] eqn:Hl.
  - rewrite bool_decide_eq_false_2 by (intros ->; by eapply Hmiss).
    by rewrite (bind_Ok _ _ _ _ _ Hf).
  - by rewrite (bind_Ok _ _ _ _ _ Hf).
Qed.

Lemma lru_cache_1_hit (f : nat -> M value) (self : nat) (w : world) (v : value) :
  lru w = Some (self, v) ->
  BaseSpecularMaterials.lru_cache_1 f self w = (Ok v, w).
Proof.
  intros Hl. unfold BaseSpecularMaterials.lru_cache_1.
  rewrite (bind_Ok _ _ w w w) by done.
  rewrite Hl. by rewrite bool_decide_eq_true_2.
Qed.

Lemma mixed_items_lookup base g specs (i : nat) nt :
  specs !! i = Some nt ->
  mixed_items base g specs !! i
  = Some (nt.1, VTensor (Tensor (base + i) (g || requires_grad nt.2))).
Proof.
  revert base i. induction specs as [|[name t] specs IH]; intros base [|i] H; try done.
  - injection H as <-. cbn. by rewrite Nat.add_0_r.
  - cbn in H |- *. rewrite (IH _ _ H). by replace (S base + i)%nat with (base + S i)%nat by lia.
Qed.

(** C6 (as amended).  On a call that the cache does not answer,
    [get_brdf_parameters] returns a dictionary whose diffuse entry is the
    owned diffuse tensor and whose specular entry maps each field name to a
    new tensor holding [mixture_weights @ basis_tensor[name]]; with the
    weight rows [1, 0] and [0, 1] and two bases of finite values, point 0
    gets the values of basis 0 and point 1 those of basis 1 (a zero keeps
    its value, not always its sign). *)
Theorem get_brdf_parameters_mixes_bases
    (w : world) (self : nat) (o : instance) (d wt : tensor)
    (specs : list (string * tensor)) :
  objects w !! self = Some o ->
  brdf_parameters o = Some (param_dict d specs) ->
  base_weights o = Some wt ->
  (storage wt < length (heap w))%nat ->
  Forall (fun nt => (storage nt.2 < length (heap w))%nat) specs ->
  (forall c, lru w <> Some (self, c)) ->
  exists w',
    BaseSpecularMaterials.get_brdf_parameters self w
    = (Ok (VDict [("diffuse", VTensor d);
                  ("specular", VDict (mixed_items (length (heap w)) (requires_grad wt) specs))]),
       w')
    /\ (forall (i : nat) nt, specs !! i = Some nt ->
          heap w' !!! (length (heap w) + i)%nat
          = matmul (heap w !!! storage wt) (heap w !!! storage nt.2))
    /\ (forall (i : nat) nt b0 b1, specs !! i = Some nt ->
          heap w !!! storage wt = one_hot_2 ->
          heap w !!! storage nt.2 = [b0; b1] ->
          length b0 = length b1 ->
          Forall (fun x => F32.valid x = true /\ F32.is_finite x = true) b0 ->
          Forall (fun x => F32.valid x = true /\ F32.is_finite x = true) b1 ->
          exists r0 r1,
            heap w' !!! (length (heap w) + i)%nat = [r0; r1]
            /\ Forall2 same_value r0 b0 /\ Forall2 same_value r1 b1).
Proof.
  intros Ho Hp Hw Hwt Hspecs Hmiss. destruct w as [h objs l]. cbn in *.
  pose proof (get_brdf_parameters_uncached_run h objs self o Ho d wt specs l Hp Hw Hwt Hspecs)
    as Hrun.
  eexists. split; [|split].
  - unfold BaseSpecularMaterials.get_brdf_parameters.
    by rewrite (lru_cache_1_miss _ self (World h objs l) _ _ Hmiss Hrun).
  - intros i nt Hi. cbn.
    apply list_lookup_total_correct.
    rewrite lookup_app_r by lia.
    replace (length h + i - length h)%nat with i by lia.
    by rewrite list_lookup_fmap, Hi.
  - intros i nt b0 b1 Hi Hone Hb Hlen H0 H1. cbn.
    destruct (matmul_one_hot b0 b1 Hlen H0 H1) as (r0 & r1 & Hm & Hr0 & Hr1).
    exists r0, r1. split; [|done].
    apply list_lookup_total_correct.
    rewrite lookup_app_r by lia.
    replace (length h + i - length h)%nat with i by lia.
    rewrite list_lookup_fmap, Hi. cbn. by rewrite Hone, Hb, Hm.
Qed.

(** C5 (as amended).  Nothing invalidates the cache of
    [get_brdf_parameters]: after a call on an instance, every later call
    on it returns the same dictionary and computes nothing, however the
    storage of the weights and of the bases has been overwritten since, as
    long as the cache slot still holds that instance; its specular entries
    are the tensors made by the first call, which hold the products of the
    values at that time. *)
Theorem get_brdf_parameters_keeps_first_result
    (w : world) (self : nat) (o : instance) (d wt : tensor)
    (specs : list (string * tensor)) :
  objects w !! self = Some o ->
  brdf_parameters o = Some (param_dict d specs) ->
  base_weights o = Some wt ->
  (storage wt < length (heap w))%nat ->
  Forall (fun nt => (storage nt.2 < length (heap w))%nat) specs ->
  (forall c, lru w <> Some (self, c)) ->
  exists w1,
    BaseSpecularMaterials.get_brdf_parameters self w
    = (Ok (VDict [("diffuse", VTensor d);
                  ("specular", VDict (mixed_items (length (heap w)) (requires_grad wt) specs))]),
       w1)
    /\ forall w2,
         lru w2 = lru w1 ->
         (forall i : nat, (length (heap w) <= i)%nat -> heap w2 !! i = heap w1 !! i) ->
         BaseSpecularMaterials.get_brdf_parameters self w2
         = (Ok (VDict [("diffuse", VTensor d);
                       ("specular",
                        VDict (mixed_items (length (heap w)) (requires_grad wt) specs))]),
            w2)
         /\ forall (i : nat) nt, specs !! i = Some nt ->
              mixed_items (length (heap w)) (requires_grad wt) specs !! i
              = Some (nt.1, VTensor (Tensor (length (heap w) + i)
                                            (requires_grad wt || requires_grad nt.2)))
              /\ heap w2 !!! (length (heap w) + i)%nat
                 = matmul (heap w !!! storage wt) (heap w !!! storage nt.2).
Proof.
  intros Ho Hp Hw Hwt Hspecs Hmiss. destruct w as [h objs l]. cbn in *.
  pose proof (get_brdf_parameters_uncached_run h objs self o Ho d wt specs l Hp Hw Hwt Hspecs)
    as Hrun.
  eexists. split.
  { unfold BaseSpecularMaterials.get_brdf_parameters.
    by rewrite (lru_cache_1_miss _ self (World h objs l) _ _ Hmiss Hrun). }
  cbn. intros w2 Hl Hheap. split.
  { unfold BaseSpecularMaterials.get_brdf_parameters. by apply lru_cache_1_hit. }
  intros i nt Hi. split; [by apply mixed_items_lookup|].
  apply list_lookup_total_correct.
  rewrite Hheap by lia. rewrite lookup_app_r by lia.
  replace (length h + i - length h)%nat with i by lia.
  by rewrite list_lookup_fmap, Hi.
Qed.

(** ** Checkpoints *)

Lemma detach_and_clone_dict (items : list (string * value)) :
  detach_and_clone_dict_recursive (VDict items)
  = (clone_items items ≫= fun new_dictionary => mret (VDict new_dictionary)).
Proof. reflexivity. Qed.

Lemma attach_dict (items : list (string * value)) :
  attach_dict_recursive (VDict items)
  = (attach_items items ≫= fun new_dictionary => mret (VDict new_dictionary)).
Proof. reflexivity. Qed.

Lemma cloned_specs_lookup base specs (i : nat) nt :
  specs !! i = Some nt ->
  cloned_specs base specs !! i = Some (nt.1, Tensor (base + i) false).
Proof.
  revert base i. induction specs as [|[name t] specs IH]; intros base [|i] H; try done.
  - injection H as <-. cbn. by rewrite Nat.add_0_r.
  - cbn in H |- *. rewrite (IH _ _ H). by replace (S base + i)%nat with (base + S i)%nat by lia.
Qed.

Section Checkpoint.

Variables (h : list T2) (objs : list instance) (l : option (nat * value)).

Lemma clone_detach_run (t : tensor) (ext : list T2) :
  (storage t < length h)%nat ->
  clone (detach t) (World (h ++ ext) objs l)
  = (Ok (Tensor (length h + length ext) false),
     World (h ++ (ext ++ [h !!! storage t])) objs l).
Proof.
  intros Ht. py_unfold. rewrite lookup_total_app_l by done.
  by rewrite length_app, app_assoc.
Qed.

Lemma clone_items_run (specs : list (string * tensor)) (ext : list T2) :
  Forall (fun nt => (storage nt.2 < length h)%nat) specs ->
  clone_items (spec_items specs) (World (h ++ ext) objs l)
  = (Ok (spec_items (cloned_specs (length h + length ext) specs)),
     World (h ++ (ext ++ map (fun nt => h !!! storage nt.2) specs)) objs l).
Proof.
  intros Hspecs. revert ext.
  induction Hspecs as [|[name t] specs Ht _ IH]; intros ext.
  - cbn. by rewrite app_nil_r.
  - cbn [spec_items map clone_items fst snd].
    rewrite (bind_Ok _ _ _ _ _ (bind_Ok _ _ _ _ _ (clone_detach_run t ext Ht))).
    fold (spec_items specs). fold clone_items.
    rewrite (bind_Ok _ _ _ _ _ (IH _)).
    cbn [cloned_specs spec_items map fst snd]. rewrite length_app. cbn [length].
    replace (length h + (length ext + 1))%nat with (S (length h + length ext)) by lia.
    by rewrite <- app_assoc.
Qed.

Lemma detach_and_clone_param_dict (d : tensor) (specs : list (string * tensor)) (ext : list T2) :
  (storage d < length h)%nat ->
  Forall (fun nt => (storage nt.2 < length h)%nat) specs ->
  detach_and_clone_dict_recursive (param_dict d specs) (World (h ++ ext) objs l)
  = (Ok (param_dict (Tensor (length h + length ext) false)
                    (cloned_specs (S (length h + length ext)) specs)),
     World (h ++ (ext ++ h !!! storage d :: map (fun nt => h !!! storage nt.2) specs)) objs l).
Proof.
  intros Hd Hspecs. unfold param_dict at 1.
  rewrite detach_and_clone_dict. cbn [clone_items].
  pose proof (clone_items_run specs (ext ++ [h !!! storage d]) Hspecs) as Hc.
  rewrite length_app in Hc. cbn [length] in Hc.
  replace (length h + (length ext + 1))%nat with (S (length h + length ext)) in Hc by lia.
  erewrite bind_Ok; [reflexivity|].
  erewrite bind_Ok; [|by rewrite (bind_Ok _ _ _ _ _ (clone_detach_run d ext Hd))].
  erewrite bind_Ok; [reflexivity|].
  erewrite bind_Ok; [reflexivity|].
  rewrite detach_and_clone_dict. erewrite bind_Ok; [|exact Hc].
  unfold param_dict. cbn. by rewrite <- app_assoc.
Qed.

Lemma attach_items_run (specs : list (string * tensor)) (w : world) :
  attach_items (spec_items specs) w = (Ok (spec_items (attached_specs specs)), w).
Proof.
  induction specs as [|[name t] specs IH]; [done|].
  cbn [spec_items map attach_items fst snd].
  fold (spec_items specs). fold attach_items.
  rewrite (bind_Ok _ _ w (VTensor (nn_Parameter t)) w) by done.
  by rewrite (bind_Ok _ _ _ _ _ IH).
Qed.

Lemma attach_param_dict (d : tensor) (specs : list (string * tensor)) (w : world) :
  attach_dict_recursive (param_dict d specs) w
  = (Ok (param_dict (nn_Parameter d) (attached_specs specs)), w).
Proof.
  unfold param_dict at 1. rewrite attach_dict. cbn [attach_items].
  erewrite bind_Ok; [reflexivity|].
  erewrite bind_Ok; [|reflexivity].
  erewrite bind_Ok; [reflexivity|].
  erewrite bind_Ok; [reflexivity|].
  rewrite attach_dict. erewrite bind_Ok; [|apply attach_items_run].
  reflexivity.
Qed.

End Checkpoint.

Lemma set_base_weights_run (heap' : list T2) objs l (self : nat) (o : instance) (t : tensor) :
  objs !! self = Some o ->
  BaseSpecularMaterials.set_base_weights self t (World heap' objs l)
  = (Ok tt,
     World heap' (<[self := Instance (brdf_parametrization o) (brdf_parameters o) (Some t)]> objs) l).
Proof.
  intros Ho. unfold BaseSpecularMaterials.set_base_weights,
    BaseSpecularMaterials.set_object, BaseSpecularMaterials.get_object.
  py_unfold. by rewrite Ho.
Qed.

Lemma set_brdf_parameters_run (heap' : list T2) objs l (self : nat) (o : instance) (p : value) :
  objs !! self = Some o ->
  BaseSpecularMaterials.set_brdf_parameters self p (World heap' objs l)
  = (Ok tt,
     World heap' (<[self := Instance (brdf_parametrization o) (Some p) (base_weights o)]> objs) l).
Proof.
  intros Ho. unfold BaseSpecularMaterials.set_brdf_parameters,
    BaseSpecularMaterials.set_object, BaseSpecularMaterials.get_object.
  py_unfold. by rewrite Ho.
Qed.

(** C7.  [deserialize] called on the two values [serialize] returns, on an
    initialized instance: the checkpoint is a detached copy in new storage
    cells, which no in-place change of a tensor live at that time reaches;
    after [deserialize] the weights and every tensor of the nested basis
    dictionary are parameters again and hold, bit for bit, the values they
    held when [serialize] ran. *)
Theorem deserialize_serialize_round_trip
    (w : world) (self : nat) (o : instance) (d wt : tensor)
    (specs : list (string * tensor)) :
  objects w !! self = Some o ->
  brdf_parameters o = Some (param_dict d specs) ->
  base_weights o = Some wt ->
  (storage wt < length (heap w))%nat ->
  (storage d < length (heap w))%nat ->
  Forall (fun nt => (storage nt.2 < length (heap w))%nat) specs ->
  exists w1 w2,
    BaseSpecularMaterials.serialize self w
    = (Ok (Tensor (length (heap w)) false,
           param_dict (Tensor (S (length (heap w))) false)
                      (cloned_specs (S (S (length (heap w)))) specs)),
       w1)
    /\ BaseSpecularMaterials.deserialize self
         [VTensor (Tensor (length (heap w)) false);
          param_dict (Tensor (S (length (heap w))) false)
                     (cloned_specs (S (S (length (heap w)))) specs)] w1
       = (Ok tt, w2)
    /\ objects w2 !! self
       = Some (Instance (brdf_parametrization o)
                 (Some (param_dict (Tensor (S (length (heap w))) true)
                          (attached_specs (cloned_specs (S (S (length (heap w)))) specs))))
                 (Some (Tensor (length (heap w)) true)))
    /\ heap w2 !!! length (heap w) = heap w !!! storage wt
    /\ heap w2 !!! S (length (heap w)) = heap w !!! storage d
    /\ (forall (i : nat) nt, specs !! i = Some nt ->
          attached_specs (cloned_specs (S (S (length (heap w)))) specs) !! i
          = Some (nt.1, Tensor (S (S (length (heap w))) + i) true)
          /\ heap w2 !!! (S (S (length (heap w))) + i)%nat = heap w !!! storage nt.2)
    /\ (forall i : nat, (i < length (heap w))%nat ->
          heap w1 !! i = heap w !! i /\ heap w2 !! i = heap w !! i)
    /\ (forall (l : nat) (data : T2) (i : nat),
          (l < length (heap w))%nat -> (length (heap w) <= i)%nat ->
          heap (overwrite l data w1) !! i = heap w1 !! i).
Proof.
  intros Ho Hp Hw Hwt Hd Hspecs. destruct w as [h objs l]. cbn [heap objects lru] in *.
  set (copies := h !!! storage wt :: h !!! storage d
                   :: map (fun nt => h !!! storage nt.2) specs).
  assert (Hser : BaseSpecularMaterials.serialize self (World h objs l)
                 = (Ok (Tensor (length h) false,
                        param_dict (Tensor (S (length h)) false)
                                   (cloned_specs (S (S (length h))) specs)),
                    World (h ++ copies) objs l)).
  { unfold BaseSpecularMaterials.serialize.
    rewrite (bind_Ok _ _ _ _ _ (self_base_weights_run _ _ _ Ho wt _ _ Hw)).
    pose proof (clone_detach_run h objs l wt [] Hwt) as Hc.
    rewrite app_nil_r in Hc. cbn [length app] in Hc. rewrite Nat.add_0_r in Hc.
    rewrite (bind_Ok _ _ _ _ _ Hc).
    rewrite (bind_Ok _ _ _ _ _ (self_brdf_parameters_run _ _ _ Ho _ _ _ Hp)).
    pose proof (detach_and_clone_param_dict h objs l d specs [h !!! storage wt] Hd Hspecs) as Hdc.
    cbn [length app] in Hdc. rewrite Nat.add_1_r in Hdc.
    by rewrite (bind_Ok _ _ _ _ _ Hdc). }
  set (o1 := Instance (brdf_parametrization o) (brdf_parameters o)
               (Some (nn_Parameter (Tensor (length h) false)))).
  assert (Hself : (self < length objs)%nat) by (by eapply lookup_lt_Some).
  assert (Hdes : BaseSpecularMaterials.deserialize self
                   [VTensor (Tensor (length h) false);
                    param_dict (Tensor (S (length h)) false)
                               (cloned_specs (S (S (length h))) specs)]
                   (World (h ++ copies) objs l)
                 = (Ok tt,
                    World (h ++ copies)
                      (<[self := Instance (brdf_parametrization o)
                                   (Some (param_dict (Tensor (S (length h)) true)
                                            (attached_specs
                                               (cloned_specs (S (S (length h))) specs))))
                                   (Some (Tensor (length h) true))]> objs) l)).
  { unfold BaseSpecularMaterials.deserialize. cbn [lookup list_lookup].
    erewrite bind_Ok; [|reflexivity].
    erewrite bind_Ok; [|reflexivity].
    erewrite bind_Ok; [|by apply set_base_weights_run].
    erewrite bind_Ok; [|reflexivity].
    erewrite bind_Ok; [|apply attach_param_dict].
    erewrite set_brdf_parameters_run; [|by apply list_lookup_insert_eq].
    by rewrite list_insert_insert_eq. }
  exists (World (h ++ copies) objs l). eexists. split; [exact Hser|].
  split; [exact Hdes|]. cbn [heap objects].
  split; [by apply list_lookup_insert_eq|].
  split; [apply list_lookup_total_correct; rewrite lookup_app_r by lia;
          by rewrite Nat.sub_diag|].
  split; [apply list_lookup_total_correct; rewrite lookup_app_r by lia;
          by replace (S (length h) - length h)%nat with 1%nat by lia|].
  split.
  - intros i nt Hi. split.
    + unfold attached_specs. rewrite list_lookup_fmap.
      by rewrite (cloned_specs_lookup _ _ _ _ Hi).
    + apply list_lookup_total_correct. rewrite lookup_app_r by lia.
      replace (S (S (length h)) + i - length h)%nat with (S (S i)) by lia.
      subst copies.
      change (map (fun nt : string * tensor => h !!! storage nt.2) specs !! i
              = Some (h !!! storage nt.2)).
      by rewrite list_lookup_fmap, Hi.
  - split; [intros i Hi; by rewrite lookup_app_l|].
    intros l0 data i Hl Hi. cbn. apply list_lookup_insert_ne. lia.
Qed.

(** ** Initialization *)

(** What the statements above ask of an instance is what [initialize]
    sets up, for each of the three reflectance models: the dictionary has
    the diffuse tensor (on the storage of the estimate it was given) and
    one parameter tensor per specular field, the weights are a parameter
    tensor of uniform rows, and all of them have storage. *)
Lemma initialize_establishes_shape
    (K : kernels) (w : world) (self : nat) (o : instance)
    (nr_points : nat) (diffuse_materials : tensor) (nr_bases : nat) :
  objects w !! self = Some o ->
  (storage diffuse_materials < length (heap w))%nat ->
  exists specs wt w',
    BaseSpecularMaterials.initialize K self nr_points diffuse_materials nr_bases w
    = (Ok tt, w')
    /\ objects w' !! self
       = Some (Instance (brdf_parametrization o)
                 (Some (param_dict (Tensor (storage diffuse_materials) true) specs))
                 (Some wt))
    /\ requires_grad wt = true
    /\ (storage wt < length (heap w'))%nat
    /\ Forall (fun nt => (storage nt.2 < length (heap w'))%nat
                         /\ requires_grad nt.2 = true) specs
    /\ (storage diffuse_materials < length (heap w'))%nat
    /\ heap w' !!! storage wt
       = map2d (fun x => F32.div x (F32.of_Z (Z.of_nat nr_bases))) (ones nr_points nr_bases)
    /\ lru w' = lru w.
Proof.
  intros Ho Hd. destruct w as [h objs l]. cbn [heap objects lru] in *.
  assert (Hself : (self < length objs)%nat) by (by eapply lookup_lt_Some).
  unfold BaseSpecularMaterials.initialize.
  erewrite bind_Ok;
    [|unfold BaseSpecularMaterials.self_brdf_parametrization;
      erewrite bind_Ok; [reflexivity|];
      unfold BaseSpecularMaterials.get_object; cbn; by rewrite Ho].
  destruct (brdf_parametrization o) eqn:Hbp.
  - erewrite bind_Ok; [|reflexivity]. erewrite bind_Ok; [|reflexivity].
    cbn [mapM]. erewrite bind_Ok; [|reflexivity].
    erewrite bind_Ok; [|by apply set_brdf_parameters_run].
    erewrite bind_Ok; [|reflexivity].
    erewrite set_base_weights_run; [|by apply list_lookup_insert_eq].
    exists [], (Tensor (length h) true). eexists. split; [reflexivity|].
    cbn [heap objects lru brdf_parametrization brdf_parameters base_weights].
    rewrite list_insert_insert_eq, Hbp.
    split; [by apply list_lookup_insert_eq|]. split; [done|].
    rewrite length_app. cbn. split; [lia|]. split; [done|]. split; [lia|].
    split; [|done]. apply list_lookup_total_correct. rewrite lookup_app_r by lia.
    by rewrite Nat.sub_diag.
  - erewrite bind_Ok; [|reflexivity]. erewrite bind_Ok; [|reflexivity].
    cbn [mapM]. erewrite bind_Ok; [|reflexivity].
    erewrite bind_Ok; [|by apply set_brdf_parameters_run].
    erewrite bind_Ok; [|reflexivity].
    erewrite set_base_weights_run; [|by apply list_lookup_insert_eq].
    exists [("albedo", Tensor (length h) true);
            ("roughness", Tensor (length (h ++ [ones nr_bases 3])) true);
            ("eta", Tensor (length ((h ++ [ones nr_bases 3]) ++ [ones nr_bases 1])) true)].
    eexists. eexists. split; [reflexivity|].
    cbn [heap objects lru brdf_parametrization brdf_parameters base_weights].
    rewrite list_insert_insert_eq, Hbp.
    split; [by apply list_lookup_insert_eq|]. split; [done|].
    cbn [storage requires_grad nn_Parameter]. rewrite !length_app. cbn [length].
    split; [lia|]. split; [repeat constructor; cbn; rewrite ?length_app; cbn; lia|].
    split; [lia|]. split; [|done].
    apply list_lookup_total_correct. rewrite lookup_app_r by (rewrite !length_app; cbn; lia).
    rewrite !length_app. cbn [length].
    by replace (length h + 1 + 1 + 1 - (length h + 1 + 1 + 1))%nat with 0%nat by lia.
  - erewrite bind_Ok; [|reflexivity]. erewrite bind_Ok; [|reflexivity].
    cbn [mapM]. erewrite bind_Ok; [|reflexivity].
    erewrite bind_Ok; [|by apply set_brdf_parameters_run].
    erewrite bind_Ok; [|reflexivity].
    erewrite set_base_weights_run; [|by apply list_lookup_insert_eq].
    exists [("albedo", Tensor (length h) true);
            ("roughness", Tensor (length (h ++ [ones nr_bases 3])) true)].
    eexists. eexists. split; [reflexivity|].
    cbn [heap objects lru brdf_parametrization brdf_parameters base_weights].
    rewrite list_insert_insert_eq, Hbp.
    split; [by apply list_lookup_insert_eq|]. split; [done|].
    cbn [storage requires_grad nn_Parameter]. rewrite !length_app. cbn [length].
    split; [lia|]. split; [repeat constructor; cbn; rewrite ?length_app; cbn; lia|].
    split; [lia|]. split; [|done].
    apply list_lookup_total_correct. rewrite lookup_app_r by (rewrite !length_app; cbn; lia).
    rewrite !length_app. cbn [length].
    by replace (length h + 1 + 1 - (length h + 1 + 1))%nat with 0%nat by lia.
Qed.

(** ** The guard on the specular term *)

Lemma neb_self (x : float) : F32.neb x x = F32.is_nan x.
Proof.
  destruct x as [[]|[]| |[] m e]; try done; unfold F32.neb, SFeqb, SFcompare;
    rewrite Z.compare_refl;
    change (PosDef.Pos.compare_cont Eq m m) with (Pos.compare m m);
    by rewrite Pos.compare_refl.
Qed.

Lemma zip_with_map_r {A B C} (f : A -> B -> C) (g : A -> B) (l : list A) :
  zip_with f l (map g l) = map (fun x => f x (g x)) l.
Proof. induction l; cbn; congruence. Qed.

Lemma mask_set_self (t : T3) (m : float -> bool) (v : float) :
  mask_set t (map3d m t) v = map3d (fun x => if m x then v else x) t.
Proof.
  unfold mask_set, map3d. rewrite zip_with_map_r. apply map_ext; intros rows.
  rewrite zip_with_map_r. apply map_ext; intros row. apply zip_with_map_r.
Qed.

Lemma guard_bad_denominators_nan_to_zero (CTs : T3) :
  guard_bad_denominators CTs = map3d nan_to_zero CTs.
Proof.
  unfold guard_bad_denominators. rewrite mask_set_self.
  unfold map3d. apply map_ext; intros rows. apply map_ext; intros row.
  apply map_ext; intros x. unfold nan_to_zero. by rewrite neb_self.
Qed.

Lemma nan_to_zero_not_nan (x : float) : F32.is_nan (nan_to_zero x) = false.
Proof. by destruct x. Qed.

Lemma in_entries_map3d (f : float -> float) (t : T3) (z : float) :
  In z (entries (map3d f t)) -> exists x, In x (entries t) /\ z = f x.
Proof.
  unfold entries, map3d. intros Hz.
  apply in_concat in Hz as (row & Hrow & Hz).
  apply in_concat in Hrow as (rows & Hrows & Hrow).
  apply in_map_iff in Hrows as (rows0 & <- & Hrows0).
  apply in_map_iff in Hrow as (row0 & <- & Hrow0).
  apply in_map_iff in Hz as (x & <- & Hx).
  exists x. split; [|done].
  apply in_concat. exists row0. split; [|done].
  apply in_concat. by exists rows0.
Qed.

Lemma in_zip_with {A B C} (f : A -> B -> C) (xs : list A) (ys : list B) (z : C) :
  In z (zip_with f xs ys) -> exists x y, In x xs /\ In y ys /\ z = f x y.
Proof.
  revert ys. induction xs as [|x xs IH]; intros [|y ys]; cbn; try done.
  intros [<-|Hz].
  - exists x, y. auto.
  - destruct (IH _ Hz) as (x' & y' & ? & ? & ?). exists x', y'. auto.
Qed.

Lemma in_bzip {A B C} (f : A -> B -> C) (xs : list A) (ys : list B) (z : C) :
  In z (bzip f xs ys) -> exists x y, In x xs /\ In y ys /\ z = f x y.
Proof.
  unfold bzip. intros Hz.
  assert (Hl : forall x, In z (map (f x) ys) -> In x xs ->
                 exists x y, In x xs /\ In y ys /\ z = f x y).
  { intros x H Hx. apply in_map_iff in H as (y & <- & Hy). exists x, y. auto. }
  assert (Hr : forall y, In z (map (fun x => f x y) xs) -> In y ys ->
                 exists x y, In x xs /\ In y ys /\ z = f x y).
  { intros y H Hy. apply in_map_iff in H as (x & <- & Hx). exists x, y. auto. }
  destruct xs as [|x [|x' xs]].
  - destruct ys as [|y [|y' ys]]; cbn in Hz; try done.
  - apply (Hl x); cbn; auto.
  - destruct ys as [|y [|y' ys]].
    + by cbn in Hz.
    + apply (Hr y); cbn; auto.
    + by apply in_zip_with.
Qed.

Lemma in_entries_bop3 (f : float -> float -> float) (a b : T3) (z : float) :
  In z (entries (bop3 f a b)) ->
  exists x y, In x (entries a) /\ In y (entries b) /\ z = f x y.
Proof.
  unfold entries, bop3. intros Hz.
  apply in_concat in Hz as (row & Hrow & Hz).
  apply in_concat in Hrow as (rows & Hrows & Hrow).
  apply in_bzip in Hrows as (ra & rb & Hra & Hrb & ->).
  apply in_bzip in Hrow as (wa & wb & Hwa & Hwb & ->).
  apply in_bzip in Hz as (x & y & Hx & Hy & ->).
  exists x, y. split; [|split; [|done]].
  - apply in_concat. exists wa. split; [|done]. apply in_concat. by exists ra.
  - apply in_concat. exists wb. split; [|done]. apply in_concat. by exists rb.
Qed.

(** *** Rounding never makes a NaN *)

Lemma shr_1_nonneg mrs : 0 <= shr_m mrs -> 0 <= shr_m (shr_1 mrs).
Proof. destruct mrs as [[|[p|p|]|p] r s]; cbn; lia. Qed.

Lemma iter_pos_invariant {A} (P : A -> Prop) (f : A -> A) :
  (forall x, P x -> P (f x)) -> forall n x, P x -> P (SpecFloat.iter_pos f n x).
Proof.
  intros Hf. induction n as [n IH|n IH|]; intros x Hx; cbn; auto.
Qed.

Lemma shr_nonneg mrs e n : 0 <= shr_m mrs -> 0 <= shr_m (fst (shr mrs e n)).
Proof.
  intros H. destruct n as [|p|p]; cbn; try done.
  by apply (iter_pos_invariant (fun m => 0 <= shr_m m) shr_1 shr_1_nonneg).
Qed.

Lemma shr_fexp_nonneg prec emax m e lx :
  0 <= m -> 0 <= shr_m (fst (shr_fexp prec emax m e lx)).
Proof.
  intros H. unfold shr_fexp. apply shr_nonneg.
  by destruct lx as [|[]].
Qed.

Lemma round_nearest_even_nonneg m lx : 0 <= m -> 0 <= round_nearest_even m lx.
Proof.
  intros H. destruct lx as [|[]]; cbn; try lia. destruct (Z.even m); lia.
Qed.

Lemma binary_round_aux_not_nan prec emax s m e lx :
  0 <= m -> binary_round_aux prec emax s m e lx <> S754_nan.
Proof.
  intros H. unfold binary_round_aux.
  pose proof (shr_fexp_nonneg prec emax m e lx H) as H1.
  destruct (shr_fexp prec emax m e lx) as [mrs' e']. cbn [fst] in H1.
  pose proof (shr_fexp_nonneg prec emax _ e' loc_Exact
                (round_nearest_even_nonneg _ (loc_of_shr_record mrs') H1)) as H2.
  destruct (shr_fexp prec emax _ e' loc_Exact) as [mrs'' e'']. cbn [fst] in H2.
  destruct (shr_m mrs'') as [|p|p]; [done| |lia].
  by destruct (e'' <=? emax - prec).
Qed.

Lemma binary_normalize_not_nan prec emax m e sz :
  binary_normalize prec emax m e sz <> S754_nan.
Proof.
  destruct m as [|p|p]; cbn; try done; unfold binary_round;
    destruct (shl_align _ _ _) as [mz ez]; by apply binary_round_aux_not_nan.
Qed.

Lemma add_finite_not_nan (d g : float) :
  F32.is_finite d = true -> F32.is_nan g = false -> F32.is_nan (F32.add d g) = false.
Proof.
  intros Hd Hg.
  destruct d as [[]|[]| |sd md ed], g as [[]|[]| |sg mg eg]; try done.
  unfold F32.add, SFadd.
  match goal with |- F32.is_nan ?x = false =>
    pose proof (binary_normalize_not_nan F32.prec F32.emax
                  (cond_Zopp sd (Z.pos (fst (shl_align md ed (Z.min ed eg))))
                   + cond_Zopp sg (Z.pos (fst (shl_align mg eg (Z.min ed eg)))))
                  (Z.min ed eg) false) as Hn
  end.
  by destruct (binary_normalize _ _ _ _ _).
Qed.

(** ** The factory of reflectance models *)

(** brdf.py imports [inner_product], [normalize] and [Parametrization]
    only: the name [error] its factory uses is bound nowhere. *)
Lemma BrdfParametrizationFactory_error_is_not_bound :
  load_name [("name", VOther); ("valid_dict", VOther)] "error" = raise (NameError "error").
Proof.
  assert (Hglobal : bool_decide ("error" ∈ brdf_globals) = false)
    by (vm_compute; reflexivity).
  assert (Hbuiltin : bool_decide ("error" ∈ builtins) = false)
    by (vm_compute; reflexivity).
  unfold load_name. cbn [dict_get String.eqb Ascii.eqb Bool.eqb].
  by rewrite Hglobal, Hbuiltin.
Qed.

(** X1.  [BrdfParametrizationFactory] returns the class for each of the
    three identifiers ["diffuse"], ["cook torrance"] and
    ["cook torrance F1"], compared exactly; for every other identifier the
    branch that should report it stops with a [NameError] on [error], and
    nothing is returned. *)
Theorem BrdfParametrizationFactory_unknown_name_NameError (name : string) (w : world) :
  name <> "diffuse" -> name <> "cook torrance" -> name <> "cook torrance F1" ->
  BrdfParametrizationFactory name w = (Raise (NameError "error"), w)
  /\ BrdfParametrizationFactory "diffuse" w = (Ok (Some ClsDiffuse), w)
  /\ BrdfParametrizationFactory "cook torrance" w = (Ok (Some ClsCookTorrance), w)
  /\ BrdfParametrizationFactory "cook torrance F1" w = (Ok (Some ClsCookTorranceF1), w).
Proof.
  intros H1 H2 H3. split; [|done].
  unfold BrdfParametrizationFactory. cbn [assoc].
  rewrite !(proj2 (String.eqb_neq _ _)) by done.
  apply bind_Raise. by rewrite BrdfParametrizationFactory_error_is_not_bound.
Qed.

(** ** The bounds of the Lambertian model *)

Lemma clamp_min0_idempotent x :
  F32.clamp (Some F32.zero) None (F32.clamp (Some F32.zero) None x)
  = F32.clamp (Some F32.zero) None x.
Proof. by destruct x as [[]|[]| |[] m e]. Qed.

Lemma clamp_min0_nonneg x :
  F32.is_nan (F32.clamp (Some F32.zero) None x)
  || F32.leb F32.zero (F32.clamp (Some F32.zero) None x) = true.
Proof. by destruct x as [[]|[]| |[] m e]. Qed.

(** X3.  [Diffuse.enforce_parameter_bounds] clamps the diffuse tensor at 0
    in place: afterwards every entry is NaN (a NaN is kept) or not below
    0, no other storage cell, object or cache entry has changed, and a
    second call changes nothing. *)
Theorem Diffuse_enforce_parameter_bounds_projects
    (self : value) (items : list (string * value)) (t : tensor) (w : world) :
  dict_get items "diffuse" = Some (VTensor t) ->
  (storage t < length (heap w))%nat ->
  exists w',
    call Diffuse.enforce_parameter_bounds [self; VDict items] w = (Ok tt, w')
    /\ heap w' !!! storage t
       = map2d (F32.clamp (Some F32.zero) None) (heap w !!! storage t)
    /\ Forall (Forall (fun x => F32.is_nan x || F32.leb F32.zero x = true))
         (heap w' !!! storage t)
    /\ (forall l, l <> storage t -> heap w' !! l = heap w !! l)
    /\ objects w' = objects w
    /\ lru w' = lru w
    /\ call Diffuse.enforce_parameter_bounds [self; VDict items] w' = (Ok tt, w').
Proof.
  intros Hd Hlt.
  pose proof (Diffuse_enforce_parameter_bounds_clamps self items t w Hd) as Hrun.
  eexists. split; [exact Hrun|]. cbn [heap objects lru].
  set (d := map2d _ _).
  assert (Hi : <[storage t := d]> (heap w) !!! storage t = d).
  { apply list_lookup_total_correct. by apply list_lookup_insert_eq. }
  split; [exact Hi|]. split.
  { rewrite Hi. subst d. unfold map2d.
    apply Forall_fmap, Forall_true. intros row.
    apply Forall_fmap, Forall_true. intros x. apply clamp_min0_nonneg. }
  split; [intros l Hl; by apply list_lookup_insert_ne|].
  split; [done|]. split; [done|].
  rewrite (Diffuse_enforce_parameter_bounds_clamps self items t _ Hd).
  cbn [heap objects lru]. rewrite Hi. f_equal. f_equal.
  rewrite list_insert_insert_eq. f_equal.
  subst d. unfold map2d. rewrite <- list_fmap_compose. apply list_fmap_ext.
  intros _ row _. cbn. rewrite <- list_fmap_compose. apply list_fmap_ext.
  intros _ x _. apply clamp_min0_idempotent.
Qed.

(** ** The microfacet distributions *)

Lemma sq_opp x : sq (SFopp x) = sq x.
Proof. destruct x as [[]|[]| |[] m e]; reflexivity. Qed.

Lemma cosNH2_of_opp (NdotHs : T3) : cosNH2_of (map3d SFopp NdotHs) = cosNH2_of NdotHs.
Proof.
  unfold cosNH2_of, pow2. f_equal. rewrite map3d_map3d.
  unfold map3d. apply map_ext; intros rows. apply map_ext; intros row.
  apply map_ext; intros x. apply sq_opp.
Qed.

(** X4.  [GTR] and [Beckmann] read [NdotHs] through its square only, which
    they clamp on a temporary: the distribution of a half-vector below the
    surface is that of its mirror image, for every roughness, exponent and
    backend. *)
Theorem microfacet_distributions_even_in_NdotH
    (K : kernels) (NdotHs : T3) (p_roughness : T2) (gamma : F32.double) :
  GTR K (map3d SFopp NdotHs) p_roughness gamma = GTR K NdotHs p_roughness gamma
  /\ Beckmann K (map3d SFopp NdotHs) p_roughness = Beckmann K NdotHs p_roughness.
Proof.
  split.
  - unfold GTR. by rewrite cosNH2_of_opp.
  - unfold Beckmann. by rewrite cosNH2_of_opp.
Qed.

(** ** Entries of element-wise results *)

Lemma Forall_entries_map3d (P Q : float -> Prop) (f : float -> float) (t : T3) :
  (forall x, P x -> Q (f x)) -> Forall P (entries t) -> Forall Q (entries (map3d f t)).
Proof.
  intros Hf Ht. apply Forall_forall. intros z Hz. apply list_elem_of_In in Hz.
  apply in_entries_map3d in Hz as (x & Hx & ->). apply Hf.
  rewrite Forall_forall in Ht. apply Ht. by apply list_elem_of_In.
Qed.

Lemma Forall_entries_bop3 (P Q R : float -> Prop) (f : float -> float -> float) (a b : T3) :
  (forall x y, P x -> Q y -> R (f x y)) ->
  Forall P (entries a) -> Forall Q (entries b) -> Forall R (entries (bop3 f a b)).
Proof.
  intros Hf Ha Hb. apply Forall_forall. intros z Hz. apply list_elem_of_In in Hz.
  apply in_entries_bop3 in Hz as (x & y & Hx & Hy & ->).
  rewrite Forall_forall in Ha, Hb.
  apply Hf; [apply Ha | apply Hb]; by apply list_elem_of_In.
Qed.

Lemma Forall_entries_any (t : T3) : Forall (fun _ => True) (entries t).
Proof. by apply Forall_true. Qed.

Lemma in_entries_mask_set (t : T3) (mask : list (list (list bool))) (v z : float) :
  In z (entries (mask_set t mask v)) ->
  exists x b, In x (entries t) /\ In b (concat (concat mask)) /\ z = if b : bool then v else x.
Proof.
  unfold entries, mask_set. intros Hz.
  apply in_concat in Hz as (row & Hrow & Hz).
  apply in_concat in Hrow as (rows & Hrows & Hrow).
  apply in_zip_with in Hrows as (ra & rb & Hra & Hrb & ->).
  apply in_zip_with in Hrow as (wa & wb & Hwa & Hwb & ->).
  apply in_zip_with in Hz as (x & b & Hx & Hb & ->).
  exists x, b. split; [|split; [|done]].
  - apply in_concat. exists wa. split; [|done]. apply in_concat. by exists ra.
  - apply in_concat. exists wb. split; [|done]. apply in_concat. by exists rb.
Qed.

Lemma in_mask_map3d (m : float -> bool) (s : T3) (b : bool) :
  In b (concat (concat (map3d m s))) -> exists y, In y (entries s) /\ b = m y.
Proof.
  unfold entries, map3d. intros Hb.
  apply in_concat in Hb as (row & Hrow & Hb).
  apply in_concat in Hrow as (rows & Hrows & Hrow).
  apply in_map_iff in Hrows as (rows0 & <- & Hrows0).
  apply in_map_iff in Hrow as (row0 & <- & Hrow0).
  apply in_map_iff in Hb as (y & <- & Hy).
  exists y. split; [|done].
  apply in_concat. exists row0. split; [|done].
  apply in_concat. by exists rows0.
Qed.

Lemma Forall_entries_mask_set_unmasked (P : float -> Prop) (t s : T3) (m : float -> bool) v :
  Forall P (entries t) ->
  Forall (fun y => m y = false) (entries s) ->
  Forall P (entries (mask_set t (map3d m s) v)).
Proof.
  intros Ht Hs. apply Forall_forall. intros z Hz. apply list_elem_of_In in Hz.
  apply in_entries_mask_set in Hz as (x & b & Hx & Hb & ->).
  apply in_mask_map3d in Hb as (y & Hy & ->).
  rewrite Forall_forall in Ht, Hs.
  rewrite (Hs y) by (by apply list_elem_of_In). apply Ht. by apply list_elem_of_In.
Qed.



(** ** Zero-or-NaN arithmetic *)

Lemma zn_mul_l x y : zero_or_nan x = true -> zero_or_nan (F32.mul x y) = true.
Proof. destruct x as [[]|[]| |[] ? ?], y as [[]|[]| |[] ? ?]; done. Qed.

Lemma zn_mul_r x y : zero_or_nan y = true -> zero_or_nan (F32.mul x y) = true.
Proof. destruct x as [[]|[]| |[] ? ?], y as [[]|[]| |[] ? ?]; done. Qed.

Lemma zn_add x y :
  zero_or_nan x = true -> zero_or_nan y = true -> zero_or_nan (F32.add x y) = true.
Proof. destruct x as [[]|[]| |[] ? ?], y as [[]|[]| |[] ? ?]; done. Qed.

Lemma zn_div_l x y : zero_or_nan x = true -> zero_or_nan (F32.div x y) = true.
Proof. destruct x as [[]|[]| |[] ? ?], y as [[]|[]| |[] ? ?]; done. Qed.

Lemma zn_sq x : zero_or_nan x = true -> zero_or_nan (sq x) = true.
Proof. intros H. by apply zn_mul_l. Qed.

Lemma zn_div_zn x y : zero_or_nan x = true -> zero_or_nan y = true -> F32.div x y = F32.nan.
Proof. apply div_zero_or_nan. Qed.

Lemma zn_not_geb x c : zero_or_nan x = true -> F32.ltb F32.zero c = true -> F32.geb x c = false.
Proof. destruct x as [[]|[]| |[] ? ?], c as [[]|[]| |[] ? ?]; done. Qed.

Lemma sin_of_zero_cosine c :
  F32.is_zero c = true -> F32.sqrt (F32.sub F32.one (sq c)) = F32.one.
Proof. destruct c as [[]|[]| |[] ? ?]; try done; vm_compute; reflexivity. Qed.

Lemma zero_div_one c : F32.is_zero c = true -> F32.is_zero (F32.div c F32.one) = true.
Proof. destruct c as [[]|[]| |[] ? ?]; done. Qed.

(** ** Directions at and below the horizon *)

(** With every cosine at or below 0 the clamped cosines are zeros and
    every shadowing value is a zero or, for a roughness of 0 or NaN, a
    NaN. *)

Lemma SmithG1_below_horizon (NdotWs : T3) (p_roughness : T2) :
  Forall (fun c => F32.leb c F32.zero = true) (entries NdotWs) ->
  Forall (fun g => zero_or_nan g = true) (entries (fst (SmithG1 NdotWs p_roughness)))
  /\ Forall (fun c => F32.is_zero c = true) (entries (snd (SmithG1 NdotWs p_roughness))).
Proof.
  intros Hneg. unfold SmithG1. cbn [fst snd].
  set (cos_thetas := map3d (F32.clamp (Some F32.zero) (Some F32.one)) NdotWs).
  assert (Hcos : Forall (fun c => F32.is_zero c = true) (entries cos_thetas)).
  { eapply Forall_entries_map3d; [|exact Hneg]. apply clamp01_nonpositive. }
  split; [|exact Hcos].
  set (sin_thetas := sqrt3 (rsub F32.one (pow2 cos_thetas))).
  assert (Hsin : Forall (fun s => s = F32.one) (entries sin_thetas)).
  { subst sin_thetas. unfold sqrt3, rsub, pow2. rewrite !map3d_map3d.
    eapply Forall_entries_map3d; [|exact Hcos]. apply sin_of_zero_cosine. }
  set (prelims := ((cos_thetas / sin_thetas) / view_m1_1_1 p_roughness)%T).
  assert (Hpre : Forall (fun x => zero_or_nan x = true) (entries prelims)).
  { subst prelims.
    eapply Forall_entries_bop3; [| |apply Forall_entries_any].
    - intros x y Hx _. apply zn_div_l. exact Hx.
    - eapply Forall_entries_bop3; [|exact Hcos|exact Hsin].
      intros x y Hx ->. cbn beta. unfold zero_or_nan. by rewrite zero_div_one. }
  apply Forall_entries_mask_set_unmasked with (P := fun g => zero_or_nan g = true).
  - apply Forall_entries_mask_set_unmasked with (P := fun g => zero_or_nan g = true).
    + eapply Forall_entries_bop3; [| |apply Forall_entries_any].
      * intros x y Hx _. apply zn_div_l. exact Hx.
      * eapply Forall_entries_bop3 with (P := fun g => zero_or_nan g = true)
                                        (Q := fun g => zero_or_nan g = true).
        -- intros x y. apply zn_add.
        -- unfold smul. eapply Forall_entries_map3d; [|exact Hpre].
           intros x Hx. by apply zn_mul_r.
        -- unfold smul, pow2. rewrite map3d_map3d.
           eapply Forall_entries_map3d; [|exact Hpre].
           intros x Hx. by apply zn_mul_r, zn_sq.
    + eapply Forall_impl; [exact Hsin|]. by intros s ->.
  - eapply Forall_impl; [exact Hpre|]. intros x Hx. by apply zn_not_geb.
Qed.

(** [CookTorrance.calculate_rhos] as one expression: the diffuse term
    plus the guarded specular term, the Fresnel factor being the scalar 1
    or the tensor [Fresnel] returns. *)

Lemma four_pi_times_zero c : F32.is_zero c = true -> F32.is_zero (F32.mul four_pi c) = true.
Proof. destruct c as [[]|[]| |[] ? ?]; try done; vm_compute; reflexivity. Qed.

Lemma specular_term_all_nan_below_horizon
    (K : kernels) (Fs : factor) (NdotHs NdotLs NdotVs : T3) (albedo roughness : T2) :
  Forall (fun c => F32.leb c F32.zero = true) (entries NdotLs)
  \/ Forall (fun c => F32.leb c F32.zero = true) (entries NdotVs) ->
  Forall (fun x => x = F32.nan)
    (entries (specular_term K Fs NdotHs NdotLs NdotVs albedo roughness)).
Proof.
  intros Hside. unfold specular_term. cbv zeta.
  destruct (SmithG1 NdotLs (map2d sq roughness)) as [G_Ls cLs] eqn:HL.
  destruct (SmithG1 NdotVs (map2d sq roughness)) as [G_Vs cVs] eqn:HV.
  eapply Forall_entries_bop3 with (P := fun x => zero_or_nan x = true)
                                  (Q := fun x => zero_or_nan x = true).
  { intros x y. apply zn_div_zn. }
  - eapply Forall_entries_bop3; [|apply Forall_entries_any|].
    { intros x y _ Hy. apply zn_mul_r. exact Hy. }
    eapply Forall_entries_bop3; [|apply Forall_entries_any|].
    { intros x y _ Hy. apply zn_mul_r. exact Hy. }
    destruct Hside as [H|H].
    + destruct (SmithG1_below_horizon NdotLs (map2d sq roughness) H) as [HG _].
      rewrite HL in HG. cbn [fst] in HG.
      eapply Forall_entries_bop3; [|exact HG|apply Forall_entries_any].
      intros x y Hx _. by apply zn_mul_l.
    + destruct (SmithG1_below_horizon NdotVs (map2d sq roughness) H) as [HG _].
      rewrite HV in HG. cbn [fst] in HG.
      eapply Forall_entries_bop3; [|apply Forall_entries_any|exact HG].
      intros x y _ Hy. by apply zn_mul_r.
  - destruct Hside as [H|H].
    + destruct (SmithG1_below_horizon NdotLs (map2d sq roughness) H) as [_ Hc].
      rewrite HL in Hc. cbn [snd] in Hc.
      eapply Forall_entries_bop3; [| |apply Forall_entries_any].
      { intros x y Hx _. apply zn_mul_l. exact Hx. }
      unfold smul. eapply Forall_entries_map3d; [|exact Hc].
      intros x Hx. unfold zero_or_nan. by rewrite four_pi_times_zero.
    + destruct (SmithG1_below_horizon NdotVs (map2d sq roughness) H) as [_ Hc].
      rewrite HV in Hc. cbn [snd] in Hc.
      eapply Forall_entries_bop3; [|apply Forall_entries_any|].
      { intros x y _ Hy. apply zn_mul_r. exact Hy. }
      eapply Forall_impl; [exact Hc|]. intros x Hx. unfold zero_or_nan. by rewrite Hx.
Qed.

Lemma guard_of_all_nan (CTs : T3) :
  Forall (fun x => x = F32.nan) (entries CTs) ->
  Forall (fun x => x = F32.zero) (entries (guard_bad_denominators CTs)).
Proof.
  intros H. rewrite guard_bad_denominators_nan_to_zero.
  eapply Forall_entries_map3d; [|exact H]. by intros x ->.
Qed.

(** ** Roughness 1 *)

(** The factor [(alpha^2 - 1) / log(alpha^2)] of [GTR] is [0 / 0] at
    [alpha = 1]. *)

Lemma entries_view_m1_1_1 (R : T2) : entries (view_m1_1_1 R) = concat R.
Proof.
  unfold entries, view_m1_1_1. induction (concat R) as [|x l IH]; [done|].
  cbn. by rewrite IH.
Qed.

Lemma GTR_unit_roughness (K : kernels) (NdotHs : T3) (p_roughness : T2) :
  F32.is_zero (k_log K F32.one) = true ->
  Forall (fun x => x = F32.one) (concat p_roughness) ->
  Forall (fun x => x = F32.nan) (entries (GTR K NdotHs p_roughness (F32.double_of_Z 1))).
Proof.
  intros Hlog Hr. unfold GTR.
  change (SFeqb (F32.double_of_Z 1) (F32.double_of_Z 1)) with true. cbv iota zeta.
  assert (H2 : Forall (fun x => x = F32.one) (entries (pow2 (view_m1_1_1 p_roughness)))).
  { unfold pow2. eapply Forall_entries_map3d; [|by rewrite entries_view_m1_1_1].
    by intros x ->. }
  eapply Forall_entries_bop3 with (P := fun x => x = F32.nan); [| |apply Forall_entries_any].
  { by intros x y -> _. }
  eapply Forall_entries_bop3 with (P := fun x => zero_or_nan x = true)
                                  (Q := fun x => zero_or_nan x = true).
  { intros x y. apply zn_div_zn. }
  - unfold subs. eapply Forall_entries_map3d; [|exact H2]. by intros x ->.
  - eapply Forall_entries_map3d; [|exact H2]. intros x ->.
    unfold zero_or_nan. by rewrite Hlog.
Qed.

Lemma mul_nan_r x : F32.mul x F32.nan = F32.nan.
Proof. by destruct x as [[]|[]| |[] ? ?]. Qed.

Lemma specular_term_all_nan_at_unit_roughness
    (K : kernels) (Fs : factor) (NdotHs NdotLs NdotVs : T3) (albedo roughness : T2) :
  F32.is_zero (k_log K F32.one) = true ->
  Forall (fun x => x = F32.one) (concat roughness) ->
  Forall (fun x => x = F32.nan)
    (entries (specular_term K Fs NdotHs NdotLs NdotVs albedo roughness)).
Proof.
  intros Hlog Hr. unfold specular_term. cbv zeta.
  destruct (SmithG1 NdotLs (map2d sq roughness)) as [G_Ls cLs].
  destruct (SmithG1 NdotVs (map2d sq roughness)) as [G_Vs cVs].
  assert (HD : Forall (fun x => x = F32.nan)
                 (entries (GTR K NdotHs (map2d sq roughness) (F32.double_of_Z 1)))).
  { apply GTR_unit_roughness; [done|].
    unfold map2d. clear -Hr. induction roughness as [|row r IH]; [done|].
    cbn in Hr |- *. apply Forall_app in Hr as [Hrow Hr].
    apply Forall_app. split; [|by apply IH].
    apply Forall_fmap. eapply Forall_impl; [exact Hrow|]. by intros x ->. }
  eapply Forall_entries_bop3 with (P := fun x => x = F32.nan); [| |apply Forall_entries_any].
  { by intros x y -> _. }
  eapply Forall_entries_bop3 with (Q := fun x => x = F32.nan); [|apply Forall_entries_any|].
  { intros x y _ ->. apply mul_nan_r. }
  eapply Forall_entries_bop3 with (P := fun x => x = F32.nan); [| |apply Forall_entries_any].
  { by intros x y -> _. }
  destruct Fs as [c|f]; cbn [factor_mul].
  - unfold smul. eapply Forall_entries_map3d; [|exact HD]. intros x ->. apply mul_nan_r.
  - eapply Forall_entries_bop3 with (Q := fun x => x = F32.nan); [|apply Forall_entries_any|exact HD].
    intros x y _ ->. apply mul_nan_r.
Qed.

(** ** Normal incidence *)




(** ** The Fresnel factor *)

Lemma binary_round_aux_sign prec emax s m e lx :
  0 <= m ->
  match binary_round_aux prec emax s m e lx with
  | S754_zero s' | S754_infinity s' | S754_finite s' _ _ => s' = s
  | S754_nan => False
  end.
Proof.
  intros H. unfold binary_round_aux.
  pose proof (shr_fexp_nonneg prec emax m e lx H) as H1.
  destruct (shr_fexp prec emax m e lx) as [mrs' e']. cbn [fst] in H1.
  pose proof (shr_fexp_nonneg prec emax _ e' loc_Exact
                (round_nearest_even_nonneg _ (loc_of_shr_record mrs') H1)) as H2.
  destruct (shr_fexp prec emax _ e' loc_Exact) as [mrs'' e'']. cbn [fst] in H2.
  destruct (shr_m mrs'') as [|p|p]; [done| |lia].
  by destruct (e'' <=? emax - prec).
Qed.

Lemma nonneg_of_sign (x : float) :
  match x with
  | S754_zero s' | S754_infinity s' | S754_finite s' _ _ => s' = false
  | S754_nan => False
  end -> nan_or_nonneg x = true.
Proof. destruct x as [[]|[]| |[] ? ?]; done. Qed.

Lemma sq_nan_or_nonneg x : nan_or_nonneg (sq x) = true.
Proof.
  destruct x as [[]|[]| |s m e]; try done.
  apply nonneg_of_sign. unfold sq, F32.mul, SFmul.
  replace (xorb s s) with false by (by destruct s).
  by apply binary_round_aux_sign.
Qed.

Lemma binary_normalize_sign prec emax m e :
  0 < m ->
  match binary_normalize prec emax m e false with
  | S754_zero s' | S754_infinity s' | S754_finite s' _ _ => s' = false
  | S754_nan => False
  end.
Proof.
  intros H. destruct m as [|p|p]; try lia. cbn. unfold binary_round.
  destruct (shl_align _ _ _) as [mz ez]. by apply binary_round_aux_sign.
Qed.

Lemma add_nan_or_nonneg x y :
  nan_or_nonneg x = true -> nan_or_nonneg y = true -> nan_or_nonneg (F32.add x y) = true.
Proof.
  destruct x as [[]|[]| |[] mx ex], y as [[]|[]| |[] my ey]; try done.
  intros _ _. apply nonneg_of_sign. unfold F32.add, SFadd.
  apply binary_normalize_sign. cbn [cond_Zopp]. lia.
Qed.

Lemma div_two_nan_or_nonneg x : nan_or_nonneg x = true -> nan_or_nonneg (F32.div x F32.two) = true.
Proof.
  destruct x as [[]|[]| |[] mx ex]; try done.
  intros _. apply nonneg_of_sign. unfold F32.div, F32.two, SFdiv. cbn [xorb].
  destruct (SFdiv_core_binary _ _ _ _ _ _) as [[q e'] lq] eqn:Hq.
  apply binary_round_aux_sign.
  unfold SFdiv_core_binary in Hq.
  match type of Hq with context [Z.div_eucl ?a ?b] =>
    pose proof (Z.div_eucl_eq a b ltac:(lia)) as Hd;
    pose proof (Z_div_mod a b ltac:(lia)) as Hm;
    assert (Ha : 0 <= a)
  end.
  { match goal with |- 0 <= match ?s with _ => _ end => destruct s end; try lia.
    apply Z.shiftl_nonneg. lia. }
  destruct (Z.div_eucl _ _) as [q' r']. injection Hq as <- _ _.
  destruct Hm as [Hm1 Hm2]. nia.
Qed.

(** X8.  No entry [Fresnel] returns is negative: for every cosine and
    dielectric coefficient the entry is NaN or at least 0 (the mean of two
    squares). *)
Theorem Fresnel_is_never_negative (NdotLs : T3) (p_eta_mat : T2) :
  Forall (fun f => nan_or_nonneg f = true) (entries (Fresnel NdotLs p_eta_mat)).
Proof.
  unfold Fresnel. cbv zeta. unfold divs.
  eapply Forall_entries_map3d with (P := fun x => nan_or_nonneg x = true).
  { apply div_two_nan_or_nonneg. }
  eapply Forall_entries_bop3 with (P := fun x => nan_or_nonneg x = true)
                                  (Q := fun x => nan_or_nonneg x = true).
  { apply add_nan_or_nonneg. }
  - unfold pow2. eapply Forall_entries_map3d; [|apply Forall_entries_any].
    intros x _. apply sq_nan_or_nonneg.
  - unfold pow2. eapply Forall_entries_map3d; [|apply Forall_entries_any].
    intros x _. apply sq_nan_or_nonneg.
Qed.



(** ** Nested dictionaries *)

(** Induction on a value through the items of its dictionaries. *)
Section value_induction.

Variable P : value -> Prop.
Hypothesis Htensor : forall t, P (VTensor t).
Hypothesis Hdict : forall items, Forall (fun kv => P kv.2) items -> P (VDict items).
Hypothesis Harr2 : forall a, P (VArr2 a).
Hypothesis Harr3 : forall a, P (VArr3 a).
Hypothesis Hobj : forall c, P (VObj c).
Hypothesis Hother : P VOther.

Fixpoint value_nested_ind (v : value) : P v :=
  match v with
  | VTensor t => Htensor t
  | VDict items =>
      Hdict items
        ((fix over (l : list (string * value)) : Forall (fun kv => P kv.2) l :=
            match l with
            | [] => List.Forall_nil _
            | kv :: r => List.Forall_cons _ kv r (value_nested_ind kv.2) (over r)
            end) items)
  | VArr2 a => Harr2 a
  | VArr3 a => Harr3 a
  | VObj c => Hobj c
  | VOther => Hother
  end.

End value_induction.

(** *** [attach_dict_recursive] *)

Lemma tensor_tree_dict (items : list (string * value)) :
  tensor_tree (VDict items) = forallb (fun kv => tensor_tree kv.2) items.
Proof. induction items as [|[k v] r IH]; cbn in *; [done|]. by rewrite IH. Qed.

Lemma tensor_leaves_dict (items : list (string * value)) :
  tensor_leaves (VDict items) = concat (map (fun kv => tensor_leaves kv.2) items).
Proof. induction items as [|[k v] r IH]; cbn in *; [done|]. by rewrite IH. Qed.

Lemma attach_items_cons key value rest :
  attach_items ((key, value) :: rest)
  = (v ← attach_value value; r ← attach_items rest; mret ((key, v) :: r)).
Proof. reflexivity. Qed.

Lemma clone_items_cons key value rest :
  clone_items ((key, value) :: rest)
  = (v ← clone_value value; r ← clone_items rest; mret ((key, v) :: r)).
Proof. reflexivity. Qed.

Lemma attach_value_outcome (v : value) (w : world) :
  if tensor_tree v
  then exists v', attach_value v w = (Ok v', w)
                  /\ same_shape (fun t t' => t' = nn_Parameter t) v v'
  else attach_value v w = (Raise (Fatal attach_message), w).
Proof.
  revert w. induction v as [t|items IH|a|a|c|] using value_nested_ind; intros w;
    try reflexivity; try (eexists; split; [reflexivity|]; by constructor).
  rewrite tensor_tree_dict.
  assert (Hitems :
    if forallb (fun kv => tensor_tree kv.2) items
    then exists items', attach_items items w = (Ok items', w)
           /\ Forall2 (fun kv kv' => kv.1 = kv'.1
                         /\ same_shape (fun t t' => t' = nn_Parameter t) kv.2 kv'.2)
                      items items'
    else attach_items items w = (Raise (Fatal attach_message), w)).
  { induction IH as [|[key value] rest Hv _ IHrest].
    - exists []. split; [reflexivity | constructor].
    - rewrite attach_items_cons. cbn [forallb snd] in *.
      specialize (Hv w). destruct (tensor_tree value).
      + destruct Hv as (v' & Hrun & Hs). rewrite (bind_Ok _ _ _ _ _ Hrun).
        cbn [andb]. destruct (forallb _ rest).
        * destruct IHrest as (rest' & Hrest & Hs').
          exists ((key, v') :: rest'). rewrite (bind_Ok _ _ _ _ _ Hrest).
          split; [reflexivity|]. by constructor.
        * by rewrite (bind_Raise _ _ _ _ _ IHrest).
      + by rewrite (bind_Raise _ _ _ _ _ Hv). }
  change (attach_value (VDict items)) with (attach_dict_recursive (VDict items)).
  rewrite attach_dict.
  destruct (forallb _ items).
  - destruct Hitems as (items' & Hrun & Hs).
    exists (VDict items'). rewrite (bind_Ok _ _ _ _ _ Hrun).
    split; [reflexivity|]. by constructor.
  - by rewrite (bind_Raise _ _ _ _ _ Hitems).
Qed.

Lemma attach_dict_recursive_rejects (v : value) (w : world) :
  dict_of_tensors v = false ->
  attach_dict_recursive v w = (Raise (Fatal attach_message), w).
Proof.
  destruct v as [t|items|a|a|c|]; try reflexivity.
  intros H. pose proof (attach_value_outcome (VDict items) w) as Hv.
  cbn [dict_of_tensors] in H. by rewrite H in Hv.
Qed.

Lemma attach_dict_recursive_world (v : value) (w : world) :
  snd (attach_dict_recursive v w) = w.
Proof.
  destruct v as [t|items|a|a|c|]; try reflexivity.
  pose proof (attach_value_outcome (VDict items) w) as Hv.
  destruct (tensor_tree (VDict items)).
  - destruct Hv as (v' & Hv & _).
    change (attach_value (VDict items)) with (attach_dict_recursive (VDict items)) in Hv.
    by rewrite Hv.
  - change (attach_value (VDict items)) with (attach_dict_recursive (VDict items)) in Hv.
    by rewrite Hv.
Qed.

(** X9.  [attach_dict_recursive] copies nothing: on a dictionary nested to
    any depth whose leaves are all tensors it returns a dictionary with
    the same keys in the same order at every level, each tensor wrapped
    as a parameter on the storage of the tensor it was given, and the
    world is as before; on any other argument, a tensor included, and on
    a dictionary with a leaf that is neither, it is a fatal error, again
    with the world as before. *)
Theorem attach_dict_recursive_shares_storage (v : value) (w : world) :
  if dict_of_tensors v
  then exists v', attach_dict_recursive v w = (Ok v', w)
                  /\ same_shape (fun t t' => t' = nn_Parameter t) v v'
  else attach_dict_recursive v w = (Raise (Fatal attach_message), w).
Proof.
  destruct v as [t|items|a|a|c|]; try reflexivity.
  apply (attach_value_outcome (VDict items) w).
Qed.

(** *** [detach_and_clone_dict_recursive] *)

Lemma fresh_tensors_app base n m :
  fresh_tensors base (n + m) = fresh_tensors base n ++ fresh_tensors (base + n) m.
Proof. unfold fresh_tensors. by rewrite seq_app, fmap_app. Qed.

Section Clone.

Variables (h : list T2) (objs : list instance) (l : option (nat * value)).

Lemma clone_value_outcome (v : value) (ext : list T2) :
  Forall (fun t => (storage t < length h)%nat) (tensor_leaves v) ->
  if tensor_tree v
  then exists v',
         clone_value v (World (h ++ ext) objs l)
         = (Ok v', World (h ++ ext ++ map (fun t => h !!! storage t) (tensor_leaves v)) objs l)
         /\ same_shape detached v v'
         /\ tensor_leaves v'
            = fresh_tensors (length h + length ext) (length (tensor_leaves v))
  else exists ext',
         clone_value v (World (h ++ ext) objs l)
         = (Raise (Fatal detach_message), World (h ++ ext ++ ext') objs l).
Proof.
  revert ext. induction v as [t|items IH|a|a|c|] using value_nested_ind; intros ext Hvalid.
  - cbn [tensor_tree tensor_leaves clone_value map length] in *.
    rewrite Forall_singleton in Hvalid.
    eexists. erewrite bind_Ok; [|by apply clone_detach_run].
    split; [reflexivity|]. split; [by constructor|].
    reflexivity.
  - rewrite tensor_tree_dict. rewrite tensor_leaves_dict in Hvalid |- *.
    assert (Hitems :
      if forallb (fun kv => tensor_tree kv.2) items
      then exists items',
             clone_items items (World (h ++ ext) objs l)
             = (Ok items',
                World (h ++ ext ++ map (fun t => h !!! storage t)
                                       (concat (map (fun kv => tensor_leaves kv.2) items)))
                      objs l)
             /\ Forall2 (fun kv kv' => kv.1 = kv'.1 /\ same_shape detached kv.2 kv'.2)
                        items items'
             /\ concat (map (fun kv => tensor_leaves kv.2) items')
                = fresh_tensors (length h + length ext)
                    (length (concat (map (fun kv => tensor_leaves kv.2) items)))
      else exists ext',
             clone_items items (World (h ++ ext) objs l)
             = (Raise (Fatal detach_message), World (h ++ ext ++ ext') objs l)).
    { clear -IH Hvalid. revert ext.
      induction IH as [|[key value] rest Hv _ IHrest]; intros ext.
      - exists []. cbn. rewrite !app_nil_r. split; [reflexivity|]. split; [constructor|done].
      - rewrite clone_items_cons. cbn [forallb snd map concat] in *.
        apply Forall_app in Hvalid as [Hvalue Hrest].
        specialize (Hv ext Hvalue). destruct (tensor_tree value).
        + destruct Hv as (v' & Hrun & Hs & Hleaves). rewrite (bind_Ok _ _ _ _ _ Hrun).
          cbn [andb].
          specialize (IHrest Hrest (ext ++ map (fun t => h !!! storage t) (tensor_leaves value))).
          rewrite <- !app_assoc in IHrest.
          destruct (forallb _ rest).
          * destruct IHrest as (rest' & Hrun' & Hs' & Hleaves').
            rewrite <- ?app_assoc in Hrun'.
            exists ((key, v') :: rest'). rewrite (bind_Ok _ _ _ _ _ Hrun').
            split; [|split].
            -- cbn. by rewrite ?map_app, <- ?app_assoc.
            -- by constructor.
            -- cbn [map concat snd]. rewrite Hleaves, Hleaves'.
                rewrite !length_app, length_map, fresh_tensors_app.
                by rewrite Nat.add_assoc.
          * destruct IHrest as (ext' & Hrun').
            exists (map (fun t => h !!! storage t) (tensor_leaves value) ++ ext').
            rewrite <- app_assoc in Hrun'. by rewrite (bind_Raise _ _ _ _ _ Hrun').
        + destruct Hv as (ext' & Hrun). exists ext'.
          by rewrite (bind_Raise _ _ _ _ _ Hrun). }
    change (clone_value (VDict items)) with (detach_and_clone_dict_recursive (VDict items)).
    rewrite detach_and_clone_dict.
    destruct (forallb _ items).
    + destruct Hitems as (items' & Hrun & Hs & Hleaves).
      exists (VDict items'). rewrite (bind_Ok _ _ _ _ _ Hrun).
      split; [reflexivity|]. split; [by constructor|].
      by rewrite tensor_leaves_dict.
    + destruct Hitems as (ext' & Hrun). exists ext'.
      by rewrite (bind_Raise _ _ _ _ _ Hrun).
  - eexists. cbn. rewrite app_nil_r. split; [reflexivity|]. split; [constructor|done].
  - eexists. cbn. rewrite app_nil_r. split; [reflexivity|]. split; [constructor|done].
  - exists []. cbn. by rewrite app_nil_r.
  - exists []. cbn. by rewrite app_nil_r.
Qed.

End Clone.

(** X10.  [detach_and_clone_dict_recursive] on a dictionary nested to any
    depth whose leaves are all tensors: the copy has the same keys in the
    same order at every level, its tensors are detached and occupy new
    consecutive storage cells that hold the values of the source tensors,
    in the order of the items, and every cell that existed is unchanged.
    On any other argument it is a fatal error, and the cells that existed
    are unchanged then too (copies made before the offending value was
    reached remain allocated). *)
Theorem detach_and_clone_dict_recursive_copies (v : value) (w : world) :
  Forall (fun t => (storage t < length (heap w))%nat) (tensor_leaves v) ->
  if dict_of_tensors v
  then exists v',
         detach_and_clone_dict_recursive v w
         = (Ok v', World (heap w ++ map (fun t => heap w !!! storage t) (tensor_leaves v))
                         (objects w) (lru w))
         /\ same_shape detached v v'
         /\ tensor_leaves v' = fresh_tensors (length (heap w)) (length (tensor_leaves v))
  else exists ext,
         detach_and_clone_dict_recursive v w
         = (Raise (Fatal detach_message), World (heap w ++ ext) (objects w) (lru w)).
Proof.
  intros Hvalid. destruct w as [h objs l]. cbn [heap objects lru] in *.
  destruct v as [t|items|a|a|c|]; try (exists []; cbn; by rewrite app_nil_r).
  pose proof (clone_value_outcome h objs l (VDict items) [] Hvalid) as H.
  rewrite !app_nil_r in H. cbn [app length] in H. rewrite Nat.add_0_r in H.
  exact H.
Qed.

(** ** What [initialize] builds *)

Lemma initialize_run
    (K : kernels) (w : world) (self : nat) (o : instance)
    (nr_points : nat) (diffuse_materials : tensor) (nr_bases : nat) :
  objects w !! self = Some o ->
  BaseSpecularMaterials.initialize K self nr_points diffuse_materials nr_bases w
     = (Ok tt,
        World (heap w
               ++ map (fun f => ones nr_bases (Z.to_nat f.2))
                      (specular_fields (brdf_parametrization o))
               ++ [uniform_weights nr_points nr_bases])
          (<[self :=
               Instance (brdf_parametrization o)
                 (Some (param_dict (Tensor (storage diffuse_materials) true)
                          (imap (fun i f => (f.1, Tensor (length (heap w) + i) true))
                                (specular_fields (brdf_parametrization o)))))
                 (Some (Tensor (length (heap w)
                                + length (specular_fields (brdf_parametrization o))) true))]>
             (objects w))
          (lru w)).
Proof.
  intros Ho. destruct w as [h objs l]. cbn [heap objects lru] in *.
  assert (Hself : (self < length objs)%nat) by (by eapply lookup_lt_Some).
  unfold BaseSpecularMaterials.initialize.
  erewrite bind_Ok;
    [|unfold BaseSpecularMaterials.self_brdf_parametrization;
      erewrite bind_Ok; [reflexivity|];
      unfold BaseSpecularMaterials.get_object; cbn; by rewrite Ho].
  destruct (brdf_parametrization o) eqn:Hbp;
    (erewrite bind_Ok; [|reflexivity]); (erewrite bind_Ok; [|reflexivity]);
    cbn [mapM]; (erewrite bind_Ok; [|reflexivity]);
    (erewrite bind_Ok; [|by apply set_brdf_parameters_run]);
    (erewrite bind_Ok; [|reflexivity]);
    (erewrite set_base_weights_run; [|by apply list_lookup_insert_eq]).
  all: cbn [heap objects lru brdf_parametrization brdf_parameters base_weights
            specular_fields map imap length app fst snd storage nn_Parameter detach].
  all: rewrite list_insert_insert_eq, Hbp, ?length_app; cbn [length].
  all: rewrite <- ?app_assoc; cbn [app].
  all: rewrite ?Nat.add_0_r, <- ?Nat.add_assoc; try reflexivity.
Qed.

(** X11.  [initialize], for each of the three reflectance models: the
    specular bases are new all-ones tensors of [nr_bases] rows, one per
    field that the model's [get_parameter_count] names and of the width it
    gives, in its order; the weights are a new tensor of [nr_points] rows
    whose entries are all [1 / nr_bases]; the diffuse entry is a parameter
    on the storage of the estimate it was given, not a copy; every storage
    cell that existed and the cache are unchanged. *)
Theorem initialize_builds_uniform_mixture
    (K : kernels) (w : world) (self : nat) (o : instance)
    (nr_points : nat) (diffuse_materials : tensor) (nr_bases : nat) :
  objects w !! self = Some o ->
  (exists f, getattr K (brdf_parametrization o) "get_parameter_count" w = (Ok (ACount f), w)
             /\ call f [VObj (brdf_parametrization o)] w
                = (Ok (3, specular_fields (brdf_parametrization o)), w))
  /\ BaseSpecularMaterials.initialize K self nr_points diffuse_materials nr_bases w
     = (Ok tt,
        World (heap w
               ++ map (fun f => ones nr_bases (Z.to_nat f.2))
                      (specular_fields (brdf_parametrization o))
               ++ [uniform_weights nr_points nr_bases])
          (<[self :=
               Instance (brdf_parametrization o)
                 (Some (param_dict (Tensor (storage diffuse_materials) true)
                          (imap (fun i f => (f.1, Tensor (length (heap w) + i) true))
                                (specular_fields (brdf_parametrization o)))))
                 (Some (Tensor (length (heap w)
                                + length (specular_fields (brdf_parametrization o))) true))]>
             (objects w))
          (lru w)).
Proof.
  intros Ho. split; [|by apply initialize_run].
  destruct (brdf_parametrization o); eexists; split; reflexivity.
Qed.

(** ** The cache slot *)

(** X12.  The cache of [get_brdf_parameters] belongs to the function, not
    to the instance, and holds one entry: a call that returns on an
    instance [b] leaves [b]'s dictionary in the slot, and the next call on
    any other instance [a] runs the undecorated function on the current
    values and takes the slot over (or raises and stores nothing). *)
Theorem get_brdf_parameters_cache_holds_one_instance
    (w w1 : world) (a b : nat) (vb : value) :
  a <> b ->
  BaseSpecularMaterials.get_brdf_parameters b w = (Ok vb, w1) ->
  lru w1 = Some (b, vb)
  /\ forall w2,
       lru w2 = lru w1 ->
       BaseSpecularMaterials.get_brdf_parameters a w2
       = match BaseSpecularMaterials.get_brdf_parameters_uncached a w2 with
         | (Ok v, w3) => (Ok v, World (heap w3) (objects w3) (Some (a, v)))
         | (Raise e, w3) => (Raise e, w3)
         end.
Proof.
  intros Hab Hrun. split.
  - unfold BaseSpecularMaterials.get_brdf_parameters, BaseSpecularMaterials.lru_cache_1 in Hrun.
    rewrite (bind_Ok _ _ w w w) in Hrun by done.
    destruct (lru w) as [[key cached]|] eqn:Hl.
    + destruct (bool_decide (key = b)) eqn:Hk.
      * apply bool_decide_eq_true_1 in Hk as ->. by inversion Hrun; subst.
      * unfold mbind, M_bind, bind in Hrun.
        destruct (BaseSpecularMaterials.get_brdf_parameters_uncached b w) as [[v|e] w3];
          by inversion Hrun.
    + unfold mbind, M_bind, bind in Hrun.
      destruct (BaseSpecularMaterials.get_brdf_parameters_uncached b w) as [[v|e] w3];
        by inversion Hrun.
  - intros w2 Hl.
    unfold BaseSpecularMaterials.get_brdf_parameters, BaseSpecularMaterials.lru_cache_1.
    rewrite (bind_Ok _ _ w2 w2 w2) by done.
    assert (Hlru : lru w2 = Some (b, vb)).
    { rewrite Hl. clear Hl w2.
      unfold BaseSpecularMaterials.get_brdf_parameters, BaseSpecularMaterials.lru_cache_1 in Hrun.
      rewrite (bind_Ok _ _ w w w) in Hrun by done.
      destruct (lru w) as [[key cached]|] eqn:Hl.
      + destruct (bool_decide (key = b)) eqn:Hk.
        * apply bool_decide_eq_true_1 in Hk as ->. by inversion Hrun; subst.
        * unfold mbind, M_bind, bind in Hrun.
          destruct (BaseSpecularMaterials.get_brdf_parameters_uncached b w) as [[v|e] w3];
            by inversion Hrun.
      + unfold mbind, M_bind, bind in Hrun.
        destruct (BaseSpecularMaterials.get_brdf_parameters_uncached b w) as [[v|e] w3];
          by inversion Hrun. }
    rewrite Hlru. rewrite bool_decide_eq_false_2 by done.
    unfold mbind, M_bind, bind.
    by destruct (BaseSpecularMaterials.get_brdf_parameters_uncached a w2) as [[v|e] w3].
Qed.

(** ** Restoring a checkpoint *)

(** [deserialize] allocates nothing and leaves the cache alone, whatever
    it is given. *)

Lemma deserialize_frame (self : nat) (args : list value) (w w' : world) r :
  BaseSpecularMaterials.deserialize self args w = (r, w') ->
  heap w' = heap w /\ lru w' = lru w.
Proof.
  unfold BaseSpecularMaterials.deserialize, BaseSpecularMaterials.set_base_weights,
    BaseSpecularMaterials.set_brdf_parameters, BaseSpecularMaterials.set_object,
    BaseSpecularMaterials.get_object.
  unfold mbind, M_bind, bind, mret, M_ret, ret, raise.
  destruct (args !! 0%nat) as [[t| | | | |]|]; try (intros [= <- <-]; done).
  destruct (objects w !! self) as [o|]; [|intros [= <- <-]; done].
  cbn [heap objects lru].
  destruct (args !! 1%nat) as [a1|]; [|intros [= <- <-]; done].
  match goal with |- context [attach_dict_recursive a1 ?w0] =>
    pose proof (attach_dict_recursive_world a1 w0) as Hat;
    destruct (attach_dict_recursive a1 w0) as [[v'|e] w1]
  end; cbn [snd] in Hat; subst w1.
  - cbn [objects heap lru].
    destruct (_ !! self); intros [= <- <-]; done.
  - intros [= <- <-]; done.
Qed.

(** X13.  [deserialize] does not invalidate the cache: when the slot holds
    a dictionary for the instance, [get_brdf_parameters] after any
    [deserialize], successful or not, still returns that dictionary and
    computes nothing from the restored tensors. *)
Theorem deserialize_keeps_cached_parameters
    (self : nat) (args : list value) (w w' : world) r (v : value) :
  lru w = Some (self, v) ->
  BaseSpecularMaterials.deserialize self args w = (r, w') ->
  BaseSpecularMaterials.get_brdf_parameters self w' = (Ok v, w').
Proof.
  intros Hl Hrun. apply deserialize_frame in Hrun as [_ Hlru].
  apply lru_cache_1_hit. by rewrite Hlru.
Qed.

(** X14.  [deserialize] replaces the weights before it looks at its second
    argument: called with no argument it raises [IndexError] and changes
    nothing, but called with the weights alone, or with a second argument
    that is not a dictionary of tensors, it fails with the weights already
    replaced and the basis dictionary still the old one. *)
Theorem deserialize_is_not_atomic
    (self : nat) (o : instance) (w : world) (t : tensor) (p : value) :
  objects w !! self = Some o ->
  dict_of_tensors p = false ->
  BaseSpecularMaterials.deserialize self [] w = (Raise IndexError, w)
  /\ BaseSpecularMaterials.deserialize self [VTensor t] w
     = (Raise IndexError,
        World (heap w)
          (<[self := Instance (brdf_parametrization o) (brdf_parameters o)
                       (Some (nn_Parameter t))]> (objects w))
          (lru w))
  /\ BaseSpecularMaterials.deserialize self [VTensor t; p] w
     = (Raise (Fatal attach_message),
        World (heap w)
          (<[self := Instance (brdf_parametrization o) (brdf_parameters o)
                       (Some (nn_Parameter t))]> (objects w))
          (lru w)).
Proof.
  intros Ho Hp. destruct w as [h objs l]. cbn [heap objects lru] in *.
  split; [reflexivity|]. split.
  - unfold BaseSpecularMaterials.deserialize. cbn [lookup list_lookup].
    erewrite bind_Ok; [|reflexivity].
    erewrite bind_Ok; [|reflexivity].
    erewrite bind_Ok; [|by apply set_base_weights_run].
    reflexivity.
  - unfold BaseSpecularMaterials.deserialize. cbn [lookup list_lookup].
    erewrite bind_Ok; [|reflexivity].
    erewrite bind_Ok; [|reflexivity].
    erewrite bind_Ok; [|by apply set_base_weights_run].
    erewrite bind_Ok; [|reflexivity].
    apply bind_Raise.
    by apply attach_dict_recursive_rejects.
Qed.

(** ** Before [initialize] *)

(** X15.  On an instance that neither [initialize] nor [deserialize] has
    set up, [get_brdf_parameters] (when the cache does not answer),
    [enforce_parameter_bounds] and [serialize] raise [AttributeError] on the
    first attribute they read and leave the world, the cache included, as
    it was. *)
Theorem methods_before_initialize_raise_AttributeError
    (K : kernels) (w : world) (self : nat) (c : brdf_class) :
  objects w !! self = Some (Instance c None None) ->
  (forall v, lru w <> Some (self, v)) ->
  BaseSpecularMaterials.get_brdf_parameters self w
  = (Raise (AttributeError "brdf_parameters"), w)
  /\ BaseSpecularMaterials.enforce_parameter_bounds K self w
     = (Raise (AttributeError "base_weights"), w)
  /\ BaseSpecularMaterials.serialize self w
     = (Raise (AttributeError "base_weights"), w).
Proof.
  intros Ho Hmiss. split; [|split].
  - unfold BaseSpecularMaterials.get_brdf_parameters, BaseSpecularMaterials.lru_cache_1.
    rewrite (bind_Ok _ _ w w w) by done.
    assert (Hrun : BaseSpecularMaterials.get_brdf_parameters_uncached self w
                   = (Raise (AttributeError "brdf_parameters"), w)).
    { unfold BaseSpecularMaterials.get_brdf_parameters_uncached,
        BaseSpecularMaterials.self_brdf_parameters, BaseSpecularMaterials.get_object.
      unfold mbind, M_bind, bind. by rewrite Ho. }
    destruct (lru w) as [[key cached]|] eqn:Hl.
    + rewrite bool_decide_eq_false_2 by (intros ->; by eapply Hmiss).
      by rewrite (bind_Raise _ _ _ _ _ Hrun).
    + by rewrite (bind_Raise _ _ _ _ _ Hrun).
  - unfold BaseSpecularMaterials.enforce_parameter_bounds,
      BaseSpecularMaterials.self_base_weights, BaseSpecularMaterials.get_object.
    unfold mbind, M_bind, bind. by rewrite Ho.
  - unfold BaseSpecularMaterials.serialize,
      BaseSpecularMaterials.self_base_weights, BaseSpecularMaterials.get_object.
    unfold mbind, M_bind, bind. by rewrite Ho.
Qed.

(** ** Batches of [CookTorrance.calculate_rhos] *)

(** Every tensor of the method is read point by point and light by
    light. *)

Section PerPoint.

Variable pts : list (T2 * point).

Lemma denote_map3d {A B} (f : A -> B) t (r : rep A) :
  t = denote pts r -> map3d f t = denote pts (rep_map f r).
Proof.
  intros ->. destruct r as [h|c]; unfold map3d; cbn [denote rep_map];
    rewrite map_map; apply map_ext; intros p; [by rewrite map_map | done].
Qed.

Lemma denote_bop3 {A B C} (f : A -> B -> C) a b (r1 : rep A) (r2 : rep B) :
  a = denote pts r1 -> b = denote pts r2 -> bop3 f a b = denote pts (rep_bop f r1 r2).
Proof.
  intros -> ->. unfold bop3.
  destruct r1 as [h1|c1], r2 as [h2|c2]; cbn [denote rep_bop];
    rewrite bzip_map_same; apply map_ext; intros p.
  - apply bzip_map_same.
  - rewrite bzip_singleton_r. by rewrite map_map.
  - cbn [bzip]. by rewrite map_map.
  - reflexivity.
Qed.

Lemma denote_sum_keepdim3 t (r : rep float) :
  t = denote pts r -> sum_keepdim3 t = denote pts (rep_sum r).
Proof.
  intros ->. destruct r as [h|c]; unfold sum_keepdim3, sum_keepdim2; cbn [denote rep_sum];
    rewrite map_map; apply map_ext; intros p; [by rewrite map_map | done].
Qed.

Lemma denote_mask_set t mask v (r : rep float) (m : rep bool) :
  t = denote pts r -> mask = denote pts m -> same_kind r m = true ->
  mask_set t mask v = denote pts (rep_mask r m v).
Proof.
  intros -> -> Hk. unfold mask_set.
  destruct r as [h|c], m as [hm|cm]; try done; cbn [denote rep_mask];
    rewrite zip_with_map_same; apply map_ext; intros p.
  - apply zip_with_map_same.
  - reflexivity.
Qed.

End PerPoint.

Lemma view_m1_1_3_rows (t : T2) :
  Forall (fun row => length row = 3%nat) t -> view_m1_1_3 t = map (fun row => [row]) t.
Proof. intros H. unfold view_m1_1_3. by rewrite chunk3_concat. Qed.

Lemma view_m1_1_1_rows (t : T2) :
  Forall (fun row => length row = 1%nat) t -> view_m1_1_1 t = map (fun row => [row]) t.
Proof.
  unfold view_m1_1_1. induction 1 as [|row t Hrow _ IH]; [done|].
  destruct row as [|x [|y row]]; try done. cbn. by rewrite IH.
Qed.

Section Inputs.

Variable pts : list (T2 * point).
Hypothesis Hshape : Forall (fun p => well_shaped p.2) pts.

Lemma denote_lights : map fst pts = denote pts (PerLight (fun _ l => l)).
Proof. cbn [denote]. apply map_ext. intros p. by rewrite map_id. Qed.

Lemma denote_view_field (field : point -> T1) :
  (forall q, well_shaped q -> length (field q) = 3%nat) ->
  view_m1_1_3 (map (fun p => field p.2) pts) = denote pts (PerPoint field).
Proof.
  intros Hf. rewrite view_m1_1_3_rows; [by rewrite map_map|].
  apply Forall_fmap. eapply Forall_impl; [exact Hshape|]. intros p Hp. by apply Hf.
Qed.

Lemma denote_scalar_field (field : point -> T1) :
  (forall q, well_shaped q -> length (field q) = 1%nat) ->
  view_m1_1_1 (map (fun p => field p.2) pts) = denote pts (PerPoint field).
Proof.
  intros Hf. rewrite view_m1_1_1_rows; [by rewrite map_map|].
  apply Forall_fmap. eapply Forall_impl; [exact Hshape|]. intros p Hp. by apply Hf.
Qed.

Lemma denote_roughness :
  view_m1_1_1 (map2d sq (map (fun p => p_roughness p.2) pts))
  = denote pts (PerPoint (fun q => map sq (p_roughness q))).
Proof.
  unfold map2d. rewrite map_map.
  apply (denote_scalar_field (fun q => map sq (p_roughness q))).
  intros q Hq. rewrite length_map. apply Hq.
Qed.

End Inputs.

Ltac per_point_step Hs :=
  first
    [ eapply denote_bop3
    | eapply denote_map3d
    | eapply denote_sum_keepdim3
    | eapply denote_mask_set
    | apply denote_lights
    | apply (denote_view_field _ Hs p_view); intros q Hq; apply Hq
    | apply (denote_view_field _ Hs p_normal); intros q Hq; apply Hq
    | apply (denote_view_field _ Hs p_diffuse); intros q Hq; apply Hq
    | apply (denote_view_field _ Hs p_albedo); intros q Hq; apply Hq
    | apply (denote_roughness _ Hs)
    | apply (denote_scalar_field _ Hs p_eta); intros q Hq; apply Hq ].

Ltac per_point_solve Hs :=
  unfold guarded_specular, BrdfParametrization._calculate_NdotHs,
    specular_term, guard_bad_denominators, factor_mul, GTR, SmithG1, Fresnel,
    inner_product, normalize, cosNH2_of, smul, sadd, rsub, subs, divs, pow2, sqrt3;
  change (SFeqb (F32.double_of_Z 1) (F32.double_of_Z 1)) with true;
  cbv beta iota zeta; cbn [fst snd];
  (etransitivity; [repeat per_point_step Hs; reflexivity|]);
  cbn [rep_bop rep_map rep_sum rep_mask]; reflexivity.

Lemma reflectance_per_light (K : kernels) (has_eta : bool) :
  exists g gH gS : point -> T1 -> T1,
    forall pts : list (T2 * point),
      Forall (fun p => well_shaped p.2) pts ->
      reflectance K (map fst pts)
        (map (fun p => p_view p.2) pts) (map (fun p => p_normal p.2) pts)
        (map (fun p => p_diffuse p.2) pts) (map (fun p => p_albedo p.2) pts)
        (map (fun p => p_roughness p.2) pts)
        (if has_eta then Some (map (fun p => p_eta p.2) pts) else None)
      = (denote pts (PerLight g), denote pts (PerLight gH))
      /\ guarded_specular K (map fst pts)
           (map (fun p => p_view p.2) pts) (map (fun p => p_normal p.2) pts)
           (map (fun p => p_albedo p.2) pts) (map (fun p => p_roughness p.2) pts)
           (if has_eta then Some (map (fun p => p_eta p.2) pts) else None)
         = denote pts (PerLight gS).
Proof.
  destruct has_eta; eexists _, _, _; intros pts Hs; (split; [unfold reflectance; f_equal|]);
    per_point_solve Hs.
Qed.

(** *** Channels *)

Lemma length_bzip {A B C} (f : A -> B -> C) xs ys :
  compatible (length xs) (length ys) = true ->
  length (bzip f xs ys) = join (length xs) (length ys).
Proof.
  unfold compatible, join.
  destruct xs as [|x [|x' xs]], ys as [|y [|y' ys]]; cbn [length bzip]; try done.
  - by rewrite length_map.
  - by rewrite length_map.
  - intros H. rewrite length_zip_with. cbn [length].
    apply orb_true_iff in H as [H|H]; [apply orb_true_iff in H as [H|H]|];
      try done; apply Nat.eqb_eq in H; cbn in *; lia.
Qed.

Lemma Forall_bzip {A B C} (P : A -> Prop) (Q : B -> Prop) (R : C -> Prop)
    (f : A -> B -> C) xs ys :
  (forall x y, P x -> Q y -> R (f x y)) ->
  Forall P xs -> Forall Q ys -> Forall R (bzip f xs ys).
Proof.
  intros Hf HP HQ. apply Forall_forall. intros z Hz. apply list_elem_of_In in Hz.
  apply in_bzip in Hz as (x & y & Hx' & Hy' & ->).
  rewrite Forall_forall in HP. rewrite Forall_forall in HQ.
  apply Hf; [apply HP | apply HQ]; by apply list_elem_of_In.
Qed.

Lemma row_length_bop3 {A B C} (f : A -> B -> C) ka kb a b :
  row_length ka a -> row_length kb b -> compatible ka kb = true ->
  row_length (join ka kb) (bop3 f a b).
Proof.
  intros Ha Hb Hc. unfold row_length, bop3.
  eapply Forall_bzip; [|exact Ha|exact Hb]. intros ra rb Hra Hrb.
  eapply Forall_bzip; [|exact Hra|exact Hrb]. cbn beta. intros wa wb <- <-.
  by apply length_bzip.
Qed.

Lemma row_length_map3d {A B} (f : A -> B) k t :
  row_length k t -> row_length k (map3d f t).
Proof.
  intros H. unfold row_length, map3d.
  apply Forall_fmap. eapply Forall_impl; [exact H|]. intros rows Hrows. cbn.
  apply Forall_fmap. eapply Forall_impl; [exact Hrows|]. intros row <-. cbn.
  by rewrite length_map.
Qed.

Lemma row_length_sum_keepdim3 t : row_length 1 (sum_keepdim3 t).
Proof.
  unfold row_length, sum_keepdim3, sum_keepdim2.
  apply Forall_fmap, Forall_true. intros rows. cbn.
  apply Forall_fmap, Forall_true. done.
Qed.

Lemma Forall_zip_with {A B C} (P : A -> Prop) (Q : B -> Prop) (R : C -> Prop)
    (f : A -> B -> C) xs ys :
  (forall x y, P x -> Q y -> R (f x y)) ->
  Forall P xs -> Forall Q ys -> Forall R (zip_with f xs ys).
Proof.
  intros Hf HP HQ. apply Forall_forall. intros z Hz. apply list_elem_of_In in Hz.
  apply in_zip_with in Hz as (x & y & Hx' & Hy' & ->).
  rewrite Forall_forall in HP. rewrite Forall_forall in HQ.
  apply Hf; [apply HP | apply HQ]; by apply list_elem_of_In.
Qed.

Lemma row_length_mask_set k k' t mask v :
  row_length k t -> row_length k' mask -> (k =? k')%nat = true ->
  row_length k (mask_set t mask v).
Proof.
  intros Ht Hm Hk%Nat.eqb_eq. subst k'. unfold row_length, mask_set.
  eapply Forall_zip_with; [|exact Ht|exact Hm]. intros ra rb Hra Hrb.
  eapply Forall_zip_with; [|exact Hra|exact Hrb]. cbn beta. intros wa wb <- Hwb.
  rewrite length_zip_with. lia.
Qed.

Lemma chunk3_rows (n : nat) (l : T1) :
  (length l <= n)%nat -> Forall (fun row => length row = 3%nat) (chunk3 l).
Proof.
  revert l. induction n as [|n IH]; intros l Hl.
  - destruct l; [constructor | cbn in Hl; lia].
  - destruct l as [|a [|b [|c r]]]; cbn [chunk3]; try constructor; [done|].
    apply IH. cbn in Hl. lia.
Qed.

Lemma row_length_view_m1_1_3 (t : T2) : row_length 3 (view_m1_1_3 t).
Proof.
  unfold row_length, view_m1_1_3. apply Forall_fmap.
  eapply Forall_impl; [by apply (chunk3_rows (length (concat t)))|].
  intros row Hrow. cbn. by repeat constructor.
Qed.

Lemma row_length_view_m1_1_1 (t : T2) : row_length 1 (view_m1_1_1 t).
Proof.
  unfold row_length, view_m1_1_1. apply Forall_fmap, Forall_true. intros x. cbn.
  by repeat constructor.
Qed.

Ltac row_length_step HL :=
  first
    [ eapply row_length_bop3
    | eapply row_length_map3d
    | eapply row_length_sum_keepdim3
    | eapply row_length_mask_set
    | apply row_length_view_m1_1_3
    | apply row_length_view_m1_1_1
    | exact HL ].

Ltac row_length_solve HL :=
  unfold reflectance, guarded_specular, BrdfParametrization._calculate_NdotHs,
    specular_term, guard_bad_denominators, factor_mul, GTR, SmithG1, Fresnel,
    inner_product, normalize, cosNH2_of, smul, sadd, rsub, subs, divs, pow2, sqrt3;
  change (SFeqb (F32.double_of_Z 1) (F32.double_of_Z 1)) with true;
  cbv beta iota zeta; cbn [fst snd];
  match goal with
  | |- row_length _ ?t =>
      let H := fresh in
      eassert (H : row_length _ t); [repeat row_length_step HL; reflexivity | exact H]
  end.

Lemma reflectance_channels (K : kernels) (Ls : T3) (Vs normals diffuse albedo roughness : T2)
    (eta : option T2) :
  row_length 3 Ls ->
  row_length 3 (fst (reflectance K Ls Vs normals diffuse albedo roughness eta))
  /\ row_length 1 (snd (reflectance K Ls Vs normals diffuse albedo roughness eta))
  /\ row_length 3 (guarded_specular K Ls Vs normals albedo roughness eta).
Proof.
  intros HL. destruct eta as [eta|]; (split; [|split]); row_length_solve HL.
Qed.

(** *** Points of a batch *)

Lemma imap_lookup_total {A B} `{Inhabited B} (l : list A) (k : list B) :
  length k = length l -> imap (fun n _ => k !!! n) l = k.
Proof.
  intros Hlen. apply list_eq. intros i. rewrite list_lookup_imap.
  destruct (l !! i) as [a|] eqn:Hl; cbn.
  - assert (Hi : (i < length k)%nat) by (rewrite Hlen; by eapply lookup_lt_Some).
    destruct (lookup_lt_is_Some_2 k i Hi) as [b Hb].
    by rewrite (list_lookup_total_correct _ _ _ Hb), Hb.
  - symmetry. apply lookup_ge_None. rewrite Hlen. by apply lookup_ge_None.
Qed.

Lemma Forall_lookup_total_length (k : T2) (i n : nat) :
  Forall (fun row => length row = n) k -> (i < length k)%nat -> length (k !!! i) = n.
Proof.
  intros Hk Hi. destruct (lookup_lt_is_Some_2 k i Hi) as [b Hb].
  rewrite (list_lookup_total_correct _ _ _ Hb).
  by apply (Forall_lookup_1 _ _ _ _ Hk Hb).
Qed.

Section Batch.

Variables (Ls : T3) (Vs normals diffuse albedo roughness : T2) (eta : option T2).
Hypothesis Hvalid : valid_batch Ls Vs normals diffuse albedo roughness eta.

Let pts := batch_points Ls Vs normals diffuse albedo roughness eta.

Lemma eta_rows_valid :
  length (eta_rows Ls eta) = length Ls
  /\ Forall (fun row => length row = 1%nat) (eta_rows Ls eta).
Proof.
  destruct Hvalid as (_ & _ & _ & _ & _ & _ & _ & _ & _ & _ & _ & He).
  destruct eta as [e|]; cbn [eta_rows]; [done|].
  split; [by rewrite length_replicate|]. by apply Forall_replicate.
Qed.

Lemma batch_points_fields :
  map fst pts = Ls
  /\ map (fun p => p_view p.2) pts = Vs
  /\ map (fun p => p_normal p.2) pts = normals
  /\ map (fun p => p_diffuse p.2) pts = diffuse
  /\ map (fun p => p_albedo p.2) pts = albedo
  /\ map (fun p => p_roughness p.2) pts = roughness
  /\ map (fun p => p_eta p.2) pts = eta_rows Ls eta.
Proof.
  destruct Hvalid as (_ & HV & HN & HD & HA & HR & _).
  destruct eta_rows_valid as [HE _].
  subst pts. unfold batch_points.
  repeat split; rewrite fmap_imap; unfold compose; cbn [fst snd p_view p_normal p_diffuse
    p_albedo p_roughness p_eta]; [|by apply imap_lookup_total..].
  apply list_eq. intros i. rewrite list_lookup_imap. by destruct (Ls !! i).
Qed.

Lemma batch_points_shaped : Forall (fun p => well_shaped p.2) pts.
Proof.
  destruct Hvalid as (_ & HV & HN & HD & HA & HR & HV3 & HN3 & HD3 & HA3 & HR1 & _).
  destruct eta_rows_valid as [HE HE1].
  subst pts. unfold batch_points. apply Forall_lookup. intros i p Hp.
  rewrite list_lookup_imap in Hp.
  destruct (Ls !! i) as [lights|] eqn:Hl; [|done]. injection Hp as <-.
  assert (Hi : (i < length Ls)%nat) by (by eapply lookup_lt_Some).
  unfold well_shaped. cbn.
  repeat split; apply Forall_lookup_total_length; first [done | lia].
Qed.

Lemma batch_points_lookup (n : nat) (lights : T2) :
  Ls !! n = Some lights ->
  pts !! n = Some (lights, Point (Vs !!! n) (normals !!! n) (diffuse !!! n) (albedo !!! n)
                                 (roughness !!! n) (eta_rows Ls eta !!! n)).
Proof. intros Hl. subst pts. unfold batch_points. by rewrite list_lookup_imap, Hl. Qed.

End Batch.

Lemma denote_per_light_lookup {A} (pts : list (T2 * point)) (g : point -> T1 -> list A)
    (n l : nat) (lights : T2) (q : point) (light : T1) :
  pts !! n = Some (lights, q) -> lights !! l = Some light ->
  denote pts (PerLight g) !! n ≫= (.!! l) = Some (g q light).
Proof.
  intros Hp Hl. cbn [denote]. rewrite list_lookup_fmap, Hp. cbn.
  by rewrite list_lookup_fmap, Hl.
Qed.

Lemma batch_entry (K : kernels) (Ls : T3) (Vs normals diffuse albedo roughness : T2)
    (eta : option T2) (n l : nat) (lights : T2) (light : T1) :
  valid_batch Ls Vs normals diffuse albedo roughness eta ->
  Ls !! n = Some lights -> lights !! l = Some light ->
  exists x h s,
    reflectance K [[light]] [Vs !!! n] [normals !!! n] [diffuse !!! n] [albedo !!! n]
      [roughness !!! n] ((fun e => [e !!! n]) <$> eta)
    = ([[x]], [[h]])
    /\ guarded_specular K [[light]] [Vs !!! n] [normals !!! n] [albedo !!! n]
         [roughness !!! n] ((fun e => [e !!! n]) <$> eta)
       = [[s]]
    /\ fst (reflectance K Ls Vs normals diffuse albedo roughness eta) !! n ≫= (.!! l) = Some x
    /\ snd (reflectance K Ls Vs normals diffuse albedo roughness eta) !! n ≫= (.!! l) = Some h
    /\ guarded_specular K Ls Vs normals albedo roughness eta !! n ≫= (.!! l) = Some s.
Proof.
  intros Hvalid Hn Hl.
  destruct (reflectance_per_light K (bool_decide (is_Some eta))) as (g & gH & gS & Hg).
  pose proof (batch_points_fields Ls Vs normals diffuse albedo roughness eta Hvalid)
    as (HL & HV & HN & HD & HA & HR & HE).
  pose proof (batch_points_shaped Ls Vs normals diffuse albedo roughness eta Hvalid) as Hs.
  pose proof (batch_points_lookup Ls Vs normals diffuse albedo roughness eta n lights Hn) as Hp.
  set (pts := batch_points Ls Vs normals diffuse albedo roughness eta) in *.
  set (q := Point _ _ _ _ _ _) in Hp.
  assert (Heta : (if bool_decide (is_Some eta) then Some (map (fun p => p_eta p.2) pts) else None)
                 = eta).
  { rewrite HE. by destruct eta. }
  assert (Heta1 : (if bool_decide (is_Some eta)
                   then Some (map (fun p : T2 * point => p_eta p.2) [([light], q)]) else None)
                  = (fun e => [e !!! n]) <$> eta).
  { by destruct eta. }
  destruct (Hg pts Hs) as [Hbatch Hspec].
  rewrite HL, HV, HN, HD, HA, HR, Heta in Hbatch.
  rewrite HL, HV, HN, HA, HR, Heta in Hspec.
  assert (Hq : well_shaped q).
  { apply (Forall_lookup_1 _ _ _ _ Hs Hp). }
  destruct (Hg [([light], q)] ltac:(constructor; [exact Hq|constructor]))
    as [Hsingle Hspec1].
  rewrite Heta1 in Hsingle, Hspec1.
  exists (g q light), (gH q light), (gS q light).
  split; [exact Hsingle|]. split; [exact Hspec1|].
  rewrite Hbatch, Hspec. cbn [fst snd].
  repeat split; by apply denote_per_light_lookup with (lights := lights).
Qed.

(** *** What the method returns *)

Lemma CookTorrance_calculate_rhos_reflectance
    (K : kernels) (self : value) (Ls : T3) (Vs normals : T2)
    (items : list (string * value)) (diffuse albedo roughness : T2) (eta : option T2)
    (w : world) :
  holds_parameters w items diffuse albedo roughness eta ->
  call (CookTorrance.calculate_rhos K)
    [self; VArr3 Ls; VArr2 Vs; VArr2 normals; VDict items] w
  = (Ok (reflectance K Ls Vs normals diffuse albedo roughness eta), w).
Proof.
  intros (sitems & dt & st & rt & Hd & Hs & Ha & Hr & <- & <- & <- & He).
  rewrite call_bound by done. cbn [body CookTorrance.calculate_rhos parameters zip zip_with].
  unfold local3, local2, tensor_item, getitem, contains, as_tensor, load_name.
  cbn [dict_get String.eqb Ascii.eqb Bool.eqb].
  unfold reflectance, guarded_specular, BrdfParametrization._calculate_NdotHs. cbv zeta.
  py_unfold. rewrite Hd, Hs; cbn. rewrite Ha, Hr; cbn.
  destruct (dict_get sitems "eta") as [[et| | | | |]|] eqn:Heta; destruct eta as [e|];
    try done; cbn.
  by rewrite He.
Qed.

Lemma denote_per_light_shape {A} (pts : list (T2 * point)) (g : point -> T1 -> list A) :
  Forall2 (fun r lights => length r = length lights) (denote pts (PerLight g)) (map fst pts).
Proof.
  cbn [denote]. apply Forall2_fmap, Forall_Forall2_diag, Forall_forall.
  intros p _. by rewrite length_map.
Qed.

Lemma reflectance_lights (K : kernels) (Ls : T3) (Vs normals diffuse albedo roughness : T2)
    (eta : option T2) :
  valid_batch Ls Vs normals diffuse albedo roughness eta ->
  Forall2 (fun r lights => length r = length lights)
    (fst (reflectance K Ls Vs normals diffuse albedo roughness eta)) Ls
  /\ Forall2 (fun r lights => length r = length lights)
       (snd (reflectance K Ls Vs normals diffuse albedo roughness eta)) Ls.
Proof.
  intros Hvalid.
  destruct (reflectance_per_light K (bool_decide (is_Some eta))) as (g & gH & gS & Hg).
  pose proof (batch_points_fields Ls Vs normals diffuse albedo roughness eta Hvalid)
    as (HL & HV & HN & HD & HA & HR & HE).
  pose proof (batch_points_shaped Ls Vs normals diffuse albedo roughness eta Hvalid) as Hs.
  set (pts := batch_points Ls Vs normals diffuse albedo roughness eta) in *.
  assert (Heta : (if bool_decide (is_Some eta) then Some (map (fun p => p_eta p.2) pts) else None)
                 = eta).
  { rewrite HE. by destruct eta. }
  destruct (Hg pts Hs) as [Hbatch _].
  rewrite HL, HV, HN, HD, HA, HR, Heta in Hbatch. rewrite Hbatch. cbn [fst snd].
  pose proof (denote_per_light_shape pts g) as Hr.
  pose proof (denote_per_light_shape pts gH) as Hh.
  rewrite HL in Hr, Hh. by split.
Qed.

(** X17.  For a batch of N points with a row of every parameter tensor
    each, the entry of [CookTorrance.calculate_rhos] at point [n] and light
    [l], in rhos and in NdotHs, is what the method returns for that point
    and that light alone: no entry depends on the other points or the
    other lights of the batch. *)
Theorem CookTorrance_calculate_rhos_entry_by_entry
    (K : kernels) (self self1 : value) (Ls : T3) (Vs normals : T2)
    (items items1 : list (string * value)) (diffuse albedo roughness : T2)
    (eta : option T2) (w w1 : world) (n l : nat) (lights : T2) (light : T1) :
  holds_parameters w items diffuse albedo roughness eta ->
  valid_batch Ls Vs normals diffuse albedo roughness eta ->
  Ls !! n = Some lights -> lights !! l = Some light ->
  holds_parameters w1 items1 [diffuse !!! n] [albedo !!! n] [roughness !!! n]
    ((fun e => [e !!! n]) <$> eta) ->
  exists rhos NdotHs x h,
    call (CookTorrance.calculate_rhos K)
      [self; VArr3 Ls; VArr2 Vs; VArr2 normals; VDict items] w
    = (Ok (rhos, NdotHs), w)
    /\ call (CookTorrance.calculate_rhos K)
         [self1; VArr3 [[light]]; VArr2 [Vs !!! n]; VArr2 [normals !!! n]; VDict items1] w1
       = (Ok ([[x]], [[h]]), w1)
    /\ rhos !! n ≫= (.!! l) = Some x
    /\ NdotHs !! n ≫= (.!! l) = Some h.
Proof.
  intros Hp Hvalid Hn Hl Hp1.
  destruct (batch_entry K Ls Vs normals diffuse albedo roughness eta n l lights light
              Hvalid Hn Hl) as (x & h & s & Hsingle & _ & Hx & Hh & _).
  exists (fst (reflectance K Ls Vs normals diffuse albedo roughness eta)),
         (snd (reflectance K Ls Vs normals diffuse albedo roughness eta)), x, h.
  split; [|split; [|done]].
  - rewrite (CookTorrance_calculate_rhos_reflectance K self Ls Vs normals items
               diffuse albedo roughness eta w Hp).
    by destruct (reflectance K Ls Vs normals diffuse albedo roughness eta).
  - rewrite (CookTorrance_calculate_rhos_reflectance K self1 _ _ _ items1 _ _ _ _ w1 Hp1).
    by rewrite Hsingle.
Qed.

(** X18.  For a batch of N points, each with its lights as vectors of 3
    components and a row of every parameter tensor,
    [CookTorrance.calculate_rhos] returns rhos with one row of 3 channels
    and NdotHs with one row of a single entry for every light of every
    point (N x L x 3, and N x L x 1 as the docstring of
    [_calculate_NdotHs] has it, not the N x L of the docstring of
    [calculate_rhos]), and leaves the tensors as they were. *)
Theorem CookTorrance_calculate_rhos_shape
    (K : kernels) (self : value) (Ls : T3) (Vs normals : T2)
    (items : list (string * value)) (diffuse albedo roughness : T2)
    (eta : option T2) (w : world) :
  holds_parameters w items diffuse albedo roughness eta ->
  valid_batch Ls Vs normals diffuse albedo roughness eta ->
  exists rhos NdotHs,
    call (CookTorrance.calculate_rhos K)
      [self; VArr3 Ls; VArr2 Vs; VArr2 normals; VDict items] w
    = (Ok (rhos, NdotHs), w)
    /\ Forall2 (fun r lights => length r = length lights) rhos Ls
    /\ row_length 3 rhos
    /\ Forall2 (fun r lights => length r = length lights) NdotHs Ls
    /\ row_length 1 NdotHs.
Proof.
  intros Hp Hvalid.
  assert (HL : row_length 3 Ls) by apply Hvalid.
  exists (fst (reflectance K Ls Vs normals diffuse albedo roughness eta)),
         (snd (reflectance K Ls Vs normals diffuse albedo roughness eta)).
  destruct (reflectance_lights K Ls Vs normals diffuse albedo roughness eta Hvalid)
    as [Hr Hh].
  destruct (reflectance_channels K Ls Vs normals diffuse albedo roughness eta HL)
    as (Hr3 & Hh1 & _).
  split; [|done].
  rewrite (CookTorrance_calculate_rhos_reflectance K self Ls Vs normals items
             diffuse albedo roughness eta w Hp).
  by destruct (reflectance K Ls Vs normals diffuse albedo roughness eta).
Qed.

(** X19.  In a batch, an entry whose light is at or below the horizon of
    its point ([NdotL <= 0]), or whose camera is, gets no specular
    reflectance, whatever the parameters, the backend and the other
    entries: each channel of rhos there is the diffuse albedo of the point
    over pi, plus 0. *)
Theorem CookTorrance_rhos_entry_below_horizon
    (K : kernels) (self : value) (Ls : T3) (Vs normals : T2)
    (items : list (string * value)) (diffuse albedo roughness : T2)
    (eta : option T2) (w : world) (n l : nat) (lights : T2) (light : T1) :
  holds_parameters w items diffuse albedo roughness eta ->
  valid_batch Ls Vs normals diffuse albedo roughness eta ->
  Ls !! n = Some lights -> lights !! l = Some light ->
  Forall (fun c => F32.leb c F32.zero = true)
    (entries (inner_product [[normals !!! n]] [[light]]))
  \/ Forall (fun c => F32.leb c F32.zero = true)
       (entries (inner_product [[normals !!! n]] [[Vs !!! n]])) ->
  exists rhos NdotHs,
    call (CookTorrance.calculate_rhos K)
      [self; VArr3 Ls; VArr2 Vs; VArr2 normals; VDict items] w
    = (Ok (rhos, NdotHs), w)
    /\ rhos !! n ≫= (.!! l)
       = Some (map (fun d => F32.add (F32.div d (F32.of_double F32.np_pi)) F32.zero)
                 (diffuse !!! n)).
Proof.
  intros Hp Hvalid Hn Hl Hside.
  destruct (batch_entry K Ls Vs normals diffuse albedo roughness eta n l lights light
              Hvalid Hn Hl) as (x & h & s & Hsingle & Hspec & Hx & _ & _).
  exists (fst (reflectance K Ls Vs normals diffuse albedo roughness eta)),
         (snd (reflectance K Ls Vs normals diffuse albedo roughness eta)).
  split.
  { rewrite (CookTorrance_calculate_rhos_reflectance K self Ls Vs normals items
               diffuse albedo roughness eta w Hp).
    by destruct (reflectance K Ls Vs normals diffuse albedo roughness eta). }
  rewrite Hx. f_equal.
  assert (Hi : (n < length Ls)%nat) by (by eapply lookup_lt_Some).
  destruct Hvalid as (HL3 & HV & HN & HD & _ & _ & HV3 & HN3 & HD3 & _).
  assert (Hlight : length light = 3%nat).
  { apply (Forall_lookup_1 _ _ _ _ (Forall_lookup_1 _ _ _ _ HL3 Hn) Hl). }
  assert (Hv : length (Vs !!! n) = 3%nat)
    by (apply Forall_lookup_total_length; [done|lia]).
  assert (Hnorm : length (normals !!! n) = 3%nat)
    by (apply Forall_lookup_total_length; [done|lia]).
  assert (Hd : length (diffuse !!! n) = 3%nat)
    by (apply Forall_lookup_total_length; [done|lia]).
  assert (Hzero : Forall (fun c => c = F32.zero) s).
  { assert (H : Forall (fun c => c = F32.zero) (entries [[s]])).
    { rewrite <- Hspec. unfold guarded_specular, BrdfParametrization._calculate_NdotHs.
      cbv zeta. apply guard_of_all_nan, specular_term_all_nan_below_horizon.
      rewrite !view_m1_1_3_rows by (by repeat constructor). exact Hside. }
    unfold entries in H. cbn in H. by rewrite app_nil_r in H. }
  assert (Hs3 : length s = 3%nat).
  { pose proof (reflectance_channels K [[light]] [Vs !!! n] [normals !!! n]
                  [diffuse !!! n] [albedo !!! n] [roughness !!! n]
                  ((fun e => [e !!! n]) <$> eta)
                  ltac:(by repeat constructor)) as (_ & _ & H).
    rewrite Hspec in H. unfold row_length in H.
    by rewrite !Forall_singleton in H. }
  unfold reflectance in Hsingle. rewrite Hspec in Hsingle.
  rewrite view_m1_1_3_rows in Hsingle by (by repeat constructor).
  destruct (diffuse !!! n) as [|d0 [|d1 [|d2 [|? ?]]]]; try done.
  destruct s as [|s0 [|s1 [|s2 [|? ?]]]]; try done.
  apply Forall_cons in Hzero as [-> Hzero].
  apply Forall_cons in Hzero as [-> Hzero].
  apply Forall_cons in Hzero as [-> _].
  cbn in Hsingle. by injection Hsingle as <- _.
Qed.

(** ** Batches without a specular part *)

Lemma guarded_specular_unfold (K : kernels) (Ls : T3) (Vs normals albedo roughness : T2)
    (eta : option T2) :
  guarded_specular K Ls Vs normals albedo roughness eta
  = guard_bad_denominators (specular_before_guard K Ls Vs normals albedo roughness eta).
Proof. reflexivity. Qed.

Lemma CookTorrance_calculate_rhos_guarded
    (K : kernels) (self : value) (Ls : T3) (Vs normals : T2)
    (items : list (string * value)) (diffuse albedo roughness : T2) (eta : option T2)
    (w : world) :
  holds_parameters w items diffuse albedo roughness eta ->
  call (CookTorrance.calculate_rhos K)
    [self; VArr3 Ls; VArr2 Vs; VArr2 normals; VDict items] w
  = (Ok ((divs (view_m1_1_3 diffuse) (F32.of_double F32.np_pi)
          + guard_bad_denominators
              (specular_before_guard K Ls Vs normals albedo roughness eta))%T,
         snd (BrdfParametrization._calculate_NdotHs Ls Vs normals)),
     w).
Proof.
  intros Hp.
  by rewrite (CookTorrance_calculate_rhos_reflectance K self Ls Vs normals items
                diffuse albedo roughness eta w Hp).
Qed.

Lemma specular_all_nan_below_horizon (K : kernels) (Ls : T3)
    (Vs normals albedo roughness : T2) (eta : option T2) :
  Forall (fun c => F32.leb c F32.zero = true)
    (entries (inner_product (view_m1_1_3 normals) Ls))
  \/ Forall (fun c => F32.leb c F32.zero = true)
       (entries (inner_product (view_m1_1_3 normals) (view_m1_1_3 Vs))) ->
  Forall (fun x => x = F32.nan)
    (entries (specular_before_guard K Ls Vs normals albedo roughness eta)).
Proof.
  intros Hside. unfold specular_before_guard, BrdfParametrization._calculate_NdotHs.
  cbv zeta. by apply specular_term_all_nan_below_horizon.
Qed.

Lemma specular_all_nan_at_unit_roughness (K : kernels) (Ls : T3)
    (Vs normals albedo roughness : T2) (eta : option T2) :
  F32.is_zero (k_log K F32.one) = true ->
  Forall (fun x => x = F32.one) (concat roughness) ->
  Forall (fun x => x = F32.nan)
    (entries (specular_before_guard K Ls Vs normals albedo roughness eta)).
Proof.
  intros Hlog Hr. unfold specular_before_guard, BrdfParametrization._calculate_NdotHs.
  cbv zeta. by apply specular_term_all_nan_at_unit_roughness.
Qed.

(** Where the specular term of a point and a light alone is NaN, the
    entry of the batch is the diffuse term plus 0. *)
Lemma reflectance_entry_without_specular (K : kernels) (Ls : T3)
    (Vs normals diffuse albedo roughness : T2) (eta : option T2)
    (n l : nat) (lights : T2) (light : T1) :
  valid_batch Ls Vs normals diffuse albedo roughness eta ->
  Ls !! n = Some lights -> lights !! l = Some light ->
  Forall (fun x => x = F32.nan)
    (entries (specular_before_guard K [[light]] [Vs !!! n] [normals !!! n]
                [albedo !!! n] [roughness !!! n] ((fun e => [e !!! n]) <$> eta))) ->
  fst (reflectance K Ls Vs normals diffuse albedo roughness eta) !! n ≫= (.!! l)
  = Some (diffuse_only (diffuse !!! n)).
Proof.
  intros Hvalid Hn Hl Hnan.
  destruct (batch_entry K Ls Vs normals diffuse albedo roughness eta n l lights light
              Hvalid Hn Hl) as (x & h & s & Hsingle & Hspec & Hx & _ & _).
  rewrite Hx. f_equal.
  assert (Hi : (n < length Ls)%nat) by (by eapply lookup_lt_Some).
  destruct Hvalid as (HL3 & HV & HN & HD & _ & _ & HV3 & HN3 & HD3 & _).
  assert (Hlight : length light = 3%nat).
  { apply (Forall_lookup_1 _ _ _ _ (Forall_lookup_1 _ _ _ _ HL3 Hn) Hl). }
  assert (Hd : length (diffuse !!! n) = 3%nat)
    by (apply Forall_lookup_total_length; [done|lia]).
  assert (Hzero : Forall (fun c => c = F32.zero) s).
  { assert (H : Forall (fun c => c = F32.zero) (entries [[s]])).
    { rewrite <- Hspec, guarded_specular_unfold. by apply guard_of_all_nan. }
    unfold entries in H. cbn in H. by rewrite app_nil_r in H. }
  assert (Hs3 : length s = 3%nat).
  { pose proof (reflectance_channels K [[light]] [Vs !!! n] [normals !!! n]
                  [diffuse !!! n] [albedo !!! n] [roughness !!! n]
                  ((fun e => [e !!! n]) <$> eta)
                  ltac:(by repeat constructor)) as (_ & _ & H).
    rewrite Hspec in H. unfold row_length in H.
    by rewrite !Forall_singleton in H. }
  unfold reflectance in Hsingle. rewrite Hspec in Hsingle.
  rewrite view_m1_1_3_rows in Hsingle by (by repeat constructor).
  unfold diffuse_only.
  destruct (diffuse !!! n) as [|d0 [|d1 [|d2 [|? ?]]]]; try done.
  destruct s as [|s0 [|s1 [|s2 [|? ?]]]]; try done.
  apply Forall_cons in Hzero as [-> Hzero].
  apply Forall_cons in Hzero as [-> Hzero].
  apply Forall_cons in Hzero as [-> _].
  cbn in Hsingle. by injection Hsingle as <- _.
Qed.

Lemma specular_per_light (K : kernels) (has_eta : bool) :
  exists gU : point -> T1 -> T1,
    forall pts : list (T2 * point),
      Forall (fun p => well_shaped p.2) pts ->
      specular_before_guard K (map fst pts)
        (map (fun p => p_view p.2) pts) (map (fun p => p_normal p.2) pts)
        (map (fun p => p_albedo p.2) pts) (map (fun p => p_roughness p.2) pts)
        (if has_eta then Some (map (fun p => p_eta p.2) pts) else None)
      = denote pts (PerLight gU).
Proof.
  destruct has_eta; eexists; intros pts Hs; unfold specular_before_guard;
    per_point_solve Hs.
Qed.

Lemma Forall_entries_lookup (P : float -> Prop) (t : T3) (n l : nat) (row : T1) :
  Forall P (entries t) -> t !! n ≫= (.!! l) = Some row -> Forall P row.
Proof.
  intros H Hrow. destruct (t !! n) as [rows|] eqn:Hn; [|done]. cbn in Hrow.
  apply Forall_forall. intros x Hx.
  apply (proj1 (Forall_forall _ _) H). unfold entries.
  apply list_elem_of_In, in_concat. exists row. split; [|by apply list_elem_of_In].
  apply in_concat. exists rows.
  split; apply list_elem_of_In; by eapply list_elem_of_lookup_2.
Qed.

(** The specular term of an entry of a batch is the specular term of its
    point and light alone. *)
Lemma specular_entry_all_nan (K : kernels) (Ls : T3)
    (Vs normals diffuse albedo roughness : T2) (eta : option T2)
    (n l : nat) (lights : T2) (light : T1) :
  valid_batch Ls Vs normals diffuse albedo roughness eta ->
  Ls !! n = Some lights -> lights !! l = Some light ->
  Forall (fun x => x = F32.nan)
    (entries (specular_before_guard K Ls Vs normals albedo roughness eta)) ->
  Forall (fun x => x = F32.nan)
    (entries (specular_before_guard K [[light]] [Vs !!! n] [normals !!! n]
                [albedo !!! n] [roughness !!! n] ((fun e => [e !!! n]) <$> eta))).
Proof.
  intros Hvalid Hn Hl Hnan.
  destruct (specular_per_light K (bool_decide (is_Some eta))) as (gU & Hg).
  pose proof (batch_points_fields Ls Vs normals diffuse albedo roughness eta Hvalid)
    as (HL & HV & HN & HD & HA & HR & HE).
  pose proof (batch_points_shaped Ls Vs normals diffuse albedo roughness eta Hvalid) as Hs.
  pose proof (batch_points_lookup Ls Vs normals diffuse albedo roughness eta n lights Hn) as Hp.
  set (pts := batch_points Ls Vs normals diffuse albedo roughness eta) in *.
  set (q := Point _ _ _ _ _ _) in Hp.
  assert (Heta : (if bool_decide (is_Some eta) then Some (map (fun p => p_eta p.2) pts) else None)
                 = eta).
  { rewrite HE. by destruct eta. }
  assert (Heta1 : (if bool_decide (is_Some eta)
                   then Some (map (fun p : T2 * point => p_eta p.2) [([light], q)]) else None)
                  = (fun e => [e !!! n]) <$> eta).
  { by destruct eta. }
  pose proof (Hg pts Hs) as Hbatch.
  rewrite HL, HV, HN, HA, HR, Heta in Hbatch.
  assert (Hq : well_shaped q).
  { apply (Forall_lookup_1 _ _ _ _ Hs Hp). }
  pose proof (Hg [([light], q)] ltac:(constructor; [exact Hq|constructor])) as Hsingle.
  rewrite Heta1 in Hsingle. cbn [map fst snd q p_view p_normal p_albedo p_roughness] in Hsingle.
  rewrite Hsingle.
  change (entries (denote [([light], q)] (PerLight gU)))
    with (gU q light ++ []).
  rewrite app_nil_r.
  rewrite Hbatch in Hnan.
  apply (Forall_entries_lookup _ _ n l _ Hnan).
  by apply denote_per_light_lookup with (lights := lights).
Qed.

(** Without a specular term the batch has the diffuse term of each point
    under each of its lights. *)
Lemma reflectance_without_specular (K : kernels) (Ls : T3)
    (Vs normals diffuse albedo roughness : T2) (eta : option T2) :
  valid_batch Ls Vs normals diffuse albedo roughness eta ->
  Forall (fun x => x = F32.nan)
    (entries (specular_before_guard K Ls Vs normals albedo roughness eta)) ->
  fst (reflectance K Ls Vs normals diffuse albedo roughness eta) = diffuse_rhos Ls diffuse.
Proof.
  intros Hvalid Hnan.
  destruct (reflectance_lights K Ls Vs normals diffuse albedo roughness eta Hvalid)
    as [Hshape _].
  set (rhos := fst (reflectance K Ls Vs normals diffuse albedo roughness eta)) in *.
  assert (Hentry : forall n l lights light,
             Ls !! n = Some lights -> lights !! l = Some light ->
             rhos !! n ≫= (.!! l) = Some (diffuse_only (diffuse !!! n))).
  { intros n l lights light Hn Hl. subst rhos.
    apply (reflectance_entry_without_specular K Ls Vs normals diffuse albedo roughness eta
             n l lights light Hvalid Hn Hl).
    by apply (specular_entry_all_nan K Ls Vs normals diffuse albedo roughness eta
                n l lights light). }
  clearbody rhos. unfold diffuse_rhos. apply list_eq. intros n.
  rewrite list_lookup_imap.
  destruct (Ls !! n) as [lights|] eqn:Hn; cbn.
  - destruct (Forall2_lookup_r _ _ _ _ _ Hshape Hn) as (r & Hr & Hlen).
    rewrite Hr. f_equal. apply list_eq. intros l. rewrite list_lookup_fmap.
    destruct (lights !! l) as [light|] eqn:Hl; cbn.
    + specialize (Hentry n l lights light Hn Hl). by rewrite Hr in Hentry.
    + apply lookup_ge_None. rewrite Hlen. by apply lookup_ge_None.
  - apply lookup_ge_None. rewrite (Forall2_length _ _ _ Hshape). by apply lookup_ge_None.
Qed.

Lemma CookTorrance_calculate_rhos_without_specular
    (K : kernels) (self : value) (Ls : T3) (Vs normals : T2)
    (items : list (string * value)) (diffuse albedo roughness : T2) (eta : option T2)
    (w : world) :
  holds_parameters w items diffuse albedo roughness eta ->
  valid_batch Ls Vs normals diffuse albedo roughness eta ->
  Forall (fun x => x = F32.nan)
    (entries (specular_before_guard K Ls Vs normals albedo roughness eta)) ->
  call (CookTorrance.calculate_rhos K)
    [self; VArr3 Ls; VArr2 Vs; VArr2 normals; VDict items] w
  = (Ok (diffuse_rhos Ls diffuse, snd (BrdfParametrization._calculate_NdotHs Ls Vs normals)),
     w).
Proof.
  intros Hp Hvalid Hnan.
  rewrite (CookTorrance_calculate_rhos_reflectance K self Ls Vs normals items
             diffuse albedo roughness eta w Hp).
  rewrite <- (reflectance_without_specular K Ls Vs normals diffuse albedo roughness eta
                Hvalid Hnan).
  unfold reflectance. reflexivity.
Qed.

(** C4 (as amended).  For a batch of the documented shapes
    [CookTorrance.calculate_rhos] returns the diffuse term plus the
    specular term in which exactly the NaN entries are replaced with 0 and
    every other entry, the infinite ones included, is kept: the guarded
    term holds no NaN, and the returned rhos holds no NaN wherever the
    diffuse term is finite. *)
Theorem CookTorrance_calculate_rhos_guards_NaN
    (K : kernels) (self : value) (Ls : T3) (Vs normals : T2)
    (items : list (string * value)) (diffuse albedo roughness : T2) (eta : option T2)
    (w : world) :
  holds_parameters w items diffuse albedo roughness eta ->
  valid_batch Ls Vs normals diffuse albedo roughness eta ->
  call (CookTorrance.calculate_rhos K)
    [self; VArr3 Ls; VArr2 Vs; VArr2 normals; VDict items] w
  = (Ok ((divs (view_m1_1_3 diffuse) (F32.of_double F32.np_pi)
          + map3d nan_to_zero
              (specular_before_guard K Ls Vs normals albedo roughness eta))%T,
         snd (BrdfParametrization._calculate_NdotHs Ls Vs normals)),
     w)
  /\ nan_to_zero F32.nan = F32.zero
  /\ (forall x, F32.is_nan x = false -> nan_to_zero x = x)
  /\ Forall (fun x => F32.is_nan x = false)
       (entries (map3d nan_to_zero
                   (specular_before_guard K Ls Vs normals albedo roughness eta)))
  /\ (Forall (fun x => F32.is_finite x = true)
        (entries (divs (view_m1_1_3 diffuse) (F32.of_double F32.np_pi))) ->
      Forall (fun x => F32.is_nan x = false)
        (entries (divs (view_m1_1_3 diffuse) (F32.of_double F32.np_pi)
                  + map3d nan_to_zero
                      (specular_before_guard K Ls Vs normals albedo roughness eta))%T)).
Proof.
  intros Hp _.
  split.
  { rewrite (CookTorrance_calculate_rhos_guarded K self Ls Vs normals items
               diffuse albedo roughness eta w Hp).
    by rewrite guard_bad_denominators_nan_to_zero. }
  split; [done|]. split.
  { intros x Hx. unfold nan_to_zero. by rewrite Hx. }
  split.
  - apply Forall_forall. intros z Hz. apply list_elem_of_In in Hz.
    apply in_entries_map3d in Hz as (x & _ & ->). apply nan_to_zero_not_nan.
  - intros HD. apply Forall_forall. intros z Hz. apply list_elem_of_In in Hz.
    apply in_entries_bop3 in Hz as (x & y & Hx & Hy & ->).
    apply add_finite_not_nan.
    + rewrite Forall_forall in HD. apply HD. by apply list_elem_of_In.
    + apply in_entries_map3d in Hy as (y' & _ & ->). apply nan_to_zero_not_nan.
Qed.

(** X5.  For a batch of the documented shapes in which every light is at
    or below the horizon of its point ([NdotL <= 0]), or every view
    direction is, the specular term of [CookTorrance.calculate_rhos] is
    NaN ([0 / 0]) in every entry, whatever the parameters and the backend,
    and the method returns, for every light of every point, the diffuse
    albedo of the point over pi plus 0. *)
Theorem CookTorrance_rhos_diffuse_below_horizon
    (K : kernels) (self : value) (Ls : T3) (Vs normals : T2)
    (items : list (string * value)) (diffuse albedo roughness : T2) (eta : option T2)
    (w : world) :
  holds_parameters w items diffuse albedo roughness eta ->
  valid_batch Ls Vs normals diffuse albedo roughness eta ->
  Forall (fun c => F32.leb c F32.zero = true)
    (entries (inner_product (view_m1_1_3 normals) Ls))
  \/ Forall (fun c => F32.leb c F32.zero = true)
       (entries (inner_product (view_m1_1_3 normals) (view_m1_1_3 Vs))) ->
  Forall (fun x => x = F32.nan)
    (entries (specular_before_guard K Ls Vs normals albedo roughness eta))
  /\ call (CookTorrance.calculate_rhos K)
       [self; VArr3 Ls; VArr2 Vs; VArr2 normals; VDict items] w
     = (Ok (diffuse_rhos Ls diffuse,
            snd (BrdfParametrization._calculate_NdotHs Ls Vs normals)),
        w).
Proof.
  intros Hp Hvalid Hside.
  pose proof (specular_all_nan_below_horizon K Ls Vs normals albedo roughness eta Hside)
    as Hnan.
  split; [done|].
  exact (CookTorrance_calculate_rhos_without_specular K self Ls Vs normals items
           diffuse albedo roughness eta w Hp Hvalid Hnan).
Qed.

Lemma sq_unit_roughness (roughness : T2) :
  Forall (fun x => x = F32.one) (concat roughness) ->
  Forall (fun x => x = F32.one) (concat (map2d sq roughness)).
Proof.
  intros Hr. unfold map2d. induction roughness as [|row r IH]; [done|].
  cbn in Hr |- *. apply Forall_app in Hr as [Hrow Hr].
  apply Forall_app. split; [|by apply IH].
  apply Forall_fmap. eapply Forall_impl; [exact Hrow|]. by intros x ->.
Qed.

(** X6.  For a batch of the documented shapes with a roughness parameter
    of exactly 1 at every point, and a backend whose logarithm of 1 is 0,
    the factor [(alpha^2 - 1) / log(alpha^2)] of [GTR] is [0 / 0]: the
    distribution and the specular term of [CookTorrance.calculate_rhos]
    are NaN in every entry, and the method returns, for every light of
    every point, the diffuse albedo of the point over pi plus 0. *)
Theorem CookTorrance_rhos_diffuse_at_unit_roughness
    (K : kernels) (self : value) (Ls : T3) (Vs normals : T2)
    (items : list (string * value)) (diffuse albedo roughness : T2) (eta : option T2)
    (w : world) :
  holds_parameters w items diffuse albedo roughness eta ->
  valid_batch Ls Vs normals diffuse albedo roughness eta ->
  F32.is_zero (k_log K F32.one) = true ->
  Forall (fun x => x = F32.one) (concat roughness) ->
  Forall (fun x => x = F32.nan)
    (entries (GTR K (snd (BrdfParametrization._calculate_NdotHs Ls Vs normals))
                (map2d sq roughness) (F32.double_of_Z 1)))
  /\ Forall (fun x => x = F32.nan)
       (entries (specular_before_guard K Ls Vs normals albedo roughness eta))
  /\ call (CookTorrance.calculate_rhos K)
       [self; VArr3 Ls; VArr2 Vs; VArr2 normals; VDict items] w
     = (Ok (diffuse_rhos Ls diffuse,
            snd (BrdfParametrization._calculate_NdotHs Ls Vs normals)),
        w).
Proof.
  intros Hp Hvalid Hlog Hone.
  pose proof (specular_all_nan_at_unit_roughness K Ls Vs normals albedo roughness eta
                Hlog Hone) as Hnan.
  split; [|split; [done|]].
  - apply GTR_unit_roughness; [done|]. by apply sq_unit_roughness.
  - exact (CookTorrance_calculate_rhos_without_specular K self Ls Vs normals items
             diffuse albedo roughness eta w Hp Hvalid Hnan).
Qed.

(** *** A freshly initialized material *)

Lemma uniform_weights_two (nr_points : nat) :
  uniform_weights nr_points 2 = replicate nr_points [half; half].
Proof.
  unfold uniform_weights, ones, map2d. rewrite fmap_replicate. reflexivity.
Qed.

Lemma matmul_uniform_ones_3 (nr_points : nat) :
  matmul (replicate nr_points [half; half]) (ones 2 3) = ones nr_points 3.
Proof.
  unfold matmul, ones. rewrite fmap_replicate. f_equal.
Qed.

Lemma matmul_uniform_ones_1 (nr_points : nat) :
  matmul (replicate nr_points [half; half]) (ones 2 1) = ones nr_points 1.
Proof.
  unfold matmul, ones. rewrite fmap_replicate. f_equal.
Qed.

Lemma concat_ones_1 (n : nat) : Forall (fun x => x = F32.one) (concat (ones n 1)).
Proof. unfold ones. induction n as [|n IH]; cbn; [done|]. by constructor. Qed.

(** X16.  [initialize] with the default two bases, then
    [get_brdf_parameters], then [CookTorrance.calculate_rhos] on the
    dictionary it returns and a batch of the documented shapes: the
    weights 0.5, 0.5 mix the all-ones bases into an albedo, a roughness
    and an [eta] of exactly 1 at every point, so with a backend whose
    logarithm of 1 is 0 the specular term is NaN in every entry and the
    reflectance of the fresh material is, for every light of every point,
    the diffuse estimate of the point over pi plus 0. *)
Theorem fresh_CookTorrance_material_is_purely_diffuse
    (K : kernels) (w : world) (self : nat) (o : instance)
    (nr_points : nat) (diffuse_materials : tensor) (Ls : T3) (Vs normals : T2) :
  objects w !! self = Some o ->
  brdf_parametrization o = ClsCookTorrance ->
  (storage diffuse_materials < length (heap w))%nat ->
  (forall c, lru w <> Some (self, c)) ->
  F32.is_zero (k_log K F32.one) = true ->
  valid_batch Ls Vs normals (heap w !!! storage diffuse_materials)
    (ones nr_points 3) (ones nr_points 1) (Some (ones nr_points 1)) ->
  exists w1 w2 items,
    BaseSpecularMaterials.initialize K self nr_points diffuse_materials 2 w = (Ok tt, w1)
    /\ BaseSpecularMaterials.get_brdf_parameters self w1 = (Ok (VDict items), w2)
    /\ holds_parameters w2 items (heap w !!! storage diffuse_materials)
         (ones nr_points 3) (ones nr_points 1) (Some (ones nr_points 1))
    /\ Forall (fun x => x = F32.nan)
         (entries (specular_before_guard K Ls Vs normals
                     (ones nr_points 3) (ones nr_points 1) (Some (ones nr_points 1))))
    /\ call (CookTorrance.calculate_rhos K)
         [VObj ClsCookTorrance; VArr3 Ls; VArr2 Vs; VArr2 normals; VDict items] w2
       = (Ok (diffuse_rhos Ls (heap w !!! storage diffuse_materials),
              snd (BrdfParametrization._calculate_NdotHs Ls Vs normals)),
          w2).
Proof.
  intros Ho Hbp Hd Hmiss Hlog Hvalid.
  pose proof (initialize_run K w self o nr_points diffuse_materials 2 Ho) as Hinit.
  rewrite Hbp in Hinit. cbn [specular_fields map imap length app fst snd] in Hinit.
  destruct w as [h objs l]. cbn [heap objects lru] in *.
  assert (Hself : (self < length objs)%nat) by (by eapply lookup_lt_Some).
  set (h1 := h ++ [ones 2 3; ones 2 1; ones 2 1; uniform_weights nr_points 2]) in *.
  set (specs := [("albedo", Tensor (length h + 0) true);
                 ("roughness", Tensor (length h + 1) true);
                 ("eta", Tensor (length h + 2) true)]) in *.
  set (o1 := Instance ClsCookTorrance
               (Some (param_dict (Tensor (storage diffuse_materials) true) specs))
               (Some (Tensor (length h + 3) true))) in *.
  assert (Hlen1 : length h1 = (length h + 4)%nat).
  { subst h1. rewrite length_app. reflexivity. }
  assert (Hget : forall i : nat, (i < 4)%nat ->
            h1 !!! (length h + i)%nat
            = [ones 2 3; ones 2 1; ones 2 1; uniform_weights nr_points 2] !!! i).
  { intros i Hi. subst h1. rewrite lookup_total_app_r by lia.
    by replace (length h + i - length h)%nat with i by lia. }
  pose proof (get_brdf_parameters_uncached_run h1 (<[self := o1]> objs) self o1
                ltac:(by apply list_lookup_insert_eq)
                (Tensor (storage diffuse_materials) true) (Tensor (length h + 3) true)
                specs l eq_refl eq_refl
                ltac:(cbn; lia)
                ltac:(subst specs; repeat constructor; cbn; lia)) as Hrun.
  pose proof (lru_cache_1_miss _ self (World h1 (<[self := o1]> objs) l) _ _ Hmiss Hrun)
    as Hcached.
  fold BaseSpecularMaterials.get_brdf_parameters in Hcached.
  cbn [heap objects] in Hcached.
  set (h2 := h1 ++ _) in *.
  match type of Hcached with _ = (_, ?w0) => set (w2 := w0) in * end.
  assert (Hmixed : forall i : nat, (i < 3)%nat ->
            h2 !!! (length h1 + i)%nat
            = matmul (replicate nr_points [half; half])
                ([ones 2 3; ones 2 1; ones 2 1] !!! i)).
  { intros i Hi. subst h2. rewrite lookup_total_app_r by lia.
    replace (length h1 + i - length h1)%nat with i by lia.
    subst specs. cbn [map snd storage].
    rewrite (Hget 3%nat), (Hget 0%nat), (Hget 1%nat), (Hget 2%nat) by lia.
    cbn [lookup_total list_lookup_total]. rewrite uniform_weights_two.
    by destruct i as [|[|[|i]]]; try lia. }
  assert (Halbedo : h2 !!! length h1 = ones nr_points 3).
  { rewrite <- (Nat.add_0_r (length h1)), (Hmixed 0%nat) by lia.
    apply matmul_uniform_ones_3. }
  assert (Hrough : h2 !!! S (length h1) = ones nr_points 1).
  { replace (S (length h1)) with (length h1 + 1)%nat by lia.
    rewrite (Hmixed 1%nat) by lia. apply matmul_uniform_ones_1. }
  assert (Heta : h2 !!! S (S (length h1)) = ones nr_points 1).
  { replace (S (S (length h1))) with (length h1 + 2)%nat by lia.
    rewrite (Hmixed 2%nat) by lia. apply matmul_uniform_ones_1. }
  assert (Hdiff : h2 !!! storage diffuse_materials = h !!! storage diffuse_materials).
  { subst h2 h1. by rewrite !lookup_total_app_l by (rewrite ?length_app; lia). }
  assert (Hholds : holds_parameters w2
            [("diffuse", VTensor (Tensor (storage diffuse_materials) true));
             ("specular", VDict (mixed_items (length h1) true specs))]
            (h !!! storage diffuse_materials)
            (ones nr_points 3) (ones nr_points 1) (Some (ones nr_points 1))).
  { exists (mixed_items (length h1) true specs),
           (Tensor (storage diffuse_materials) true),
           (Tensor (length h1) true), (Tensor (S (length h1)) true).
    subst w2. cbn [heap storage]. repeat split; try done. }
  pose proof (specular_all_nan_at_unit_roughness K Ls Vs normals
                (ones nr_points 3) (ones nr_points 1) (Some (ones nr_points 1))
                Hlog (concat_ones_1 nr_points)) as Hnan.
  exists (World h1 (<[self := o1]> objs) l), w2. eexists.
  split; [exact Hinit|]. split; [exact Hcached|]. split; [exact Hholds|].
  split; [exact Hnan|].
  exact (CookTorrance_calculate_rhos_without_specular K (VObj ClsCookTorrance)
           Ls Vs normals _ _ _ _ _ w2 Hholds Hvalid Hnan).
Qed.

(** ** Weight rows with a positive entry *)

(** The rounding of binary32, as far as the order of sums and quotients
    needs it. *)

(** *** Digits *)

Lemma Zdigits2_log2 (m : Z) : 0 < m -> Zdigits2 m = Z.log2 m + 1.
Proof.
  destruct m as [|p|p]; try lia. intros _. cbn [Zdigits2].
  induction p as [p IH|p IH|]; cbn [digits2_pos]; [| |done].
  - rewrite Pos2Z.inj_succ, IH.
    change (Z.pos p~1) with (2 * Z.pos p + 1).
    rewrite Z.log2_succ_double by lia. lia.
  - rewrite Pos2Z.inj_succ, IH.
    change (Z.pos p~0) with (2 * Z.pos p).
    rewrite Z.log2_double by lia. lia.
Qed.

Lemma Zdigits2_spec (m : Z) : 0 < m -> 2 ^ (Zdigits2 m - 1) <= m < 2 ^ Zdigits2 m.
Proof.
  intros H. rewrite Zdigits2_log2 by done.
  replace (Z.log2 m + 1 - 1) with (Z.log2 m) by lia.
  apply (Z.log2_spec m H).
Qed.

Lemma Zdigits2_unique (m d : Z) : 2 ^ (d - 1) <= m < 2 ^ d -> 0 < d -> Zdigits2 m = d.
Proof.
  intros H Hd. assert (0 < m) by (pose proof (Z.pow_pos_nonneg 2 (d - 1)); lia).
  rewrite Zdigits2_log2 by done.
  rewrite (Z.log2_unique m (d - 1)); [lia|lia|].
  by replace (Z.succ (d - 1)) with d by lia.
Qed.

Lemma Zdigits2_pos (m : Z) : 0 < m -> 0 < Zdigits2 m.
Proof. intros H. rewrite Zdigits2_log2 by done. pose proof (Z.log2_nonneg m). lia. Qed.

Lemma Zdigits2_le (m n : Z) : 0 < m -> 0 <= n -> (m < 2 ^ n <-> Zdigits2 m <= n).
Proof.
  intros Hm Hn. pose proof (Zdigits2_spec m Hm) as [Hlo Hhi].
  pose proof (Zdigits2_pos m Hm). split; intros H1.
  - destruct (Z.le_gt_cases (Zdigits2 m) n) as [|Hgt]; [done|].
    assert (2 ^ n <= 2 ^ (Zdigits2 m - 1)) by (apply Z.pow_le_mono_r; lia). lia.
  - assert (2 ^ Zdigits2 m <= 2 ^ n) by (apply Z.pow_le_mono_r; lia). lia.
Qed.

Lemma Zdigits2_div (m n : Z) :
  0 <= n -> 2 ^ n <= m -> Zdigits2 (m / 2 ^ n) = Zdigits2 m - n.
Proof.
  intros Hn Hm.
  assert (Hp : 0 < 2 ^ n) by (by apply Z.pow_pos_nonneg).
  assert (H0 : 0 < m) by lia.
  assert (Hq : 0 < m / 2 ^ n) by (apply Z.div_str_pos; lia).
  rewrite !Zdigits2_log2 by done.
  rewrite <- Z.shiftr_div_pow2 by done.
  rewrite Z.log2_shiftr by done.
  assert (n <= Z.log2 m) by (apply Z.log2_le_pow2; lia). lia.
Qed.

Lemma Zdigits2_succ (m : Z) :
  0 < m ->
  Zdigits2 (m + 1) = Zdigits2 m
  \/ (m + 1 = 2 ^ Zdigits2 m /\ Zdigits2 (m + 1) = Zdigits2 m + 1).
Proof.
  intros Hm. pose proof (Zdigits2_spec m Hm) as [Hlo Hhi].
  pose proof (Zdigits2_pos m Hm) as Hd.
  destruct (Z.eq_dec (m + 1) (2 ^ Zdigits2 m)) as [Heq|Hne].
  - right. split; [done|]. apply Zdigits2_unique; [|lia].
    replace (Zdigits2 m + 1 - 1) with (Zdigits2 m) by lia.
    rewrite Z.pow_add_r by lia. lia.
  - left. apply Zdigits2_unique; lia.
Qed.

(** *** Shifts *)

Lemma iter_pos_nat {A} (f : A -> A) (n : positive) (x : A) :
  SpecFloat.iter_pos f n x = Nat.iter (Pos.to_nat n) f x.
Proof.
  revert x. induction n as [n IH|n IH|]; intros x; cbn [SpecFloat.iter_pos]; [| |done].
  - rewrite !IH, Pos2Nat.inj_xI.
    replace (S (2 * Pos.to_nat n)) with (Pos.to_nat n + (Pos.to_nat n + 1))%nat by lia.
    rewrite !Nat.iter_add. done.
  - rewrite !IH, Pos2Nat.inj_xO.
    replace (2 * Pos.to_nat n)%nat with (Pos.to_nat n + Pos.to_nat n)%nat by lia.
    by rewrite Nat.iter_add.
Qed.

Lemma shr_1_spec (mrs : shr_record) :
  0 <= shr_m mrs ->
  shr_1 mrs = Build_shr_record (shr_m mrs / 2) (Z.odd (shr_m mrs)) (shr_r mrs || shr_s mrs).
Proof.
  destruct mrs as [[|[p|p|]|p] r s]; cbn [shr_m shr_r shr_s shr_1]; intros H; try lia;
    f_equal.
  - change (Z.pos p~1) with (2 * Z.pos p + 1).
    rewrite Z.mul_comm, Z.div_add_l by lia. done.
  - change (Z.pos p~0) with (2 * Z.pos p).
    by rewrite Z.mul_comm, Z.div_mul by lia.
Qed.

Lemma shr_iter_m (k : nat) (mrs : shr_record) :
  0 <= shr_m mrs ->
  shr_m (Nat.iter k shr_1 mrs) = shr_m mrs / 2 ^ Z.of_nat k.
Proof.
  intros H. induction k as [|k IH]; [by rewrite Z.div_1_r|].
  change (Nat.iter (S k) shr_1 mrs) with (shr_1 (Nat.iter k shr_1 mrs)).
  assert (H0 : 0 <= shr_m (Nat.iter k shr_1 mrs)).
  { rewrite IH. apply Z.div_pos; [done|]. apply Z.pow_pos_nonneg; lia. }
  rewrite shr_1_spec by done. cbn [shr_m]. rewrite IH.
  assert (Hp : 0 < 2 ^ Z.of_nat k) by (apply Z.pow_pos_nonneg; lia).
  rewrite Nat2Z.inj_succ, Z.pow_succ_r by lia.
  rewrite Z.div_div by lia.
  f_equal. lia.
Qed.

Lemma shr_iter_exact (k : nat) (mrs : shr_record) :
  0 <= shr_m mrs -> shr_r mrs = false -> shr_s mrs = false ->
  shr_m mrs mod 2 ^ Z.of_nat k = 0 ->
  shr_r (Nat.iter k shr_1 mrs) = false /\ shr_s (Nat.iter k shr_1 mrs) = false.
Proof.
  revert mrs. induction k as [|k IH]; intros mrs H Hr Hs Hdiv; [done|].
  rewrite Nat.iter_succ_r.
  rewrite Nat2Z.inj_succ, Z.pow_succ_r in Hdiv by lia.
  assert (Hp : 0 < 2 ^ Z.of_nat k) by (apply Z.pow_pos_nonneg; lia).
  assert (Hm : shr_m mrs = 2 * (2 ^ Z.of_nat k * (shr_m mrs / (2 * 2 ^ Z.of_nat k)))).
  { pose proof (Z.div_mod (shr_m mrs) (2 * 2 ^ Z.of_nat k) ltac:(lia)). lia. }
  rewrite shr_1_spec by done. apply IH; cbn [shr_m shr_r shr_s].
  - apply Z.div_pos; lia.
  - rewrite Hm, Z.odd_mul. done.
  - by rewrite Hr, Hs.
  - rewrite Hm at 1. rewrite Z.mul_comm, Z.div_mul by lia.
    by rewrite Z.mul_comm, Z.mod_mul by lia.
Qed.

(** The shift of [shr_fexp] on a mantissa that is not negative. *)
Lemma shr_spec (mrs : shr_record) (e n : Z) :
  0 <= shr_m mrs ->
  shr_m (fst (shr mrs e n)) = shr_m mrs / 2 ^ Z.max 0 n
  /\ snd (shr mrs e n) = e + Z.max 0 n
  /\ (shr_r mrs = false -> shr_s mrs = false -> shr_m mrs mod 2 ^ Z.max 0 n = 0 ->
      loc_of_shr_record (fst (shr mrs e n)) = loc_Exact).
Proof.
  intros H. destruct n as [|p|p]; cbn [shr fst snd].
  - change (Z.max 0 0) with 0. rewrite Z.div_1_r, Z.add_0_r. repeat split.
    intros Hr Hs _. destruct mrs as [m r s]. cbn in Hr, Hs. by subst.
  - replace (Z.max 0 (Z.pos p)) with (Z.of_nat (Pos.to_nat p)) by lia.
    rewrite iter_pos_nat, shr_iter_m by done. repeat split; [lia|].
    intros Hr Hs Hdiv.
    destruct (shr_iter_exact (Pos.to_nat p) mrs H Hr Hs Hdiv) as [Hr' Hs'].
    destruct (Nat.iter _ _ _) as [m' r' s']. cbn in Hr', Hs'. by subst.
  - change (Z.max 0 (Z.neg p)) with 0. rewrite Z.div_1_r, Z.add_0_r. repeat split.
    intros Hr Hs _. destruct mrs as [m r s]. cbn in Hr, Hs. by subst.
Qed.

(** *** Rounding *)

Lemma fexp_32 (e : Z) : fexp F32.prec F32.emax e = Z.max (e - 24) (-149).
Proof. reflexivity. Qed.

Lemma round_nearest_even_cases (m : Z) (l : location) :
  (round_nearest_even m l = m \/ round_nearest_even m l = m + 1)
  /\ (l = loc_Exact -> round_nearest_even m l = m).
Proof.
  split; [|by intros ->].
  destruct l as [|[]]; cbn; auto. destruct (Z.even m); auto.
Qed.

(** What [binary_round_aux] computes on a mantissa that is not negative:
    a truncation to the exponent of the format, one unit more or not, and
    a second truncation for the carry. *)
Lemma binary_round_aux_spec (mx ex : Z) (lx : location) :
  0 <= mx ->
  let n1 := Z.max 0 (fexp F32.prec F32.emax (Zdigits2 mx + ex) - ex) in
  let m1 := mx / 2 ^ n1 in
  let e1 := ex + n1 in
  exists m2,
    (m2 = m1 \/ m2 = m1 + 1)
    /\ (lx = loc_Exact -> mx mod 2 ^ n1 = 0 -> m2 = m1)
    /\ let n2 := Z.max 0 (fexp F32.prec F32.emax (Zdigits2 m2 + e1) - e1) in
       binary_round_aux F32.prec F32.emax false mx ex lx
       = match m2 / 2 ^ n2 with
         | 0 => S754_zero false
         | Z.pos p =>
             if e1 + n2 <=? 104 then S754_finite false p (e1 + n2) else S754_infinity false
         | Z.neg _ => S754_nan
         end.
Proof.
  intros H n1 m1 e1. unfold binary_round_aux, shr_fexp.
  assert (H0 : 0 <= shr_m (shr_record_of_loc mx lx)) by (by destruct lx as [|[]]).
  assert (Hm : shr_m (shr_record_of_loc mx lx) = mx) by (by destruct lx as [|[]]).
  destruct (shr_spec (shr_record_of_loc mx lx) ex
              (fexp F32.prec F32.emax (Zdigits2 mx + ex) - ex) H0) as (Hm1 & He1 & Hx1).
  rewrite Hm in Hm1, Hx1. fold n1 in Hm1, He1, Hx1. fold m1 in Hm1. fold e1 in He1.
  destruct (shr _ ex _) as [mrs' e']. cbn [fst snd] in Hm1, He1, Hx1. subst e'.
  rewrite Hm1.
  destruct (round_nearest_even_cases m1 (loc_of_shr_record mrs')) as [Hcases Hexact].
  set (m2 := round_nearest_even m1 (loc_of_shr_record mrs')) in *.
  exists m2. split; [done|]. split.
  { intros -> Hdiv. apply Hexact, Hx1; done. }
  cbv zeta. set (n2 := Z.max 0 (fexp F32.prec F32.emax (Zdigits2 m2 + e1) - e1)).
  assert (Hm1pos : 0 <= m1).
  { apply Z.div_pos; [done|]. apply Z.pow_pos_nonneg; lia. }
  assert (H2 : 0 <= shr_m (shr_record_of_loc m2 loc_Exact)) by (cbn; lia).
  destruct (shr_spec (shr_record_of_loc m2 loc_Exact) e1
              (fexp F32.prec F32.emax (Zdigits2 m2 + e1) - e1) H2) as (Hm2 & He2 & _).
  cbn [shr_record_of_loc shr_m] in Hm2. fold n2 in Hm2, He2.
  destruct (shr _ e1 _) as [mrs'' e'']. cbn [fst snd] in Hm2, He2. subst e''.
  rewrite Hm2. done.
Qed.

(** *** Numbers of the format *)

Lemma bounded_32 (m : positive) (e : Z) :
  bounded F32.prec F32.emax m e = true
  <-> Z.max (Zdigits2 (Z.pos m) + e - 24) (-149) = e /\ e <= 104.
Proof.
  unfold bounded, canonical_mantissa. rewrite andb_true_iff, Z.eqb_eq, Z.leb_le.
  rewrite fexp_32. cbn [Zdigits2]. change (F32.emax - F32.prec) with 104. done.
Qed.

Lemma SFleb_finite (m1 m2 : positive) (e1 e2 : Z) :
  SFleb (S754_finite false m1 e1) (S754_finite false m2 e2) = true
  <-> e1 < e2 \/ (e1 = e2 /\ Z.pos m1 <= Z.pos m2).
Proof.
  unfold SFleb, SFcompare. rewrite Pos.compare_cont_spec. cbn [Pos.switch_Eq].
  destruct (Z.compare_spec e1 e2) as [He|He|He].
  - destruct (Pos.compare_spec m1 m2) as [Hm|Hm|Hm]; split; intros H; try done; lia.
  - split; [lia|done].
  - split; [done|lia].
Qed.

Lemma pow2_split (k n : Z) : 0 <= n <= k -> 2 ^ k = 2 ^ (k - n) * 2 ^ n.
Proof. intros H. rewrite <- Z.pow_add_r by lia. f_equal. lia. Qed.

Lemma div_pow2_le (a k n : Z) :
  0 <= n <= k -> a <= 2 ^ k -> a / 2 ^ n <= 2 ^ (k - n).
Proof.
  intros Hn Ha. assert (Hp : 0 < 2 ^ n) by (apply Z.pow_pos_nonneg; lia).
  rewrite (pow2_split k n) in Ha by done.
  apply Z.div_le_upper_bound; lia.
Qed.

Lemma Zdigits2_bound (m k : Z) : 0 <= m <= 2 ^ k -> 0 <= k -> Zdigits2 m <= k + 1.
Proof.
  intros [H0 Hm] Hk. destruct (Z.eq_dec m 0) as [->|Hne]; [cbn; lia|].
  apply Zdigits2_le; [lia|lia|].
  rewrite Z.pow_add_r by lia. pose proof (Z.pow_pos_nonneg 2 k). lia.
Qed.

(** A quotient of at most 1, exact when it is 1, rounds to at most 1. *)
Lemma round_at_most_one (q e' : Z) (lq : location) :
  0 <= q <= 2 ^ (- e') -> e' <= -24 -> (q = 2 ^ (- e') -> lq = loc_Exact) ->
  match binary_round_aux F32.prec F32.emax false q e' lq with
  | S754_zero false => True
  | S754_finite false p e => e < -23 \/ (e = -23 /\ Z.pos p <= 2 ^ 23)
  | _ => False
  end.
Proof.
  intros [Hq0 Hq] He Hexact.
  destruct (binary_round_aux_spec q e' lq Hq0) as (m2 & Hm2 & Hm2x & ->).
  rewrite !fexp_32 in *. cbv zeta in *.
  pose proof (Zdigits2_bound q (- e') ltac:(lia) ltac:(lia)) as Hdq.
  set (n1 := Z.max 0 (Z.max (Zdigits2 q + e' - 24) (-149) - e')) in *.
  set (E1 := e' + n1) in *.
  assert (Hn1 : 0 <= n1) by lia.
  assert (HE1 : E1 <= -23) by lia.
  assert (Hp1 : 0 < 2 ^ n1) by (apply Z.pow_pos_nonneg; lia).
  assert (Hm1 : 0 <= q / 2 ^ n1 <= 2 ^ (- E1)).
  { split; [apply Z.div_pos; lia|].
    replace (- E1) with (- e' - n1) by lia. apply div_pow2_le; lia. }
  assert (Hm2le : 0 <= m2 <= 2 ^ (- E1)).
  { destruct (Z.eq_dec (q / 2 ^ n1) (2 ^ (- E1))) as [Heq|Hne]; [|lia].
    assert (Hq' : q = 2 ^ (- e')).
    { pose proof (Z.mul_div_le q (2 ^ n1) Hp1) as Hle. rewrite Heq in Hle.
      rewrite (pow2_split (- e') n1) in * by lia.
      replace (- e' - n1) with (- E1) in * by lia. lia. }
    rewrite Hm2x; [lia|by apply Hexact|].
    rewrite Hq', (pow2_split (- e') n1) by lia. by apply Z.mod_mul; lia. }
  pose proof (Zdigits2_bound m2 (- E1) ltac:(lia) ltac:(lia)) as Hd2.
  set (n2 := Z.max 0 (Z.max (Zdigits2 m2 + E1 - 24) (-149) - E1)) in *.
  assert (Hn2 : 0 <= n2) by lia.
  assert (HE2 : E1 + n2 <= -23) by lia.
  assert (Hp2 : 0 < 2 ^ n2) by (apply Z.pow_pos_nonneg; lia).
  assert (Hm'' : 0 <= m2 / 2 ^ n2 <= 2 ^ (- (E1 + n2))).
  { split; [apply Z.div_pos; lia|].
    replace (- (E1 + n2)) with (- E1 - n2) by lia. apply div_pow2_le; lia. }
  destruct (m2 / 2 ^ n2) as [|p|p] eqn:Hm; [done| |lia].
  replace (E1 + n2 <=? 104) with true by (symmetry; apply Z.leb_le; lia).
  destruct (Z.eq_dec (E1 + n2) (-23)) as [Heq|Hne]; [|lia].
  right. split; [done|]. rewrite Heq in Hm''. exact (proj2 Hm'').
Qed.

Lemma bounded_digits (m : positive) (e : Z) :
  bounded F32.prec F32.emax m e = true ->
  -149 <= e <= 104 /\ 0 < Zdigits2 (Z.pos m) <= 24 /\ (-149 < e -> Zdigits2 (Z.pos m) = 24).
Proof.
  rewrite bounded_32. intros [Hc He].
  pose proof (Zdigits2_pos (Z.pos m) ltac:(lia)). lia.
Qed.

(** The order of the format is the order of the values. *)
Lemma SFleb_values (mx my : positive) (ex ey : Z) :
  bounded F32.prec F32.emax mx ex = true -> bounded F32.prec F32.emax my ey = true ->
  SFleb (S754_finite false mx ex) (S754_finite false my ey) = true ->
  ex <= ey /\ Z.pos mx <= Z.pos my * 2 ^ (ey - ex)
  /\ Zdigits2 (Z.pos mx) + ex <= Zdigits2 (Z.pos my) + ey.
Proof.
  intros Hx Hy Hle. apply SFleb_finite in Hle.
  destruct (bounded_digits mx ex Hx) as (Hex & Hdx & _).
  destruct (bounded_digits my ey Hy) as (Hey & Hdy & Hny).
  destruct Hle as [Hlt|[-> Hm]].
  - specialize (Hny ltac:(lia)).
    pose proof (Zdigits2_spec (Z.pos mx) ltac:(lia)) as [_ Hhi].
    pose proof (Zdigits2_spec (Z.pos my) ltac:(lia)) as [Hlo _].
    rewrite Hny in Hlo. change (2 ^ (24 - 1)) with 8388608 in Hlo.
    assert (Z.pos mx < 2 ^ 24).
    { eapply Z.lt_le_trans; [exact Hhi|]. apply Z.pow_le_mono_r; lia. }
    assert (2 <= 2 ^ (ey - ex)).
    { change 2 with (2 ^ 1) at 1. apply Z.pow_le_mono_r; lia. }
    change (2 ^ 24) with 16777216 in *. repeat split; [lia|nia|lia].
  - rewrite Z.sub_diag, Z.mul_1_r. repeat split; [lia|done|].
    assert (Zdigits2 (Z.pos mx) <= Zdigits2 (Z.pos my)); [|lia].
    apply Zdigits2_le; [lia|lia|].
    pose proof (Zdigits2_spec (Z.pos my) ltac:(lia)). lia.
Qed.

Lemma new_location_exact (nb : Z) : new_location nb 0 = loc_Exact.
Proof. unfold new_location. by destruct (Z.even nb). Qed.

Lemma SFdiv_core_at_most_one (mx my : positive) (ex ey : Z) :
  bounded F32.prec F32.emax mx ex = true -> bounded F32.prec F32.emax my ey = true ->
  SFleb (S754_finite false mx ex) (S754_finite false my ey) = true ->
  exists q e' lq,
    SFdiv_core_binary F32.prec F32.emax (Z.pos mx) ex (Z.pos my) ey = (q, e', lq)
    /\ 0 <= q <= 2 ^ (- e') /\ e' <= -24 /\ (q = 2 ^ (- e') -> lq = loc_Exact).
Proof.
  intros Hx Hy Hle.
  destruct (SFleb_values mx my ex ey Hx Hy Hle) as (He & Hv & Hd).
  unfold SFdiv_core_binary. rewrite fexp_32.
  set (e' := Z.min _ _).
  assert (He' : e' <= -24) by (subst e'; lia).
  assert (Hs : 0 <= ex - ey - e') by (subst e'; lia).
  set (m' := match ex - ey - e' with 0 => _ | Z.pos _ => _ | Z.neg _ => _ end).
  assert (Hm' : m' = Z.pos mx * 2 ^ (ex - ey - e')).
  { subst m'. destruct (ex - ey - e') as [|p|p] eqn:Hsv; [lia| |lia].
    by rewrite Z.shiftl_mul_pow2 by lia. }
  pose proof (Z_div_mod m' (Z.pos my) ltac:(lia)) as Hdm.
  destruct (Z.div_eucl m' (Z.pos my)) as [q r]. destruct Hdm as [Hdm Hr].
  exists q, e', (new_location (Z.pos my) r). split; [done|].
  assert (Hp : 0 < 2 ^ (ex - ey - e')) by (apply Z.pow_pos_nonneg; lia).
  assert (Hpe : 0 < 2 ^ (ey - ex)) by (apply Z.pow_pos_nonneg; lia).
  assert (Hbig : m' <= Z.pos my * 2 ^ (- e')).
  { rewrite Hm'. replace (- e') with ((ey - ex) + (ex - ey - e')) by lia.
    rewrite Z.pow_add_r by lia. nia. }
  assert (Hq : 0 <= q <= 2 ^ (- e')).
  { split; [nia|].
    destruct (Z.le_gt_cases q (2 ^ (- e'))) as [|Hgt]; [done|]. nia. }
  repeat split; try lia.
  intros Heq. replace r with 0 by nia. apply new_location_exact.
Qed.

(** Dividing a number of the format by one that is not smaller gives at
    most 1, and not less than 0. *)
Lemma div_at_most_one (mx my : positive) (ex ey : Z) :
  bounded F32.prec F32.emax mx ex = true -> bounded F32.prec F32.emax my ey = true ->
  SFleb (S754_finite false mx ex) (S754_finite false my ey) = true ->
  F32.leb F32.zero (F32.div (S754_finite false mx ex) (S754_finite false my ey)) = true
  /\ F32.leb (F32.div (S754_finite false mx ex) (S754_finite false my ey)) F32.one = true.
Proof.
  intros Hx Hy Hle.
  destruct (SFdiv_core_at_most_one mx my ex ey Hx Hy Hle)
    as (q & e' & lq & Hcore & Hq & He' & Hexact).
  unfold F32.div, SFdiv. rewrite Hcore. cbn [xorb].
  pose proof (round_at_most_one q e' lq Hq He' Hexact) as Hr.
  destruct (binary_round_aux _ _ _ _ _ _) as [[]|[]| |[] p e]; try done.
  split; [done|]. unfold F32.leb, F32.one. apply SFleb_finite.
  change (Z.pos 8388608) with (2 ^ 23). lia.
Qed.

Lemma Zdigits2_ge (m k : Z) : 0 <= k -> 2 ^ k <= m -> k + 1 <= Zdigits2 m.
Proof.
  intros Hk Hm. assert (0 < m) by (pose proof (Z.pow_pos_nonneg 2 k); lia).
  destruct (Z.le_gt_cases (k + 1) (Zdigits2 m)) as [|Hlt]; [done|].
  assert (m < 2 ^ k); [|lia].
  apply Zdigits2_le; lia.
Qed.

Lemma Zdigits2_pow2 (k : Z) : 0 <= k -> Zdigits2 (2 ^ k) = k + 1.
Proof.
  intros Hk. apply Zdigits2_unique; [|lia].
  replace (k + 1 - 1) with k by lia. rewrite Z.pow_add_r by lia. 
  pose proof (Z.pow_pos_nonneg 2 k). lia.
Qed.

(** Rounding a value that is at least a number of the format gives at
    least that number, and a number of the format or infinity. *)
Lemma round_at_least (mx ex : Z) (lx : location) (a : positive) (ea : Z) :
  0 < mx -> ex <= fexp F32.prec F32.emax (Zdigits2 mx + ex) ->
  bounded F32.prec F32.emax a ea = true ->
  ex <= ea -> Z.pos a * 2 ^ (ea - ex) <= mx ->
  match binary_round_aux F32.prec F32.emax false mx ex lx with
  | S754_infinity false => True
  | S754_finite false p e =>
      bounded F32.prec F32.emax p e = true /\ (ea < e \/ (ea = e /\ Z.pos a <= Z.pos p))
  | _ => False
  end.
Proof.
  intros Hmx Hex Ha Hea Hv.
  destruct (binary_round_aux_spec mx ex lx ltac:(lia)) as (m2 & Hm2 & _ & ->).
  rewrite !fexp_32 in *. cbv zeta in *.
  destruct (bounded_digits a ea Ha) as (Hea' & Hda & Hna).
  apply bounded_32 in Ha as [Hca _].
  pose proof (Zdigits2_spec (Z.pos a) ltac:(lia)) as [Halo _].
  pose proof (Zdigits2_spec mx Hmx) as [Hmlo Hmhi].
  pose proof (Zdigits2_pos mx Hmx) as Hdm.
  assert (Hpe : 0 < 2 ^ (ea - ex)) by (apply Z.pow_pos_nonneg; lia).
  assert (Hdge : Zdigits2 (Z.pos a) + ea - ex <= Zdigits2 mx).
  { replace (Zdigits2 (Z.pos a) + ea - ex) with ((Zdigits2 (Z.pos a) - 1 + (ea - ex)) + 1)
      by lia.
    apply Zdigits2_ge; [lia|]. rewrite Z.pow_add_r by lia.
    pose proof (Z.pow_pos_nonneg 2 (Zdigits2 (Z.pos a) - 1) ltac:(lia)). nia. }
  set (E := Z.max (Zdigits2 mx + ex - 24) (-149)) in *.
  replace (Z.max 0 (E - ex)) with (E - ex) in * by lia.
  replace (ex + (E - ex)) with E in * by lia.
  assert (HE : ea <= E) by lia.
  assert (Hp1 : 0 < 2 ^ (E - ex)) by (apply Z.pow_pos_nonneg; lia).
  assert (Hbig : 2 ^ (E - ex) <= mx).
  { destruct (Z.eq_dec E (Zdigits2 mx + ex - 24)) as [Heq|Hne].
    - eapply Z.le_trans; [|exact Hmlo]. apply Z.pow_le_mono_r; lia.
    - assert (E = ea) as -> by lia. nia. }
  pose proof (Zdigits2_div mx (E - ex) ltac:(lia) Hbig) as Hd1.
  assert (Hm1 : 0 < mx / 2 ^ (E - ex)) by (apply Z.div_str_pos; lia).
  assert (Hm1a : E = ea -> Z.pos a <= mx / 2 ^ (E - ex)).
  { intros ->. apply Z.div_le_lower_bound; lia. }
  set (m1 := mx / 2 ^ (E - ex)) in *.
  assert (Hcases : (Zdigits2 m2 = Zdigits2 m1 /\ m1 <= m2)
                   \/ (m2 = 2 ^ Zdigits2 m1 /\ Zdigits2 m2 = Zdigits2 m1 + 1)).
  { destruct Hm2 as [->| ->]; [left; lia|].
    destruct (Zdigits2_succ m1 Hm1) as [Heq|[Heq Hd]]; [left; lia|right].
    by rewrite Heq in *. }
  pose proof (Zdigits2_pos m1 Hm1) as Hd1pos.
  destruct Hcases as [[Hd2 Hle]|[-> Hd2]].
  - replace (Z.max 0 (Z.max (Zdigits2 m2 + E - 24) (-149) - E)) with 0 by lia.
    rewrite Z.div_1_r, Z.add_0_r.
    destruct m2 as [|p|p]; [lia| |lia].
    destruct (E <=? 104) eqn:Hle104; [|done].
    apply Z.leb_le in Hle104. split; [apply bounded_32; lia|lia].
  - set (n2 := Z.max 0 (Z.max (Zdigits2 (2 ^ Zdigits2 m1) + E - 24) (-149) - E)).
    assert (Hn2 : n2 = 0 \/ n2 = 1) by lia.
    assert (Hq : 2 ^ Zdigits2 m1 / 2 ^ n2 = 2 ^ (Zdigits2 m1 - n2)).
    { rewrite (pow2_split (Zdigits2 m1) n2) by lia.
      apply Z.div_mul. pose proof (Z.pow_pos_nonneg 2 n2); lia. }
    rewrite Hq.
    pose proof (Zdigits2_pow2 (Zdigits2 m1 - n2) ltac:(lia)) as Hdq.
    pose proof (Z.pow_pos_nonneg 2 (Zdigits2 m1 - n2) ltac:(lia)) as Hqpos.
    assert (Hqa : n2 = 0 -> E = ea -> Z.pos a <= 2 ^ (Zdigits2 m1 - n2)).
    { intros -> HEa. rewrite Z.sub_0_r.
      pose proof (Zdigits2_spec m1 Hm1). specialize (Hm1a HEa). lia. }
    destruct (2 ^ (Zdigits2 m1 - n2)) as [|p|p]; [lia| |lia].
    destruct (E + n2 <=? 104) eqn:Hle104; [|done].
    apply Z.leb_le in Hle104. split; [apply bounded_32; lia|].
    destruct Hn2 as [Hn0|Hn1]; [|lia].
    destruct (Z.eq_dec E ea) as [HEa|]; [|lia]. right. split; [lia|]. by apply Hqa.
Qed.

(** *** Sums *)

Lemma iter_xO (m d : positive) : Z.pos (Pos.iter xO m d) = Z.pos m * 2 ^ Z.pos d.
Proof.
  induction d as [|d IH] using Pos.peano_ind.
  - cbn. lia.
  - rewrite Pos.iter_succ, Pos2Z.inj_succ, Z.pow_succ_r by lia.
    change (Z.pos (Pos.iter xO m d)~0) with (2 * Z.pos (Pos.iter xO m d)). lia.
Qed.

Lemma shl_align_spec (m : positive) (e e' : Z) :
  Z.pos (fst (shl_align m e e')) = Z.pos m * 2 ^ (e - Z.min e e')
  /\ snd (shl_align m e e') = Z.min e e'.
Proof.
  unfold shl_align. destruct (e' - e) as [|d|d] eqn:Hd; cbn [fst snd].
  - replace (Z.min e e') with e by lia. rewrite Z.sub_diag. lia.
  - replace (Z.min e e') with e by lia. rewrite Z.sub_diag. lia.
  - replace (Z.min e e') with e' by lia. rewrite iter_xO.
    split; [|done]. do 2 f_equal. lia.
Qed.

Lemma Zdigits2_mul_pow2 (m k : Z) : 0 < m -> 0 <= k -> Zdigits2 (m * 2 ^ k) = Zdigits2 m + k.
Proof.
  intros Hm Hk. pose proof (Zdigits2_spec m Hm) as [Hlo Hhi].
  pose proof (Zdigits2_pos m Hm).
  pose proof (Z.pow_pos_nonneg 2 k ltac:(lia) Hk).
  apply Zdigits2_unique; [|lia].
  replace (Zdigits2 m + k - 1) with (Zdigits2 m - 1 + k) by lia.
  rewrite !Z.pow_add_r by lia. nia.
Qed.

Lemma binary_round_at_least (M : positive) (ez : Z) (a b : positive) (ea eb : Z) :
  bounded F32.prec F32.emax a ea = true -> bounded F32.prec F32.emax b eb = true ->
  ez <= ea -> ez <= eb ->
  Z.pos a * 2 ^ (ea - ez) <= Z.pos M -> Z.pos b * 2 ^ (eb - ez) <= Z.pos M ->
  nonneg_value (binary_round F32.prec F32.emax false M ez) = true
  /\ SFleb (S754_finite false a ea) (binary_round F32.prec F32.emax false M ez) = true
  /\ SFleb (S754_finite false b eb) (binary_round F32.prec F32.emax false M ez) = true.
Proof.
  intros Ha Hb Hea Heb Hva Hvb. unfold binary_round.
  pose proof (shl_align_spec M ez
                (fexp F32.prec F32.emax (Z.pos (digits2_pos M) + ez))) as [Hmz Hez].
  destruct (shl_align M ez _) as [mz ez']. cbn [fst snd] in Hmz, Hez.
  change (Z.pos (digits2_pos M)) with (Zdigits2 (Z.pos M)) in *.
  set (F := fexp F32.prec F32.emax (Zdigits2 (Z.pos M) + ez)) in *.
  assert (Hk : 0 <= ez - ez') by lia.
  assert (Hd : Zdigits2 (Z.pos mz) + ez' = Zdigits2 (Z.pos M) + ez).
  { rewrite Hmz, Hez, Zdigits2_mul_pow2 by lia. lia. }
  assert (Hcanon : ez' <= fexp F32.prec F32.emax (Zdigits2 (Z.pos mz) + ez')).
  { rewrite Hd. fold F. lia. }
  assert (Hp : 0 < 2 ^ (ez - ez')) by (apply Z.pow_pos_nonneg; lia).
  assert (Hlow : forall (c : positive) (ec : Z),
             ez <= ec -> Z.pos c * 2 ^ (ec - ez) <= Z.pos M ->
             Z.pos c * 2 ^ (ec - ez') <= Z.pos mz).
  { intros c ec Hec Hc. rewrite Hmz, <- Hez.
    replace (ec - ez') with ((ec - ez) + (ez - ez')) by lia.
    rewrite Z.pow_add_r by lia. nia. }
  pose proof (round_at_least (Z.pos mz) ez' loc_Exact a ea ltac:(lia) Hcanon Ha
                ltac:(lia) (Hlow a ea Hea Hva)) as HA.
  pose proof (round_at_least (Z.pos mz) ez' loc_Exact b eb ltac:(lia) Hcanon Hb
                ltac:(lia) (Hlow b eb Heb Hvb)) as HB.
  destruct (binary_round_aux _ _ _ _ _ _) as [[]|[]| |[] p e]; try done.
  destruct HA as [Hbd HA], HB as [_ HB].
  repeat split; [done| |]; by apply SFleb_finite.
Qed.

Lemma SFleb_refl_finite (m : positive) (e : Z) :
  SFleb (S754_finite false m e) (S754_finite false m e) = true.
Proof. apply SFleb_finite. lia. Qed.

(** Adding two numbers that are not negative gives a number that is not
    negative and not smaller than either. *)
Lemma add_at_least (x y : float) :
  nonneg_value x = true -> nonneg_value y = true ->
  nonneg_value (F32.add x y) = true
  /\ F32.leb x (F32.add x y) = true /\ F32.leb y (F32.add x y) = true.
Proof.
  destruct x as [sx|[]| |[] mx ex], y as [sy|[]| |[] my ey]; try done;
    intros Hx Hy; cbn [nonneg_value] in Hx, Hy;
    try (by repeat split;
           first [apply SFleb_refl_finite
                 | done
                 | repeat match goal with s : bool |- _ => destruct s end; done]).
  unfold F32.add, F32.leb, SFadd. cbn [cond_Zopp].
  pose proof (shl_align_spec mx ex (Z.min ex ey)) as [Hmx _].
  pose proof (shl_align_spec my ey (Z.min ex ey)) as [Hmy _].
  replace (Z.min ex (Z.min ex ey)) with (Z.min ex ey) in Hmx by lia.
  replace (Z.min ey (Z.min ex ey)) with (Z.min ex ey) in Hmy by lia.
  set (ez := Z.min ex ey) in *.
  set (ax := fst (shl_align mx ex ez)) in *.
  set (ay := fst (shl_align my ey ez)) in *.
  change (Z.pos ax + Z.pos ay) with (Z.pos (ax + ay)). cbn [binary_normalize].
  apply binary_round_at_least; try done; try lia; rewrite Pos2Z.inj_add; lia.
Qed.

Lemma leb_trans_nonneg (x y z : float) :
  nonneg_value x = true -> nonneg_value y = true -> nonneg_value z = true ->
  F32.leb x y = true -> F32.leb y z = true -> F32.leb x z = true.
Proof.
  unfold F32.leb.
  destruct x as [sx|[]| |[] mx ex], y as [sy|[]| |[] my ey], z as [sz|[]| |[] mz ez];
    try done.
  intros _ _ _ Hxy Hyz. apply SFleb_finite in Hxy, Hyz. apply SFleb_finite. lia.
Qed.

(** The row sum is not negative and not smaller than any entry. *)
Lemma sum_at_least_from (acc : float) (c : T1) :
  nonneg_value acc = true -> Forall (fun x => nonneg_value x = true) c ->
  nonneg_value (foldl F32.add acc c) = true
  /\ F32.leb acc (foldl F32.add acc c) = true
  /\ Forall (fun x => F32.leb x (foldl F32.add acc c) = true) c.
Proof.
  intros Hacc Hc. revert acc Hacc.
  induction Hc as [|x c Hx Hc IH]; intros acc Hacc; cbn [foldl].
  - repeat split; [done| |done]. unfold F32.leb.
    by destruct acc as [[]|[]| |[] m e]; try done; apply SFleb_refl_finite.
  - destruct (add_at_least acc x Hacc Hx) as (Hs & Hla & Hlx).
    destruct (IH (F32.add acc x) Hs) as (Hn & Hle & Hall).
    repeat split; [done| |constructor; [|done]].
    + by apply (leb_trans_nonneg acc (F32.add acc x)).
    + apply (leb_trans_nonneg x (F32.add acc x)); try done.
Qed.

Lemma sum_at_least (c : T1) :
  Forall (fun x => nonneg_value x = true) c ->
  nonneg_value (F32.sum c) = true
  /\ Forall (fun x => F32.leb x (F32.sum c) = true) c.
Proof.
  intros Hc. destruct (sum_at_least_from F32.zero c eq_refl Hc) as (H1 & _ & H2). done.
Qed.

(** *** The clamp *)

Lemma clamp01_nonneg_value (x : float) :
  F32.valid x = true -> F32.is_nan x = false ->
  nonneg_value (clamp01 x) = true /\ F32.is_finite (clamp01 x) = true.
Proof.
  intros Hv Hn. unfold clamp01, F32.clamp. rewrite Hn.
  destruct x as [[]|[]| |[] m e]; try done.
  cbn [F32.valid valid_binary] in Hv.
  change (F32.ltb (S754_finite false m e) F32.zero) with false. cbv iota.
  destruct (F32.ltb F32.one (S754_finite false m e)); done.
Qed.

(** *** The quotient *)

Lemma div_by_at_least (x s : float) :
  nonneg_value x = true -> F32.is_finite x = true -> nonneg_value s = true ->
  F32.leb x s = true -> F32.ltb F32.zero s = true ->
  F32.leb F32.zero (F32.div x s) = true /\ F32.leb (F32.div x s) F32.one = true.
Proof.
  destruct x as [sx|[]| |[] mx ex], s as [ss|[]| |[] my ey]; try done;
    try (by destruct sx); try (by destruct ss).
  intros Hx _ Hs Hle _. by apply div_at_most_one.
Qed.

(** *** Rows with a positive weight *)

Lemma clamp01_positive (x : float) :
  F32.is_nan x = false -> F32.ltb F32.zero x = true -> F32.ltb F32.zero (clamp01 x) = true.
Proof.
  intros Hn Hp. unfold clamp01, F32.clamp. rewrite Hn.
  destruct x as [[]|[]| |[] m e]; try done.
  change (F32.ltb (S754_finite false m e) F32.zero) with false. cbv iota.
  destruct (F32.ltb F32.one (S754_finite false m e)); done.
Qed.

Lemma positive_at_least (x s : float) :
  nonneg_value s = true -> F32.ltb F32.zero x = true -> F32.leb x s = true ->
  F32.ltb F32.zero s = true.
Proof.
  destruct x as [[]|[]| |[] mx ex], s as [[]|[]| |[] my ey]; done.
Qed.

Lemma renormalized_row_in_unit_interval (row : T1) :
  Forall (fun x => F32.valid x = true) row ->
  Forall (fun x => F32.is_nan x = false) row ->
  Exists (fun x => F32.ltb F32.zero x = true) row ->
  Forall (fun x => F32.leb F32.zero x = true /\ F32.leb x F32.one = true)
    (map (fun x => F32.div x (F32.sum (map clamp01 row))) (map clamp01 row)).
Proof.
  intros Hv Hn Hp.
  assert (Hc : Forall (fun x => nonneg_value x = true /\ F32.is_finite x = true)
                 (map clamp01 row)).
  { apply Forall_fmap, Forall_forall. intros x Hx. cbn.
    apply clamp01_nonneg_value.
    - by apply (proj1 (Forall_forall _ _) Hv).
    - by apply (proj1 (Forall_forall _ _) Hn). }
  destruct (sum_at_least (map clamp01 row)) as [Hs Hle].
  { eapply Forall_impl; [exact Hc|]. by intros x [? ?]. }
  assert (Hpos : F32.ltb F32.zero (F32.sum (map clamp01 row)) = true).
  { apply Exists_exists in Hp as (x & Hx & Hxp).
    apply (positive_at_least (clamp01 x)); [done| |].
    - apply clamp01_positive; [|done]. by apply (proj1 (Forall_forall _ _) Hn).
    - apply (proj1 (Forall_forall _ _) Hle). by apply (list_elem_of_fmap_2 clamp01). }
  generalize dependent (F32.sum (map clamp01 row)). intros s Hs Hle Hpos.
  apply Forall_fmap, Forall_forall. intros x Hx. cbn.
  destruct (proj1 (Forall_forall _ _) Hc x Hx) as [Hxn Hxf].
  apply div_by_at_least; try done.
  by apply (proj1 (Forall_forall _ _) Hle).
Qed.

(** X20.  A weight row of binary32 numbers without a NaN and with at
    least one positive entry comes out of
    [BaseSpecularMaterials.enforce_parameter_bounds] with every entry in
    [0, 1]: the row sum is not smaller than any clamped entry, so no
    quotient exceeds 1, and none is NaN.  (This is the state the call
    leaves, whatever its outcome.) *)
Theorem BaseSpecularMaterials_positive_rows_end_in_unit_interval
    (K : kernels) (w w' : world) (self : nat) (o : instance) (wt : tensor) r
    (i : nat) (row : T1) :
  objects w !! self = Some o ->
  base_weights o = Some wt ->
  (storage wt < length (heap w))%nat ->
  BaseSpecularMaterials.enforce_parameter_bounds K self w = (r, w') ->
  (heap w !!! storage wt) !! i = Some row ->
  Forall (fun x => F32.valid x = true) row ->
  Forall (fun x => F32.is_nan x = false) row ->
  Exists (fun x => F32.ltb F32.zero x = true) row ->
  exists row',
    (heap w' !!! storage wt) !! i = Some row'
    /\ length row' = length row
    /\ Forall (fun x => F32.leb F32.zero x = true /\ F32.leb x F32.one = true) row'.
Proof.
  intros Ho Hw Hlt Hrun Hrow Hv Hn Hp.
  rewrite (BaseSpecularMaterials_enforce_parameter_bounds_weights
             K w w' self o wt r Ho Hw Hlt Hrun).
  exists (map (fun x => F32.div x (F32.sum (map clamp01 row))) (map clamp01 row)).
  split; [|split].
  - unfold renormalize, map2d. by rewrite !list_lookup_fmap, Hrow.
  - by rewrite !length_map.
  - by apply renormalized_row_in_unit_interval.
Qed.

(** ** Examples *)

(** [initialize] builds a dictionary of this shape. *)
Lemma initialize_example :
  BaseSpecularMaterials.initialize table_kernels 0 2 (Tensor 0 false) 2
    (World [ [[half; half; half]; [F32.one; F32.one; F32.one]] ]
           [Instance ClsCookTorranceF1 None None] None)
  = (Ok tt,
     World [ [[half; half; half]; [F32.one; F32.one; F32.one]];
             ones 2 3; ones 2 1; [[half; half]; [half; half]] ]
           [Instance ClsCookTorranceF1
              (Some (param_dict (Tensor 0 true)
                       [("albedo", Tensor 1 true); ("roughness", Tensor 2 true)]))
              (Some (Tensor 3 true))]
           None).
Proof. vm_compute. reflexivity. Qed.

Lemma BaseSpecularMaterials_enforce_parameter_bounds_AttributeError_witness :
  exists w',
    BaseSpecularMaterials.enforce_parameter_bounds table_kernels 0 mix_world
    = (Raise (AttributeError "enforce_brdf_parameter_bounds"), w')
    /\ objects w' = objects mix_world
    /\ lru w' = lru mix_world
    /\ forall l, l <> 3%nat -> (l < 4)%nat -> heap w' !! l = heap mix_world !! l.
Proof.
  apply (BaseSpecularMaterials_enforce_parameter_bounds_AttributeError
           table_kernels mix_world 0 mix_instance (Tensor 3 true)); reflexivity.
Defined.

Lemma BaseSpecularMaterials_zero_rows_become_NaN_witness :
  exists row',
    (heap (snd (BaseSpecularMaterials.enforce_parameter_bounds table_kernels 0 degenerate_world))
       !!! 3%nat) !! 0%nat = Some row'
    /\ (Forall (fun x => F32.leb x F32.zero = true) [SFopp half; F32.zero] ->
        Forall (fun x => F32.is_zero x = true) (map clamp01 [SFopp half; F32.zero])
        /\ row' = replicate 2 F32.nan)
    /\ (F32.eqb (F32.sum row') F32.one = true ->
        Exists (fun x => F32.ltb F32.zero x = true) (map clamp01 [SFopp half; F32.zero])).
Proof.
  apply (BaseSpecularMaterials_zero_rows_become_NaN table_kernels degenerate_world
           (snd (BaseSpecularMaterials.enforce_parameter_bounds table_kernels 0 degenerate_world))
           0 mix_instance (Tensor 3 true)
           (fst (BaseSpecularMaterials.enforce_parameter_bounds table_kernels 0 degenerate_world))
           0 [SFopp half; F32.zero]);
    first [reflexivity | cbn; lia | apply surjective_pairing].
Defined.

(** The grazing point, for every backend whose logarithm of 0.0625 is the
    binary32 nearest to [-4 ln 2]: the only value of the backend that the
    evaluation reads. *)
Lemma grazing_rhos_for_any_backend (K : kernels) :
  k_log K (pow2_float (-4)) = S754_finite true 11629080 (-22) ->
  fst (call (CookTorrance.calculate_rhos K)
         [VObj ClsCookTorrance; VArr3 grazing_Ls; VArr2 grazing_Vs; VArr2 facing_up;
          grazing_parameters] grazing_world)
  = Ok ([[[F32.pinf; F32.pinf; F32.pinf]]], [[[S754_finite false 12604739 (-99)]]]).
Proof.
  intros H. destruct K as [lg ex pw]. cbn [k_log] in H.
  assert (HG : GTR (Kernels lg ex pw)
                 (snd (BrdfParametrization._calculate_NdotHs grazing_Ls grazing_Vs facing_up))
                 (map2d sq [[half]]) (F32.double_of_Z 1)
               = GTR table_kernels
                 (snd (BrdfParametrization._calculate_NdotHs grazing_Ls grazing_Vs facing_up))
                 (map2d sq [[half]]) (F32.double_of_Z 1)).
  { unfold GTR.
    change (SFeqb (F32.double_of_Z 1) (F32.double_of_Z 1)) with true. cbv iota.
    change (pow2 (view_m1_1_1 (map2d sq [[half]]))) with [[[pow2_float (-4)]]].
    unfold map3d. cbn [map k_log table_kernels]. rewrite H.
    change (table_log (pow2_float (-4))) with (S754_finite true 11629080 (-22)).
    reflexivity. }
  rewrite call_bound by done.
  cbn [body CookTorrance.calculate_rhos parameters zip zip_with].
  unfold local3, local2, tensor_item, getitem, contains, as_tensor, load_name.
  cbn [dict_get String.eqb Ascii.eqb Bool.eqb].
  py_unfold.
  match goal with
  | |- context [GTR ?k ?a ?b ?c] =>
      change (GTR k a b c)
        with (GTR (Kernels lg ex pw)
                (snd (BrdfParametrization._calculate_NdotHs grazing_Ls grazing_Vs facing_up))
                (map2d sq [[half]]) (F32.double_of_Z 1))
  end.
  rewrite HG. vm_compute. reflexivity.
Qed.

(** At the grazing point the denominator [4 pi NdotL NdotV] underflows
    to 0 while the numerator does not: the specular term is +infinity,
    which the guard keeps, and every channel of the returned rhos is
    +infinity. *)
Lemma CookTorrance_rhos_infinite_at_grazing_angles :
  (smul (F32.of_double (F32.dmul (F32.double_of_Z 4) F32.np_pi))
        (snd (SmithG1 (inner_product (view_m1_1_3 facing_up) grazing_Ls) [[sq half]]))
   * snd (SmithG1 (inner_product (view_m1_1_3 facing_up) (view_m1_1_3 grazing_Vs))
                  [[sq half]]))%T
  = [[[F32.zero]]]
  /\ fst (call (CookTorrance.calculate_rhos table_kernels)
            [VObj ClsCookTorrance; VArr3 grazing_Ls; VArr2 grazing_Vs; VArr2 facing_up;
             grazing_parameters] grazing_world)
     = Ok ([[[F32.pinf; F32.pinf; F32.pinf]]],
           [[[S754_finite false 12604739 (-99)]]]).
Proof.
  split; [vm_compute; reflexivity|].
  apply grazing_rhos_for_any_backend. reflexivity.
Qed.

(** On the same input [CookTorrance.calculate_rhos] returns and
    [CookTorranceF1.calculate_rhos] raises. *)
Lemma CookTorranceF1_differs_from_CookTorrance :
  (exists r, fst (call (CookTorrance.calculate_rhos table_kernels)
                    [VObj ClsCookTorrance; VArr3 grazing_Ls; VArr2 grazing_Vs;
                     VArr2 facing_up; grazing_parameters] grazing_world) = Ok r)
  /\ fst (call (CookTorranceF1.calculate_rhos table_kernels)
            [VObj ClsCookTorranceF1; VArr3 grazing_Ls; VArr2 grazing_Vs;
             VArr2 facing_up; grazing_parameters] grazing_world)
     = Raise (TypeError "positional arguments").
Proof.
  split; [|reflexivity].
  eexists. apply grazing_rhos_for_any_backend. reflexivity.
Qed.

(** The dictionary a second call returns after the roughness bases were
    overwritten in place still points at the products of the first call:
    the roughness entry holds [0.5; 1] where recomputing gives [1; 0.5]. *)
Lemma get_brdf_parameters_stale_after_mutation :
  fst (BaseSpecularMaterials.get_brdf_parameters 0 after_mutation)
  = Ok (VDict [("diffuse", VTensor (Tensor 0 true));
               ("specular", VDict [("albedo", VTensor (Tensor 4 true));
                                   ("roughness", VTensor (Tensor 5 true))])])
  /\ heap (snd (BaseSpecularMaterials.get_brdf_parameters 0 after_mutation)) !!! 5%nat
     = [[half]; [F32.one]]
  /\ matmul (heap after_mutation !!! 3%nat) (heap after_mutation !!! 2%nat)
     = [[F32.one]; [half]].
Proof. repeat split; vm_compute; reflexivity. Qed.

Lemma get_brdf_parameters_keeps_first_result_witness :
  exists w1,
    BaseSpecularMaterials.get_brdf_parameters 0 mix_world
    = (Ok (VDict [("diffuse", VTensor (Tensor 0 true));
                  ("specular", VDict (mixed_items 4 true
                                        [("albedo", Tensor 1 true); ("roughness", Tensor 2 true)]))]),
       w1)
    /\ BaseSpecularMaterials.get_brdf_parameters 0 w1
       = (Ok (VDict [("diffuse", VTensor (Tensor 0 true));
                     ("specular", VDict (mixed_items 4 true
                                           [("albedo", Tensor 1 true); ("roughness", Tensor 2 true)]))]),
          w1).
Proof.
  destruct (get_brdf_parameters_keeps_first_result mix_world 0 mix_instance
              (Tensor 0 true) (Tensor 3 true)
              [("albedo", Tensor 1 true); ("roughness", Tensor 2 true)])
    as (w1 & Hfirst & Hlater).
  - reflexivity.
  - reflexivity.
  - reflexivity.
  - cbn; lia.
  - repeat constructor; cbn; lia.
  - intros c; discriminate.
  - exists w1. split; [exact Hfirst|]. by apply (Hlater w1).
Defined.

(** Two ways the returned specular entries differ from the bases under
    one-hot weights: a basis value that is infinite turns the other
    point's entry into NaN ([0 * inf]), and a dictionary cached while the
    weights were uniform is returned unchanged once they are one-hot. *)
Lemma get_brdf_parameters_one_hot_mismatch :
  heap infinite_basis_world !!! 3%nat = one_hot_2
  /\ heap infinite_basis_world !!! 2%nat = [[half]; [F32.pinf]]
  /\ heap (snd (BaseSpecularMaterials.get_brdf_parameters 0 infinite_basis_world)) !!! 5%nat
     = [[F32.nan]; [F32.pinf]]
  /\ heap uniform_then_one_hot !!! 3%nat = one_hot_2
  /\ heap uniform_then_one_hot !!! 2%nat = [[half]; [F32.one]]
  /\ fst (BaseSpecularMaterials.get_brdf_parameters 0 uniform_then_one_hot)
     = Ok (VDict [("diffuse", VTensor (Tensor 0 true));
                  ("specular", VDict [("albedo", VTensor (Tensor 4 true));
                                      ("roughness", VTensor (Tensor 5 true))])])
  /\ heap (snd (BaseSpecularMaterials.get_brdf_parameters 0 uniform_then_one_hot)) !!! 5%nat
     = [[S754_finite false 12582912 (-24)]; [S754_finite false 12582912 (-24)]].
Proof. repeat split; vm_compute; reflexivity. Qed.

Lemma get_brdf_parameters_mixes_bases_witness :
  exists w',
    BaseSpecularMaterials.get_brdf_parameters 0 mix_world
    = (Ok (VDict [("diffuse", VTensor (Tensor 0 true));
                  ("specular", VDict (mixed_items 4 true
                                        [("albedo", Tensor 1 true); ("roughness", Tensor 2 true)]))]),
       w')
    /\ exists r0 r1,
         heap w' !!! 5%nat = [r0; r1]
         /\ Forall2 same_value r0 [half] /\ Forall2 same_value r1 [F32.one].
Proof.
  destruct (get_brdf_parameters_mixes_bases mix_world 0 mix_instance
              (Tensor 0 true) (Tensor 3 true)
              [("albedo", Tensor 1 true); ("roughness", Tensor 2 true)])
    as (w' & Hrun & _ & Hone).
  - reflexivity.
  - reflexivity.
  - reflexivity.
  - cbn; lia.
  - repeat constructor; cbn; lia.
  - intros c; discriminate.
  - exists w'. split; [exact Hrun|].
    apply (Hone 1%nat ("roughness", Tensor 2 true) [half] [F32.one]);
      first [reflexivity | by repeat constructor].
Defined.

Lemma deserialize_serialize_round_trip_witness :
  exists w1 w2,
    BaseSpecularMaterials.serialize 0 mix_world
    = (Ok (Tensor 4 false,
           param_dict (Tensor 5 false)
             (cloned_specs 6 [("albedo", Tensor 1 true); ("roughness", Tensor 2 true)])),
       w1)
    /\ BaseSpecularMaterials.deserialize 0
         [VTensor (Tensor 4 false);
          param_dict (Tensor 5 false)
            (cloned_specs 6 [("albedo", Tensor 1 true); ("roughness", Tensor 2 true)])] w1
       = (Ok tt, w2)
    /\ heap w2 !!! 4%nat = heap mix_world !!! 3%nat
    /\ heap w2 !!! 5%nat = heap mix_world !!! 0%nat.
Proof.
  destruct (deserialize_serialize_round_trip mix_world 0 mix_instance
              (Tensor 0 true) (Tensor 3 true)
              [("albedo", Tensor 1 true); ("roughness", Tensor 2 true)])
    as (w1 & w2 & Hser & Hdes & _ & Hw & Hd & _ & _ & _).
  - reflexivity.
  - reflexivity.
  - reflexivity.
  - cbn; lia.
  - cbn; lia.
  - repeat constructor; cbn; lia.
  - exists w1, w2. auto.
Defined.

Lemma Diffuse_calculate_rhos_lambertian_witness :
  call Diffuse.calculate_rhos
    [VObj ClsDiffuse; VArr3 two_lights; VArr2 grazing_Vs; VArr2 facing_up; grazing_parameters]
    grazing_world
  = (Ok (map (fun albedo => [map (fun x => F32.div x (F32.of_double F32.np_pi)) albedo])
             (heap grazing_world !!! 0%nat),
         inner_product (view_m1_1_3 facing_up)
           (normalize (two_lights + view_m1_1_3 grazing_Vs)%T)),
     grazing_world).
Proof.
  apply (Diffuse_calculate_rhos_lambertian (VObj ClsDiffuse) two_lights grazing_Vs facing_up
           [("diffuse", VTensor (Tensor 0 true));
            ("specular", VDict [("albedo", VTensor (Tensor 1 true));
                                ("roughness", VTensor (Tensor 2 true))])]
           (Tensor 0 true) grazing_world).
  - reflexivity.
  - by repeat constructor.
Defined.

(** With two lights the returned rhos has a light axis of size 1, not 2. *)
Lemma Diffuse_rhos_light_axis_is_one :
  map length two_lights = [2%nat]
  /\ (map length <$>
        (match fst (call Diffuse.calculate_rhos
                      [VObj ClsDiffuse; VArr3 two_lights; VArr2 grazing_Vs; VArr2 facing_up;
                       grazing_parameters] grazing_world) with
         | Ok (rhos, _) => Some rhos
         | Raise _ => None
         end)) = Some [1%nat].
Proof. split; vm_compute; reflexivity. Qed.

Lemma BrdfParametrizationFactory_unknown_name_NameError_witness :
  BrdfParametrizationFactory "Diffuse" grazing_world
  = (Raise (NameError "error"), grazing_world).
Proof.
  destruct (BrdfParametrizationFactory_unknown_name_NameError "Diffuse" grazing_world)
    as [H _]; [done|done|done|exact H].
Defined.

Lemma Diffuse_enforce_parameter_bounds_projects_witness :
  exists w',
    call Diffuse.enforce_parameter_bounds [VObj ClsDiffuse; grazing_parameters]
      negative_albedo_world = (Ok tt, w')
    /\ heap w' !!! 0%nat = [[F32.zero; half; F32.nan]]
    /\ call Diffuse.enforce_parameter_bounds [VObj ClsDiffuse; grazing_parameters] w'
       = (Ok tt, w').
Proof.
  destruct (Diffuse_enforce_parameter_bounds_projects (VObj ClsDiffuse)
              [("diffuse", VTensor (Tensor 0 true));
               ("specular", VDict [("albedo", VTensor (Tensor 1 true));
                                   ("roughness", VTensor (Tensor 2 true))])]
              (Tensor 0 true) negative_albedo_world)
    as (w' & Hrun & Hheap & _ & _ & _ & _ & Hagain).
  - reflexivity.
  - cbn; lia.
  - exists w'. split; [exact Hrun|]. split; [|exact Hagain].
    cbn [storage] in Hheap. rewrite Hheap. reflexivity.
Defined.


Lemma detach_and_clone_dict_recursive_copies_witness :
  exists v',
    detach_and_clone_dict_recursive mix_parameters mix_world
    = (Ok v',
       World (heap mix_world
              ++ map (fun t => heap mix_world !!! storage t) (tensor_leaves mix_parameters))
             (objects mix_world) (lru mix_world))
    /\ same_shape detached mix_parameters v'
    /\ tensor_leaves v' = [Tensor 4 false; Tensor 5 false; Tensor 6 false].
Proof.
  apply (detach_and_clone_dict_recursive_copies mix_parameters mix_world).
  repeat constructor; cbn; lia.
Defined.

Lemma initialize_builds_uniform_mixture_witness :
  BaseSpecularMaterials.initialize table_kernels 0 3 (Tensor 0 false) 2 blank_world
  = (Ok tt,
     World [ [[half; half; half]]; ones 2 3; ones 2 1; ones 2 1;
             [[half; half]; [half; half]; [half; half]] ]
           [Instance ClsCookTorrance
              (Some (param_dict (Tensor 0 true)
                       [("albedo", Tensor 1 true); ("roughness", Tensor 2 true);
                        ("eta", Tensor 3 true)]))
              (Some (Tensor 4 true))]
           None).
Proof.
  destruct (initialize_builds_uniform_mixture table_kernels blank_world 0
              (Instance ClsCookTorrance None None) 3 (Tensor 0 false) 2 eq_refl)
    as [_ H].
  exact H.
Defined.

Lemma get_brdf_parameters_cache_holds_one_instance_witness :
  lru (snd (BaseSpecularMaterials.get_brdf_parameters 1 two_materials_world))
  = Some (1%nat,
          VDict [("diffuse", VTensor (Tensor 0 true));
                 ("specular", VDict [("albedo", VTensor (Tensor 4 true));
                                     ("roughness", VTensor (Tensor 5 true))])])
  /\ fst (BaseSpecularMaterials.get_brdf_parameters 0
            (snd (BaseSpecularMaterials.get_brdf_parameters 1 two_materials_world)))
     = Ok (VDict [("diffuse", VTensor (Tensor 0 true));
                  ("specular", VDict [("albedo", VTensor (Tensor 6 true));
                                      ("roughness", VTensor (Tensor 7 true))])]).
Proof.
  destruct (get_brdf_parameters_cache_holds_one_instance two_materials_world
              (snd (BaseSpecularMaterials.get_brdf_parameters 1 two_materials_world))
              0 1
              (VDict [("diffuse", VTensor (Tensor 0 true));
                      ("specular", VDict [("albedo", VTensor (Tensor 4 true));
                                          ("roughness", VTensor (Tensor 5 true))])]))
    as [Hslot Hnext].
  - done.
  - reflexivity.
  - split; [exact Hslot|]. by rewrite (Hnext _ eq_refl).
Defined.

Lemma deserialize_keeps_cached_parameters_witness :
  BaseSpecularMaterials.get_brdf_parameters 0
    (snd (BaseSpecularMaterials.deserialize 0
            [VTensor (Tensor 2 false); mix_parameters] after_first_call))
  = (Ok (VDict [("diffuse", VTensor (Tensor 0 true));
                ("specular", VDict [("albedo", VTensor (Tensor 4 true));
                                    ("roughness", VTensor (Tensor 5 true))])]),
     snd (BaseSpecularMaterials.deserialize 0
            [VTensor (Tensor 2 false); mix_parameters] after_first_call)).
Proof.
  apply (deserialize_keeps_cached_parameters 0 [VTensor (Tensor 2 false); mix_parameters]
           after_first_call _
           (fst (BaseSpecularMaterials.deserialize 0
                   [VTensor (Tensor 2 false); mix_parameters] after_first_call))).
  - reflexivity.
  - apply surjective_pairing.
Defined.

Lemma deserialize_is_not_atomic_witness :
  BaseSpecularMaterials.deserialize 0 [VTensor (Tensor 2 false)] mix_world
  = (Raise IndexError,
     World (heap mix_world)
       [Instance ClsCookTorranceF1 (Some mix_parameters) (Some (Tensor 2 true))] None).
Proof.
  destruct (deserialize_is_not_atomic 0 mix_instance mix_world (Tensor 2 false) VOther)
    as (_ & H & _); [reflexivity|reflexivity|exact H].
Defined.

Lemma methods_before_initialize_raise_AttributeError_witness :
  BaseSpecularMaterials.get_brdf_parameters 0 blank_world
  = (Raise (AttributeError "brdf_parameters"), blank_world)
  /\ BaseSpecularMaterials.enforce_parameter_bounds table_kernels 0 blank_world
     = (Raise (AttributeError "base_weights"), blank_world)
  /\ BaseSpecularMaterials.serialize 0 blank_world
     = (Raise (AttributeError "base_weights"), blank_world).
Proof.
  apply (methods_before_initialize_raise_AttributeError table_kernels blank_world 0
           ClsCookTorrance); [reflexivity|done].
Defined.

Lemma CookTorrance_calculate_rhos_entry_by_entry_witness :
  exists rhos NdotHs x h,
    call (CookTorrance.calculate_rhos table_kernels)
      [VObj ClsCookTorrance; VArr3 two_points_Ls; VArr2 two_points_Vs; VArr2 two_points_up;
       mix_parameters] mix_world
    = (Ok (rhos, NdotHs), mix_world)
    /\ call (CookTorrance.calculate_rhos table_kernels)
         [VObj ClsCookTorrance; VArr3 [[[F32.one; F32.zero; F32.zero]]]; VArr2 grazing_Vs;
          VArr2 facing_up; grazing_parameters] grazing_world
       = (Ok ([[x]], [[h]]), grazing_world)
    /\ rhos !! 0%nat ≫= (.!! 1%nat) = Some x
    /\ NdotHs !! 0%nat ≫= (.!! 1%nat) = Some h.
Proof.
  apply (CookTorrance_calculate_rhos_entry_by_entry table_kernels
           (VObj ClsCookTorrance) (VObj ClsCookTorrance)
           two_points_Ls two_points_Vs two_points_up
           [("diffuse", VTensor (Tensor 0 true));
            ("specular", VDict [("albedo", VTensor (Tensor 1 true));
                                ("roughness", VTensor (Tensor 2 true))])]
           [("diffuse", VTensor (Tensor 0 true));
            ("specular", VDict [("albedo", VTensor (Tensor 1 true));
                                ("roughness", VTensor (Tensor 2 true))])]
           (heap mix_world !!! 0%nat) (heap mix_world !!! 1%nat) (heap mix_world !!! 2%nat)
           None mix_world grazing_world 0 1
           [[F32.zero; F32.zero; F32.one]; [F32.one; F32.zero; F32.zero]]
           [F32.one; F32.zero; F32.zero]).
  - do 4 eexists. repeat split; reflexivity.
  - repeat split; repeat constructor.
  - reflexivity.
  - reflexivity.
  - do 4 eexists. repeat split; reflexivity.
Defined.

Lemma CookTorrance_calculate_rhos_shape_witness :
  exists rhos NdotHs,
    call (CookTorrance.calculate_rhos table_kernels)
      [VObj ClsCookTorrance; VArr3 two_points_Ls; VArr2 two_points_Vs; VArr2 two_points_up;
       mix_parameters] mix_world
    = (Ok (rhos, NdotHs), mix_world)
    /\ Forall2 (fun r lights => length r = length lights) rhos two_points_Ls
    /\ row_length 3 rhos
    /\ Forall2 (fun r lights => length r = length lights) NdotHs two_points_Ls
    /\ row_length 1 NdotHs.
Proof.
  apply (CookTorrance_calculate_rhos_shape table_kernels (VObj ClsCookTorrance)
           two_points_Ls two_points_Vs two_points_up
           [("diffuse", VTensor (Tensor 0 true));
            ("specular", VDict [("albedo", VTensor (Tensor 1 true));
                                ("roughness", VTensor (Tensor 2 true))])]
           (heap mix_world !!! 0%nat) (heap mix_world !!! 1%nat) (heap mix_world !!! 2%nat)
           None mix_world).
  - do 4 eexists. repeat split; reflexivity.
  - repeat split; repeat constructor.
Defined.

Lemma CookTorrance_rhos_entry_below_horizon_witness :
  exists rhos NdotHs,
    call (CookTorrance.calculate_rhos table_kernels)
      [VObj ClsCookTorrance; VArr3 two_points_Ls; VArr2 two_points_Vs; VArr2 two_points_up;
       mix_parameters] mix_world
    = (Ok (rhos, NdotHs), mix_world)
    /\ rhos !! 0%nat ≫= (.!! 1%nat)
       = Some (map (fun d => F32.add (F32.div d (F32.of_double F32.np_pi)) F32.zero)
                 [half; half; half]).
Proof.
  refine (CookTorrance_rhos_entry_below_horizon table_kernels (VObj ClsCookTorrance)
            two_points_Ls two_points_Vs two_points_up
            [("diffuse", VTensor (Tensor 0 true));
             ("specular", VDict [("albedo", VTensor (Tensor 1 true));
                                 ("roughness", VTensor (Tensor 2 true))])]
            (heap mix_world !!! 0%nat) (heap mix_world !!! 1%nat) (heap mix_world !!! 2%nat)
            None mix_world 0 1
            [[F32.zero; F32.zero; F32.one]; [F32.one; F32.zero; F32.zero]]
            [F32.one; F32.zero; F32.zero] _ _ _ _ _).
  - do 4 eexists. repeat split; reflexivity.
  - repeat split; repeat constructor.
  - reflexivity.
  - reflexivity.
  - left. vm_compute. repeat constructor.
Defined.

Lemma BaseSpecularMaterials_positive_rows_end_in_unit_interval_witness :
  exists row',
    (heap (snd (BaseSpecularMaterials.enforce_parameter_bounds table_kernels 0 mix_world))
       !!! 3%nat) !! 0%nat = Some row'
    /\ length row' = length [F32.one; F32.zero]
    /\ Forall (fun x => F32.leb F32.zero x = true /\ F32.leb x F32.one = true) row'.
Proof.
  apply (BaseSpecularMaterials_positive_rows_end_in_unit_interval table_kernels mix_world
           (snd (BaseSpecularMaterials.enforce_parameter_bounds table_kernels 0 mix_world))
           0 mix_instance (Tensor 3 true)
           (fst (BaseSpecularMaterials.enforce_parameter_bounds table_kernels 0 mix_world))
           0 [F32.one; F32.zero]);
    first [reflexivity | cbn; lia | apply surjective_pairing
          | by repeat constructor | by left ].
Defined.

Lemma CookTorrance_calculate_rhos_guards_NaN_witness :
  call (CookTorrance.calculate_rhos table_kernels)
    [VObj ClsCookTorrance; VArr3 grazing_Ls; VArr2 grazing_Vs; VArr2 facing_up;
     grazing_parameters] grazing_world
  = (Ok ((divs (view_m1_1_3 [[half; half; half]]) (F32.of_double F32.np_pi)
          + map3d nan_to_zero
              (specular_before_guard table_kernels grazing_Ls grazing_Vs facing_up
                 [[F32.one; F32.one; F32.one]] [[half]] None))%T,
         snd (BrdfParametrization._calculate_NdotHs grazing_Ls grazing_Vs facing_up)),
     grazing_world)
  /\ Forall (fun x => F32.is_nan x = false)
       (entries (map3d nan_to_zero
                   (specular_before_guard table_kernels grazing_Ls grazing_Vs facing_up
                      [[F32.one; F32.one; F32.one]] [[half]] None))).
Proof.
  destruct (CookTorrance_calculate_rhos_guards_NaN table_kernels (VObj ClsCookTorrance)
              grazing_Ls grazing_Vs facing_up
              [("diffuse", VTensor (Tensor 0 true));
               ("specular", VDict [("albedo", VTensor (Tensor 1 true));
                                   ("roughness", VTensor (Tensor 2 true))])]
              [[half; half; half]] [[F32.one; F32.one; F32.one]] [[half]] None
              grazing_world)
    as (Hrun & _ & _ & Hnan & _).
  - do 4 eexists. repeat split; reflexivity.
  - repeat split; repeat constructor.
  - split; [exact Hrun | exact Hnan].
Defined.

Lemma CookTorrance_rhos_diffuse_below_horizon_witness :
  Forall (fun x => x = F32.nan)
    (entries (specular_before_guard table_kernels horizon_lights two_points_Vs two_points_up
                (heap mix_world !!! 1%nat) (heap mix_world !!! 2%nat) None))
  /\ call (CookTorrance.calculate_rhos table_kernels)
       [VObj ClsCookTorrance; VArr3 horizon_lights; VArr2 two_points_Vs;
        VArr2 two_points_up; mix_parameters] mix_world
     = (Ok (diffuse_rhos horizon_lights (heap mix_world !!! 0%nat),
            snd (BrdfParametrization._calculate_NdotHs horizon_lights two_points_Vs
                   two_points_up)),
        mix_world).
Proof.
  apply (CookTorrance_rhos_diffuse_below_horizon table_kernels (VObj ClsCookTorrance)
           horizon_lights two_points_Vs two_points_up
           [("diffuse", VTensor (Tensor 0 true));
            ("specular", VDict [("albedo", VTensor (Tensor 1 true));
                                ("roughness", VTensor (Tensor 2 true))])]
           (heap mix_world !!! 0%nat) (heap mix_world !!! 1%nat) (heap mix_world !!! 2%nat)
           None mix_world).
  - do 4 eexists. repeat split; reflexivity.
  - repeat split; repeat constructor.
  - left. vm_compute. repeat constructor.
Defined.

Lemma CookTorrance_rhos_diffuse_at_unit_roughness_witness :
  Forall (fun x => x = F32.nan)
    (entries (GTR unit_log_kernels
                (snd (BrdfParametrization._calculate_NdotHs two_lights grazing_Vs facing_up))
                (map2d sq [[F32.one]]) (F32.double_of_Z 1)))
  /\ Forall (fun x => x = F32.nan)
       (entries (specular_before_guard unit_log_kernels two_lights grazing_Vs facing_up
                   [[F32.one; F32.one; F32.one]] [[F32.one]] None))
  /\ call (CookTorrance.calculate_rhos unit_log_kernels)
       [VObj ClsCookTorrance; VArr3 two_lights; VArr2 grazing_Vs; VArr2 facing_up;
        grazing_parameters] unit_roughness_world
     = (Ok (diffuse_rhos two_lights [[half; half; half]],
            snd (BrdfParametrization._calculate_NdotHs two_lights grazing_Vs facing_up)),
        unit_roughness_world).
Proof.
  apply (CookTorrance_rhos_diffuse_at_unit_roughness unit_log_kernels (VObj ClsCookTorrance)
           two_lights grazing_Vs facing_up
           [("diffuse", VTensor (Tensor 0 true));
            ("specular", VDict [("albedo", VTensor (Tensor 1 true));
                                ("roughness", VTensor (Tensor 2 true))])]
           [[half; half; half]] [[F32.one; F32.one; F32.one]] [[F32.one]] None
           unit_roughness_world).
  - do 4 eexists. repeat split; reflexivity.
  - repeat split; repeat constructor.
  - reflexivity.
  - by repeat constructor.
Defined.

Lemma fresh_CookTorrance_material_is_purely_diffuse_witness :
  exists w1 w2 items,
    BaseSpecularMaterials.initialize unit_log_kernels 0 1 (Tensor 0 false) 2 blank_world
    = (Ok tt, w1)
    /\ BaseSpecularMaterials.get_brdf_parameters 0 w1 = (Ok (VDict items), w2)
    /\ holds_parameters w2 items [[half; half; half]] (ones 1 3) (ones 1 1)
         (Some (ones 1 1))
    /\ Forall (fun x => x = F32.nan)
         (entries (specular_before_guard unit_log_kernels two_lights grazing_Vs facing_up
                     (ones 1 3) (ones 1 1) (Some (ones 1 1))))
    /\ call (CookTorrance.calculate_rhos unit_log_kernels)
         [VObj ClsCookTorrance; VArr3 two_lights; VArr2 grazing_Vs; VArr2 facing_up;
          VDict items] w2
       = (Ok (diffuse_rhos two_lights [[half; half; half]],
              snd (BrdfParametrization._calculate_NdotHs two_lights grazing_Vs facing_up)),
          w2).
Proof.
  apply (fresh_CookTorrance_material_is_purely_diffuse unit_log_kernels blank_world 0
           (Instance ClsCookTorrance None None) 1 (Tensor 0 false)
           two_lights grazing_Vs facing_up);
    first [reflexivity | cbn; lia | done | repeat split; repeat constructor].
Defined.
